(** * Paint property binders of [src/data/program_configuration.js]

    A shallow embedding of the binder classes and of [ProgramConfiguration],
    followed by the properties of population, partial update, buffer
    selection and release that the specification states about them.

    Conventions of the embedding:
    - a JavaScript number that is a value (zoom, evaluated property, colour
      channel) is a binary64 [float]; a number that is an array length, an
      array index or a feature index is a [nat];
    - an object used as a dictionary is a [gmap] when only lookups matter
      ([_idMap], [imagePositions]) and an association list in enumeration
      order when the code iterates over it ([binders], [featureStates], the
      paint values of a layer); the map holds the entries of the object, and
      [member] is the lookup [object[name]], which also finds what every
      object inherits;
    - a method that mutates [this] takes the receiver as its last argument
      and returns the new receiver; a method that throws returns [None];
      the populate methods come twice: as the receiver a returning call
      leaves, and, with [_or_throw], as the call with its exception;
    - the graphics context is an explicit state. *)

From Stdlib Require Import PrimFloat FloatOps SpecFloat ZArith Uint63 Ascii.
From stdpp Require Import base option list gmap strings sorting pretty.

Local Open Scope string_scope.
Local Open Scope Z_scope.
Local Open Scope nat_scope.
Local Open Scope list_scope.

(** ** JavaScript numbers *)

Module Math.

Definition of_Z (z : Z) : float := PrimFloat.of_uint63 (Uint63.of_Z z).

(** [Math.floor]: the largest integral number not above [x]; NaN, the
    infinities, both zeros and integral numbers are returned as they are. *)
Definition floor (x : float) : float :=
  match Prim2SF x with
  | S754_finite s m e =>
      if (0 <=? e)%Z then x
      else
        let d := (2 ^ (- e))%Z in
        let q := (Z.pos m / d)%Z in
        if (Z.pos m mod d =? 0)%Z then x
        else if s then PrimFloat.opp (of_Z (q + 1)) else of_Z q
  | _ => x
  end.

(** [Math.max] of two numbers: NaN is contagious and [+0] is above [-0]. *)
Definition max (x y : float) : float :=
  if is_nan x || is_nan y then nan
  else if PrimFloat.ltb x y then y
  else if PrimFloat.ltb y x then x
  else if get_sign x then y else x.

End Math.

(** ** Values, features and expressions (external collaborators) *)

Module Color.
Record t := mk { r : float; g : float; b : float; a : float }.
End Color.

(** What an expression evaluates to. *)
Inductive Value :=
| VNumber (n : float)
| VColor (c : Color.t)
| VString (s : string).

(** [ToNumber] as [Math.max] and a float store apply it. A numeric property
    evaluates to a number; a colour object converts to NaN. *)
Definition ToNumber (v : Value) : float :=
  match v with
  | VNumber n => n
  | _ => nan
  end.

(** A feature id of a vector tile: an integer or a string. *)
Inductive FeatureId :=
| IdNumber (n : Z)
| IdString (s : string).

(** [if (feature.id)]: [0] and the empty string are falsy. *)
Definition truthy (i : FeatureId) : bool :=
  match i with
  | IdNumber n => negb (n =? 0)%Z
  | IdString s => negb (String.eqb s "")
  end.

(** [String(feature.id)] for an integer id below [10^21] in absolute value or
    a string id (from [10^21] on JavaScript prints a number with an
    exponent). *)
Definition String_of (i : FeatureId) : string :=
  match i with
  | IdNumber n => pretty n
  | IdString s => s
  end.

Module Feature.
Record t := mk { id : option FeatureId; properties : list (string * Value) }.
End Feature.

Definition FeatureState := list (string * Value).

(** The evaluator interface of the specification:
    [evaluate(params, feature[, featureState])] where [params] carries a zoom,
    [isStateDependent], and for composite expressions
    [interpolationFactor(input, lower, upper)]. *)
Module Expression.
Record t := mk {
  evaluate : float → Feature.t → option FeatureState → Value;
  isStateDependent : bool;
  interpolationFactor : float → float → float → float
}.
End Expression.

Module ImagePosition.
Record t := mk { tl : float * float; br : float * float; pixelRatio : float }.
End ImagePosition.

(** [{[string]: ImagePosition}]; [None] is a missing (falsy) argument. *)
Definition ImagePositions := option (gmap string ImagePosition.t).

(** The image position [imagePositions[name]] gives when it is an entry of
    [imagePositions]. (A name without entry that every object inherits gives
    the inherited member instead of [undefined]: see [image_member].) *)
Definition image_at (imagePositions : gmap string ImagePosition.t) (name : Value)
  : option ImagePosition.t :=
  match name with
  | VString s => imagePositions !! s
  | _ => None
  end.

(** ** Plain objects used as maps *)

(** The names every plain object inherits from [Object.prototype]. For such a
    name [object[name]] is not [undefined] even when the object has no entry
    of that name: it is the inherited member, a function or, for [__proto__],
    the prototype itself. In either case it is truthy, it is not iterable, and
    it has no property [tl], [br] or [push]. *)
Definition Object_prototype : list string :=
  [ "constructor"; "hasOwnProperty"; "isPrototypeOf"; "propertyIsEnumerable";
    "toLocaleString"; "toString"; "valueOf"; "__proto__";
    "__defineGetter__"; "__defineSetter__"; "__lookupGetter__"; "__lookupSetter__" ].

Definition inherited (name : string) : bool := existsb (String.eqb name) Object_prototype.

(** What [object[name]] finds: an entry of the object, or else a member every
    object inherits, or else [undefined]. *)
Inductive Member (A : Type) :=
| Entry (v : A)
| Inherited
| Undefined.

Arguments Entry {A} v.
Arguments Inherited {A}.
Arguments Undefined {A}.

Definition member {A : Type} (name : string) (object : gmap string A) : Member A :=
  match object !! name with
  | Some v => Entry v
  | None => if inherited name then Inherited else Undefined
  end.

(** [imagePositions[name]] *)
Definition image_member (imagePositions : gmap string ImagePosition.t) (name : Value)
  : Member ImagePosition.t :=
  match name with
  | VString s => member s imagePositions
  | _ => Undefined
  end.

(** ** Struct arrays *)

(** Modelled from the spec: [StructArray] and its layouts
    ([util/struct_array.js], [data/array_types.js]) are not among the sources.
    A paint array is a growable array of elements; an element is the tuple of
    numbers given to [emplaceBack] or [emplace] (the rounding of the typed
    array that stores them is left out). [reserve] only changes the capacity,
    which neither [length] nor an element shows. [emplaceBack] appends one
    element; [emplace(i, ...)] overwrites element [i] in place and, as a store
    into a typed array, does nothing at an index the array does not have. *)
Module StructArray.

Inductive Layout :=
| StructArrayLayout1f4
| StructArrayLayout2f8
| StructArrayLayout4f16
| PatternLayoutArray.

Record t := mk { layout : Layout; elements : list (list float) }.

Definition new (l : Layout) : t := mk l [].

Definition length (arr : t) : nat := List.length (elements arr).

Definition reserve (n : nat) (arr : t) : t := arr.

Definition emplaceBack (v : list float) (arr : t) : t :=
  mk (layout arr) (elements arr ++ [v]).

Definition emplace (i : nat) (v : list float) (arr : t) : t :=
  mk (layout arr) (<[i := v]> (elements arr)).

Definition get (i : nat) (arr : t) : option (list float) := elements arr !! i.

End StructArray.

Record StructArrayMember := {
  member_name : string;
  member_type : string;
  components : nat;
  offset : nat
}.

(** [for (let i = start; i < stop; i++) body]. *)
Fixpoint for_loop {S : Type} (count i : nat) (body : nat → S → S) (s : S) : S :=
  match count with
  | O => s
  | Datatypes.S k => for_loop k (Datatypes.S i) body (body i s)
  end.

Definition for_range {S : Type} (start stop : nat) (body : nat → S → S) (s : S) : S :=
  for_loop (stop - start) start body s.

(** ** The graphics context *)

(** Modelled from the spec: [Context] and [VertexBuffer] ([gl/context.js],
    [gl/vertex_buffer.js]) are not among the sources. [createVertexBuffer]
    realizes a new buffer from an array; the context counts the buffers it
    made and logs every invocation of a buffer's destroy operation. *)
Module VertexBuffer.
Record t := mk {
  handle : nat;
  array : StructArray.t;
  attributes : list StructArrayMember;
  dynamicDraw : bool
}.
End VertexBuffer.

Module Context.
Record t := mk { created : nat; destroyed : list nat }.

Definition initial : t := mk 0 [].

Definition createVertexBuffer (array : StructArray.t)
    (attributes : list StructArrayMember) (dynamicDraw : bool) (ctx : t)
  : VertexBuffer.t * t :=
  (VertexBuffer.mk (created ctx) array attributes dynamicDraw,
   mk (Datatypes.S (created ctx)) (destroyed ctx)).

(** [buffer.destroy()] *)
Definition destroyBuffer (buffer : VertexBuffer.t) (ctx : t) : t :=
  mk (created ctx) (destroyed ctx ++ [VertexBuffer.handle buffer]).

(** How often the destroy operation of buffer [h] was invoked. *)
Definition destroy_count (h : nat) (ctx : t) : nat :=
  List.length (filter (λ x, x = h) (destroyed ctx)).
End Context.

(** [CrossfadeParameters]; the field [t] of the source is [t_] here. *)
Record CrossfadeParameters := { fromScale : float; toScale : float; t_ : float }.

(** ** Binders *)

(** [packUint8ToFloat] of [shaders/encode_attribute.js] is not among the
    sources: the binders take it as a parameter. *)
Definition Encoder := float → float → float.

(** [packColor]: a value that is not a colour has no channels, and
    [255 * undefined] is NaN. *)
Definition packColor (packUint8ToFloat : Encoder) (color : Value) : float * float :=
  let channel (get : Color.t → float) : float :=
    match color with
    | VColor c => PrimFloat.mul 255 (get c)
    | _ => nan
    end in
  (packUint8ToFloat (channel Color.r) (channel Color.g),
   packUint8ToFloat (channel Color.b) (channel Color.a)).

Module Statistics.
Record t := mk { max : float }.
End Statistics.

Definition is_color (type : string) : bool := String.eqb type "color".

Definition uniform_defines (names : list string) : list string :=
  (λ name, "#define HAS_UNIFORM_u_" +:+ name) <$> names.

Module ConstantBinder.
Record t := mk {
  value : Value;
  names : list string;
  type : string;
  statistics : Statistics.t
}.

Definition new (value : Value) (names : list string) (type : string) : t :=
  mk value names type (Statistics.mk neg_infinity).

Definition defines (this : t) : list string := uniform_defines (names this).
Definition populatePaintArray (this : t) : t := this.
Definition updatePaintArray (this : t) : t := this.
Definition upload (this : t) (ctx : Context.t) : t * Context.t := (this, ctx).
Definition destroy (this : t) (ctx : Context.t) : Context.t := ctx.
End ConstantBinder.

Module CrossFadedConstantBinder.
Record t := mk {
  value : Value;
  names : list string;
  type : string;
  statistics : Statistics.t
}.

Definition new (value : Value) (names : list string) (type : string) : t :=
  mk value names type (Statistics.mk neg_infinity).

Definition defines (this : t) : list string := uniform_defines (names this).
Definition populatePaintArray (this : t) : t := this.
Definition updatePaintArray (this : t) : t := this.
Definition upload (this : t) (ctx : Context.t) : t * Context.t := (this, ctx).
Definition destroy (this : t) (ctx : Context.t) : Context.t := ctx.
End CrossFadedConstantBinder.

Definition float_attributes (names : list string) (n : nat) : list StructArrayMember :=
  (λ name, {| member_name := "a_" +:+ name; member_type := "Float32";
              components := n; offset := 0 |}) <$> names.

Module SourceExpressionBinder.
Record t := mk {
  expression : Expression.t;
  names : list string;
  type : string;
  statistics : Statistics.t;
  paintVertexArray : StructArray.t;
  paintVertexAttributes : list StructArrayMember;
  paintVertexBuffer : option VertexBuffer.t
}.

Definition new (expression : Expression.t) (names : list string) (type : string)
    (PaintVertexArray : StructArray.Layout) : t :=
  mk expression names type (Statistics.mk neg_infinity)
     (StructArray.new PaintVertexArray)
     (float_attributes names (if is_color type then 2 else 1))
     None.

Definition with_array (this : t) (arr : StructArray.t) (st : Statistics.t) : t :=
  mk (expression this) (names this) (type this) st arr
     (paintVertexAttributes this) (paintVertexBuffer this).

Definition with_expression (this : t) (e : Expression.t) : t :=
  mk e (names this) (type this) (statistics this) (paintVertexArray this)
     (paintVertexAttributes this) (paintVertexBuffer this).

Definition defines (this : t) : list string := [].

Definition populatePaintArray (pack : Encoder) (newLength : nat) (feature : Feature.t)
    (this : t) : t :=
  let paintArray := paintVertexArray this in
  let start := StructArray.length paintArray in
  let paintArray := StructArray.reserve newLength paintArray in
  let value := Expression.evaluate (expression this) 0%float feature None in
  if is_color (type this) then
    let color := packColor pack value in
    with_array this
      (for_range start newLength
         (λ _, StructArray.emplaceBack [color.1; color.2]) paintArray)
      (statistics this)
  else
    with_array this
      (for_range start newLength
         (λ _, StructArray.emplaceBack [ToNumber value]) paintArray)
      (Statistics.mk (Math.max (Statistics.max (statistics this)) (ToNumber value))).

Definition updatePaintArray (pack : Encoder) (start end_ : nat) (feature : Feature.t)
    (featureState : FeatureState) (this : t) : t :=
  let paintArray := paintVertexArray this in
  let value := Expression.evaluate (expression this) 0%float feature (Some featureState) in
  if is_color (type this) then
    let color := packColor pack value in
    with_array this
      (for_range start end_
         (λ i, StructArray.emplace i [color.1; color.2]) paintArray)
      (statistics this)
  else
    with_array this
      (for_range start end_
         (λ i, StructArray.emplace i [ToNumber value]) paintArray)
      (Statistics.mk (Math.max (Statistics.max (statistics this)) (ToNumber value))).

(** The constructor always makes the paint array, so [if (this.paintVertexArray)]
    holds. *)
Definition upload (this : t) (ctx : Context.t) : t * Context.t :=
  let '(buffer, ctx) :=
    Context.createVertexBuffer (paintVertexArray this) (paintVertexAttributes this)
      (Expression.isStateDependent (expression this)) ctx in
  (mk (expression this) (names this) (type this) (statistics this)
      (paintVertexArray this) (paintVertexAttributes this) (Some buffer), ctx).

Definition destroy (this : t) (ctx : Context.t) : Context.t :=
  match paintVertexBuffer this with
  | Some buffer => Context.destroyBuffer buffer ctx
  | None => ctx
  end.
End SourceExpressionBinder.

Module CompositeExpressionBinder.
Record t := mk {
  expression : Expression.t;
  names : list string;
  type : string;
  useIntegerZoom : bool;
  zoom : float;
  statistics : Statistics.t;
  paintVertexArray : StructArray.t;
  paintVertexAttributes : list StructArrayMember;
  paintVertexBuffer : option VertexBuffer.t
}.

Definition new (expression : Expression.t) (names : list string) (type : string)
    (useIntegerZoom : bool) (zoom : float) (layout : StructArray.Layout) : t :=
  mk expression names type useIntegerZoom zoom (Statistics.mk neg_infinity)
     (StructArray.new layout)
     (float_attributes names (if is_color type then 4 else 2))
     None.

Definition with_array (this : t) (arr : StructArray.t) (st : Statistics.t) : t :=
  mk (expression this) (names this) (type this) (useIntegerZoom this) (zoom this)
     st arr (paintVertexAttributes this) (paintVertexBuffer this).

Definition with_expression (this : t) (e : Expression.t) : t :=
  mk e (names this) (type this) (useIntegerZoom this) (zoom this)
     (statistics this) (paintVertexArray this) (paintVertexAttributes this)
     (paintVertexBuffer this).

Definition defines (this : t) : list string := [].

Definition populatePaintArray (pack : Encoder) (newLength : nat) (feature : Feature.t)
    (this : t) : t :=
  let paintArray := paintVertexArray this in
  let start := StructArray.length paintArray in
  let paintArray := StructArray.reserve newLength paintArray in
  let min := Expression.evaluate (expression this) (zoom this) feature None in
  let max := Expression.evaluate (expression this) (zoom this + 1)%float feature None in
  if is_color (type this) then
    let minColor := packColor pack min in
    let maxColor := packColor pack max in
    with_array this
      (for_range start newLength
         (λ _, StructArray.emplaceBack [minColor.1; minColor.2; maxColor.1; maxColor.2])
         paintArray)
      (statistics this)
  else
    with_array this
      (for_range start newLength
         (λ _, StructArray.emplaceBack [ToNumber min; ToNumber max]) paintArray)
      (Statistics.mk
         (Math.max (Math.max (Statistics.max (statistics this)) (ToNumber min))
            (ToNumber max))).

Definition updatePaintArray (pack : Encoder) (start end_ : nat) (feature : Feature.t)
    (featureState : FeatureState) (this : t) : t :=
  let paintArray := paintVertexArray this in
  let min := Expression.evaluate (expression this) (zoom this) feature (Some featureState) in
  let max :=
    Expression.evaluate (expression this) (zoom this + 1)%float feature (Some featureState) in
  if is_color (type this) then
    let minColor := packColor pack min in
    let maxColor := packColor pack max in
    with_array this
      (for_range start end_
         (λ i, StructArray.emplace i [minColor.1; minColor.2; maxColor.1; maxColor.2])
         paintArray)
      (statistics this)
  else
    with_array this
      (for_range start end_
         (λ i, StructArray.emplace i [ToNumber min; ToNumber max]) paintArray)
      (Statistics.mk
         (Math.max (Math.max (Statistics.max (statistics this)) (ToNumber min))
            (ToNumber max))).

Definition upload (this : t) (ctx : Context.t) : t * Context.t :=
  let '(buffer, ctx) :=
    Context.createVertexBuffer (paintVertexArray this) (paintVertexAttributes this)
      (Expression.isStateDependent (expression this)) ctx in
  (mk (expression this) (names this) (type this) (useIntegerZoom this) (zoom this)
      (statistics this) (paintVertexArray this) (paintVertexAttributes this)
      (Some buffer), ctx).

Definition destroy (this : t) (ctx : Context.t) : Context.t :=
  match paintVertexBuffer this with
  | Some buffer => Context.destroyBuffer buffer ctx
  | None => ctx
  end.

Definition interpolationFactor (this : t) (currentZoom : float) : float :=
  if useIntegerZoom this then
    Expression.interpolationFactor (expression this) (Math.floor currentZoom)
      (zoom this) (zoom this + 1)%float
  else
    Expression.interpolationFactor (expression this) currentZoom
      (zoom this) (zoom this + 1)%float.
End CompositeExpressionBinder.

Module CrossFadedCompositeBinder.
Record t := mk {
  expression : Expression.t;
  names : list string;
  type : string;
  useIntegerZoom : bool;
  zoom : float;
  statistics : Statistics.t;
  zoomInPaintVertexArray : StructArray.t;
  zoomOutPaintVertexArray : StructArray.t;
  zoomInPaintVertexBuffer : option VertexBuffer.t;
  zoomOutPaintVertexBuffer : option VertexBuffer.t;
  paintVertexAttributes : list StructArrayMember
}.

Definition new (expression : Expression.t) (names : list string) (type : string)
    (useIntegerZoom : bool) (zoom : float) (PaintVertexArray : StructArray.Layout) : t :=
  mk expression names type useIntegerZoom zoom (Statistics.mk neg_infinity)
     (StructArray.new PaintVertexArray) (StructArray.new PaintVertexArray)
     None None
     ((λ name, {| member_name := "a_" +:+ name; member_type := "Uint16";
                  components := 4; offset := 0 |}) <$> names).

Definition with_arrays (this : t) (zoomIn zoomOut : StructArray.t) : t :=
  mk (expression this) (names this) (type this) (useIntegerZoom this) (zoom this)
     (statistics this) zoomIn zoomOut
     (zoomInPaintVertexBuffer this) (zoomOutPaintVertexBuffer this)
     (paintVertexAttributes this).

Definition with_expression (this : t) (e : Expression.t) : t :=
  mk e (names this) (type this) (useIntegerZoom this) (zoom this)
     (statistics this) (zoomInPaintVertexArray this) (zoomOutPaintVertexArray this)
     (zoomInPaintVertexBuffer this) (zoomOutPaintVertexBuffer this)
     (paintVertexAttributes this).

Definition defines (this : t) : list string := [].

(** The eight numbers of one pattern element: the rectangle of the image at
    the tile's zoom, then the rectangle of the image one zoom away. *)
Definition pattern_element (imageMid other : ImagePosition.t) : list float :=
  [ (ImagePosition.tl imageMid).1; (ImagePosition.tl imageMid).2;
    (ImagePosition.br imageMid).1; (ImagePosition.br imageMid).2;
    (ImagePosition.tl other).1; (ImagePosition.tl other).2;
    (ImagePosition.br other).1; (ImagePosition.br other).2 ].

(** The binder a [populatePaintArray] call leaves when it returns. *)
Definition populatePaintArray (length : nat) (feature : Feature.t)
    (imagePositions : ImagePositions) (this : t) : t :=
  let zoomInArray := zoomInPaintVertexArray this in
  let zoomOutArray := zoomOutPaintVertexArray this in
  let start := StructArray.length zoomInArray in
  let zoomInArray := StructArray.reserve length zoomInArray in
  let zoomOutArray := StructArray.reserve length zoomOutArray in
  let min := Expression.evaluate (expression this) (zoom this - 1)%float feature None in
  let mid := Expression.evaluate (expression this) (zoom this) feature None in
  let max := Expression.evaluate (expression this) (zoom this + 1)%float feature None in
  match imagePositions with
  | Some imagePositions =>
      match image_at imagePositions min, image_at imagePositions mid,
            image_at imagePositions max with
      | Some imageMin, Some imageMid, Some imageMax =>
          let '(zoomInArray, zoomOutArray) :=
            for_range start length
              (λ _ '(zoomInArray, zoomOutArray),
                 (StructArray.emplaceBack (pattern_element imageMid imageMin) zoomInArray,
                  StructArray.emplaceBack (pattern_element imageMid imageMax) zoomOutArray))
              (zoomInArray, zoomOutArray) in
          with_arrays this zoomInArray zoomOutArray
      | _, _, _ => with_arrays this zoomInArray zoomOutArray
      end
  | None => with_arrays this zoomInArray zoomOutArray
  end.

(** [populatePaintArray] with its exception: [populatePaintArray] above is
    the binder a call leaves when it returns, and this is the call. The guard
    [!imageMin || !imageMid || !imageMax] returns for a name that
    [imagePositions] gives [undefined] for; an inherited member passes it, and
    writing the first element then throws at the member's [tl[0]]. *)
Definition populatePaintArray_or_throw (length : nat) (feature : Feature.t)
    (imagePositions : ImagePositions) (this : t) : option t :=
  let zoomInArray := zoomInPaintVertexArray this in
  let zoomOutArray := zoomOutPaintVertexArray this in
  let start := StructArray.length zoomInArray in
  let zoomInArray := StructArray.reserve length zoomInArray in
  let zoomOutArray := StructArray.reserve length zoomOutArray in
  let min := Expression.evaluate (expression this) (zoom this - 1)%float feature None in
  let mid := Expression.evaluate (expression this) (zoom this) feature None in
  let max := Expression.evaluate (expression this) (zoom this + 1)%float feature None in
  match imagePositions with
  | Some imagePositions =>
      match image_member imagePositions min, image_member imagePositions mid,
            image_member imagePositions max with
      | Undefined, _, _ | _, Undefined, _ | _, _, Undefined =>
          Some (with_arrays this zoomInArray zoomOutArray)
      | Entry imageMin, Entry imageMid, Entry imageMax =>
          let '(zoomInArray, zoomOutArray) :=
            for_range start length
              (λ _ '(zoomInArray, zoomOutArray),
                 (StructArray.emplaceBack (pattern_element imageMid imageMin) zoomInArray,
                  StructArray.emplaceBack (pattern_element imageMid imageMax) zoomOutArray))
              (zoomInArray, zoomOutArray) in
          Some (with_arrays this zoomInArray zoomOutArray)
      | _, _, _ =>
          if start <? length then None
          else Some (with_arrays this zoomInArray zoomOutArray)
      end
  | None => Some (with_arrays this zoomInArray zoomOutArray)
  end.

(** [None] is a thrown exception: an inherited member among the three images
    passes the guard, and the first [emplace] throws at its [tl[0]]. *)
Definition updatePaintArray (start end_ : nat) (feature : Feature.t)
    (featureState : FeatureState) (imagePositions : ImagePositions) (this : t)
  : option t :=
  let zoomInArray := zoomInPaintVertexArray this in
  let zoomOutArray := zoomOutPaintVertexArray this in
  let min :=
    Expression.evaluate (expression this) (zoom this - 1)%float feature (Some featureState) in
  let mid := Expression.evaluate (expression this) (zoom this) feature (Some featureState) in
  let max :=
    Expression.evaluate (expression this) (zoom this + 1)%float feature (Some featureState) in
  match imagePositions with
  | Some imagePositions =>
      match image_member imagePositions min, image_member imagePositions mid,
            image_member imagePositions max with
      | Undefined, _, _ | _, Undefined, _ | _, _, Undefined => Some this
      | Entry imageMin, Entry imageMid, Entry imageMax =>
          let '(zoomInArray, zoomOutArray) :=
            for_range start end_
              (λ i '(zoomInArray, zoomOutArray),
                 (StructArray.emplace i (pattern_element imageMid imageMin) zoomInArray,
                  StructArray.emplace i (pattern_element imageMid imageMax) zoomOutArray))
              (zoomInArray, zoomOutArray) in
          Some (with_arrays this zoomInArray zoomOutArray)
      | _, _, _ => if start <? end_ then None else Some this
      end
  | None => Some this
  end.

Definition getVertexBuffer (crossfade : CrossfadeParameters) (this : t)
  : option VertexBuffer.t :=
  match zoomOutPaintVertexBuffer this, zoomInPaintVertexBuffer this with
  | Some zoomOut, Some zoomIn =>
      Some (if PrimFloat.eqb (fromScale crossfade) 2 then zoomIn else zoomOut)
  | _, _ => None
  end.

Definition upload (this : t) (ctx : Context.t) : t * Context.t :=
  let dynamicDraw := Expression.isStateDependent (expression this) in
  let '(zoomIn, ctx) :=
    Context.createVertexBuffer (zoomInPaintVertexArray this)
      (paintVertexAttributes this) dynamicDraw ctx in
  let '(zoomOut, ctx) :=
    Context.createVertexBuffer (zoomOutPaintVertexArray this)
      (paintVertexAttributes this) dynamicDraw ctx in
  (mk (expression this) (names this) (type this) (useIntegerZoom this) (zoom this)
      (statistics this) (zoomInPaintVertexArray this) (zoomOutPaintVertexArray this)
      (Some zoomIn) (Some zoomOut) (paintVertexAttributes this), ctx).

Definition destroy (this : t) (ctx : Context.t) : Context.t :=
  let ctx :=
    match zoomOutPaintVertexBuffer this with
    | Some buffer => Context.destroyBuffer buffer ctx
    | None => ctx
    end in
  match zoomInPaintVertexBuffer this with
  | Some buffer => Context.destroyBuffer buffer ctx
  | None => ctx
  end.
End CrossFadedCompositeBinder.

(** The five implementations of the [Binder] interface; [instanceof] is a
    match on the constructor. *)
Module Binder.
Inductive t :=
| Constant (b : ConstantBinder.t)
| CrossFadedConstant (b : CrossFadedConstantBinder.t)
| SourceExpression (b : SourceExpressionBinder.t)
| CompositeExpression (b : CompositeExpressionBinder.t)
| CrossFadedComposite (b : CrossFadedCompositeBinder.t).

Definition populatePaintArray (pack : Encoder) (length : nat) (feature : Feature.t)
    (imagePositions : ImagePositions) (this : t) : t :=
  match this with
  | Constant b => Constant (ConstantBinder.populatePaintArray b)
  | CrossFadedConstant b => CrossFadedConstant (CrossFadedConstantBinder.populatePaintArray b)
  | SourceExpression b =>
      SourceExpression (SourceExpressionBinder.populatePaintArray pack length feature b)
  | CompositeExpression b =>
      CompositeExpression (CompositeExpressionBinder.populatePaintArray pack length feature b)
  | CrossFadedComposite b =>
      CrossFadedComposite
        (CrossFadedCompositeBinder.populatePaintArray length feature imagePositions b)
  end.

(** [populatePaintArray] with the exception of the cross-faded binder. *)
Definition populatePaintArray_or_throw (pack : Encoder) (length : nat)
    (feature : Feature.t) (imagePositions : ImagePositions) (this : t) : option t :=
  match this with
  | CrossFadedComposite b =>
      CrossFadedComposite <$>
        CrossFadedCompositeBinder.populatePaintArray_or_throw length feature imagePositions b
  | _ => Some (populatePaintArray pack length feature imagePositions this)
  end.

Definition updatePaintArray (pack : Encoder) (start end_ : nat) (feature : Feature.t)
    (featureState : FeatureState) (imagePositions : ImagePositions) (this : t)
  : option t :=
  match this with
  | Constant b => Some (Constant (ConstantBinder.updatePaintArray b))
  | CrossFadedConstant b =>
      Some (CrossFadedConstant (CrossFadedConstantBinder.updatePaintArray b))
  | SourceExpression b =>
      Some (SourceExpression
              (SourceExpressionBinder.updatePaintArray pack start end_ feature featureState
                 b))
  | CompositeExpression b =>
      Some (CompositeExpression
              (CompositeExpressionBinder.updatePaintArray pack start end_ feature
                 featureState b))
  | CrossFadedComposite b =>
      CrossFadedComposite <$>
        CrossFadedCompositeBinder.updatePaintArray start end_ feature featureState
          imagePositions b
  end.

Definition upload (this : t) (ctx : Context.t) : t * Context.t :=
  match this with
  | Constant b => let '(b, ctx) := ConstantBinder.upload b ctx in (Constant b, ctx)
  | CrossFadedConstant b =>
      let '(b, ctx) := CrossFadedConstantBinder.upload b ctx in (CrossFadedConstant b, ctx)
  | SourceExpression b =>
      let '(b, ctx) := SourceExpressionBinder.upload b ctx in (SourceExpression b, ctx)
  | CompositeExpression b =>
      let '(b, ctx) := CompositeExpressionBinder.upload b ctx in (CompositeExpression b, ctx)
  | CrossFadedComposite b =>
      let '(b, ctx) := CrossFadedCompositeBinder.upload b ctx in (CrossFadedComposite b, ctx)
  end.

Definition destroy (this : t) (ctx : Context.t) : Context.t :=
  match this with
  | Constant b => ConstantBinder.destroy b ctx
  | CrossFadedConstant b => CrossFadedConstantBinder.destroy b ctx
  | SourceExpression b => SourceExpressionBinder.destroy b ctx
  | CompositeExpression b => CompositeExpressionBinder.destroy b ctx
  | CrossFadedComposite b => CrossFadedCompositeBinder.destroy b ctx
  end.

Definition defines (this : t) : list string :=
  match this with
  | Constant b => ConstantBinder.defines b
  | CrossFadedConstant b => CrossFadedConstantBinder.defines b
  | SourceExpression b => SourceExpressionBinder.defines b
  | CompositeExpression b => CompositeExpressionBinder.defines b
  | CrossFadedComposite b => CrossFadedCompositeBinder.defines b
  end.

Definition statistics (this : t) : Statistics.t :=
  match this with
  | Constant b => ConstantBinder.statistics b
  | CrossFadedConstant b => CrossFadedConstantBinder.statistics b
  | SourceExpression b => SourceExpressionBinder.statistics b
  | CompositeExpression b => CompositeExpressionBinder.statistics b
  | CrossFadedComposite b => CrossFadedCompositeBinder.statistics b
  end.

(** [binder.expression] of a binder that is neither a [ConstantBinder] nor a
    [CrossFadedConstantBinder]. *)
Definition expression (this : t) : option Expression.t :=
  match this with
  | Constant _ | CrossFadedConstant _ => None
  | SourceExpression b => Some (SourceExpressionBinder.expression b)
  | CompositeExpression b => Some (CompositeExpressionBinder.expression b)
  | CrossFadedComposite b => Some (CrossFadedCompositeBinder.expression b)
  end.

(** [binder.expression = e] *)
Definition set_expression (e : Expression.t) (this : t) : t :=
  match this with
  | Constant _ | CrossFadedConstant _ => this
  | SourceExpression b => SourceExpression (SourceExpressionBinder.with_expression b e)
  | CompositeExpression b =>
      CompositeExpression (CompositeExpressionBinder.with_expression b e)
  | CrossFadedComposite b =>
      CrossFadedComposite (CrossFadedCompositeBinder.with_expression b e)
  end.

(** The paint arrays a binder owns: none, one, or the zoom-in and the
    zoom-out array. *)
Definition paintArrays (this : t) : list StructArray.t :=
  match this with
  | Constant _ | CrossFadedConstant _ => []
  | SourceExpression b => [SourceExpressionBinder.paintVertexArray b]
  | CompositeExpression b => [CompositeExpressionBinder.paintVertexArray b]
  | CrossFadedComposite b =>
      [CrossFadedCompositeBinder.zoomInPaintVertexArray b;
       CrossFadedCompositeBinder.zoomOutPaintVertexArray b]
  end.
End Binder.

(** ** Attribute names and layouts *)

(** [s.replace(pattern, '')] with a string pattern: the first occurrence goes. *)
Fixpoint remove_first (pattern s : string) : string :=
  if String.prefix pattern s then String.substring (String.length pattern)
                                    (String.length s - String.length pattern) s
  else match s with
       | EmptyString => EmptyString
       | String c s' => String c (remove_first pattern s')
       end.

(** [s.replace(/-/g, '_')] *)
Fixpoint dashes_to_underscores (s : string) : string :=
  match s with
  | EmptyString => EmptyString
  | String c s' =>
      String (if Ascii.eqb c "-"%char then "_"%char else c) (dashes_to_underscores s')
  end.

Definition attributeNameExceptions : list (string * list string) :=
  [ ("text-opacity", ["opacity"]);
    ("icon-opacity", ["opacity"]);
    ("text-color", ["fill_color"]);
    ("icon-color", ["fill_color"]);
    ("text-halo-color", ["halo_color"]);
    ("icon-halo-color", ["halo_color"]);
    ("text-halo-blur", ["halo_blur"]);
    ("icon-halo-blur", ["halo_blur"]);
    ("text-halo-width", ["halo_width"]);
    ("icon-halo-width", ["halo_width"]);
    ("line-gap-width", ["gapwidth"]);
    ("line-pattern", ["pattern_to"; "pattern_from"]);
    ("fill-pattern", ["pattern_to"; "pattern_from"]) ].

(** [object[key]] of an object given by its entries in enumeration order. *)
Fixpoint object_get {A : Type} (key : string) (object : list (string * A)) : option A :=
  match object with
  | [] => None
  | (k, v) :: object' => if String.eqb k key then Some v else object_get key object'
  end.

(** [object[key] = v]: an existing key keeps its place, a new one goes last. *)
Fixpoint object_set {A : Type} (key : string) (v : A) (object : list (string * A))
  : list (string * A) :=
  match object with
  | [] => [(key, v)]
  | (k, w) :: object' =>
      if String.eqb k key then (k, v) :: object' else (k, w) :: object_set key v object'
  end.

(** For the property names of the style specification, which all have a
    hyphen: the table has entries only, and finds no inherited member. *)
Definition paintAttributeName (property type : string) : list string :=
  match object_get property attributeNameExceptions with
  | Some names => names
  | None => [dashes_to_underscores (remove_first (type +:+ "-") property)]
  end.

(** The two binder types [layoutType] is called with. *)
Inductive BinderType := source_binder | composite_binder.

Definition getLayoutException (property : string)
  : option (BinderType → StructArray.Layout) :=
  if String.eqb property "line-pattern" then Some (λ _, StructArray.PatternLayoutArray)
  else if String.eqb property "fill-pattern" then Some (λ _, StructArray.PatternLayoutArray)
  else None.

(** [defaultLayouts[type]] is undefined for a type other than ['color'] and
    ['number'], and the lookup in it throws. *)
Definition layoutType (property type : string) (binderType : BinderType)
  : option StructArray.Layout :=
  match getLayoutException property with
  | Some layoutException => Some (layoutException binderType)
  | None =>
      if String.eqb type "color" then
        Some match binderType with
             | source_binder => StructArray.StructArrayLayout2f8
             | composite_binder => StructArray.StructArrayLayout4f16
             end
      else if String.eqb type "number" then
        Some match binderType with
             | source_binder => StructArray.StructArrayLayout1f4
             | composite_binder => StructArray.StructArrayLayout2f8
             end
      else None
  end.

(** ** Style layers *)

(** [value.property]: the specification's [type], whether
    [supportsPropertyExpression(specification)] holds, [useIntegerZoom] and
    the [binder] mode. *)
Module Property.
Record t := mk {
  specification_type : string;
  supportsPropertyExpression : bool;
  useIntegerZoom : bool;
  binder : string
}.
End Property.

(** [value.value], by its [kind]. *)
Inductive PossiblyEvaluatedValue :=
| constant (value : Value)
| source (expression : Expression.t)
| composite (expression : Expression.t).

(** What [layer.paint.get(property)] returns: an instance of
    [PossiblyEvaluatedPropertyValue] or some other value. *)
Inductive PaintValue :=
| OtherValue (v : Value)
| PossiblyEvaluatedPropertyValue (property : Property.t) (value : PossiblyEvaluatedValue).

(** A style layer: its [type] and the entries of [layer.paint._values] in
    enumeration order, each with the value [layer.paint.get] gives for it. *)
Module Layer.
Record t := mk { type : string; paint : list (string * PaintValue) }.

(** [layer.paint.get(property).value] where a binder takes it for its
    expression; evaluating anything but an expression throws. *)
Definition paint_expression (property : string) (layer : t) : option Expression.t :=
  match object_get property (paint layer) with
  | Some (PossiblyEvaluatedPropertyValue _ (source e)) => Some e
  | Some (PossiblyEvaluatedPropertyValue _ (composite e)) => Some e
  | _ => None
  end.
End Layer.

(** ** ProgramConfiguration *)

(** A record of the feature-id map; [end_] is the source's [end]. *)
Record PaintRange := { index : nat; start : nat; end_ : nat }.

(** [keys.sort().join('')]: the default sort orders strings by their code
    units. *)
Definition sort_keys (keys : list string) : list string := merge_sort String.le keys.

Definition join (keys : list string) : string := foldr String.append "" keys.

Module ProgramConfiguration.
Record t := mk {
  binders : list (string * Binder.t);
  cacheKey : string;
  _buffers : list VertexBuffer.t;
  _idMap : gmap string (list PaintRange);
  _bufferOffset : nat
}.

Definition new : t := mk [] "" [] ∅ 0.

(** The loop of [createDynamic] over the paint values, with [self.binders]
    and [keys] as its state. *)
Fixpoint createDynamic_loop (layer_type : string) (zoom : float)
    (filterProperties : string → bool) (values : list (string * PaintValue))
    (binders : list (string * Binder.t)) (keys : list string)
  : option (list (string * Binder.t) * list string) :=
  match values with
  | [] => Some (binders, keys)
  | (property, value) :: values =>
      let continue := createDynamic_loop layer_type zoom filterProperties values in
      if negb (filterProperties property) then continue binders keys
      else match value with
      | OtherValue _ => continue binders keys
      | PossiblyEvaluatedPropertyValue prop value =>
          if negb (Property.supportsPropertyExpression prop) then continue binders keys
          else
            let names := paintAttributeName property layer_type in
            let type := Property.specification_type prop in
            let useIntegerZoom := Property.useIntegerZoom prop in
            if String.eqb (Property.binder prop) "cross-faded" then
              match value with
              | constant v =>
                  continue
                    (object_set property
                       (Binder.CrossFadedConstant (CrossFadedConstantBinder.new v names type))
                       binders)
                    (keys ++ ["/u_" +:+ property])
              | source e | composite e =>
                  StructArrayLayout ← layoutType property type source_binder;
                  continue
                    (object_set property
                       (Binder.CrossFadedComposite
                          (CrossFadedCompositeBinder.new e names type useIntegerZoom zoom
                             StructArrayLayout))
                       binders)
                    (keys ++ ["/a_" +:+ property])
              end
            else
              match value with
              | constant v =>
                  continue
                    (object_set property
                       (Binder.Constant (ConstantBinder.new v names type)) binders)
                    (keys ++ ["/u_" +:+ property])
              | source e =>
                  StructArrayLayout ← layoutType property type source_binder;
                  continue
                    (object_set property
                       (Binder.SourceExpression
                          (SourceExpressionBinder.new e names type StructArrayLayout))
                       binders)
                    (keys ++ ["/a_" +:+ property])
              | composite e =>
                  StructArrayLayout ← layoutType property type composite_binder;
                  continue
                    (object_set property
                       (Binder.CompositeExpression
                          (CompositeExpressionBinder.new e names type useIntegerZoom zoom
                             StructArrayLayout))
                       binders)
                    (keys ++ ["/z_" +:+ property])
              end
      end
  end.

Definition createDynamic (layer : Layer.t) (zoom : float)
    (filterProperties : string → bool) : option t :=
  '(binders, keys) ←
    createDynamic_loop (Layer.type layer) zoom filterProperties (Layer.paint layer) [] [];
  Some (mk binders (join (sort_keys keys)) [] ∅ 0).

(** The configuration a [populatePaintArrays] call leaves when it returns. *)
Definition populatePaintArrays (pack : Encoder) (newLength : nat) (feature : Feature.t)
    (index : nat) (imagePositions : ImagePositions) (this : t) : t :=
  let binders :=
    (λ '(property, binder),
       (property,
        match binder with
        | Binder.CrossFadedComposite _ =>
            Binder.populatePaintArray pack newLength feature imagePositions binder
        | _ => Binder.populatePaintArray pack newLength feature (Some ∅) binder
        end)) <$> binders this in
  let idMap :=
    match Feature.id feature with
    | Some id =>
        if truthy id then
          let featureId := String_of id in
          <[featureId :=
              default [] (_idMap this !! featureId)
                ++ [{| index := index; start := _bufferOffset this; end_ := newLength |}]]>
            (_idMap this)
        else _idMap this
    | None => _idMap this
    end in
  mk binders (cacheKey this) (_buffers this) idMap newLength.



(** The body of the innermost loop of [updatePaintArrays] for one binder:
    the binder and whether it set [dirty]. *)
Definition update_binder (pack : Encoder) (layer : Layer.t) (pos : PaintRange)
    (feature : Feature.t) (featureState : FeatureState)
    (imagePositions : ImagePositions) (property : string) (binder : Binder.t)
  : option (Binder.t * bool) :=
  match Binder.expression binder with
  | None => Some (binder, false)
  | Some expression =>
      if Expression.isStateDependent expression then
        value ← Layer.paint_expression property layer;
        binder ←
          Binder.updatePaintArray pack (start pos) (end_ pos) feature featureState
            imagePositions (Binder.set_expression value binder);
        Some (binder, true)
      else Some (binder, false)
  end.

(** [for (const property in this.binders)] *)
Fixpoint update_binders (pack : Encoder) (layer : Layer.t) (pos : PaintRange)
    (feature : Feature.t) (featureState : FeatureState)
    (imagePositions : ImagePositions) (binders : list (string * Binder.t))
    (dirty : bool) : option (list (string * Binder.t) * bool) :=
  match binders with
  | [] => Some ([], dirty)
  | (property, binder) :: binders =>
      '(binder, touched) ←
        update_binder pack layer pos feature featureState imagePositions property binder;
      '(binders, dirty) ←
        update_binders pack layer pos feature featureState imagePositions binders
          (touched || dirty);
      Some ((property, binder) :: binders, dirty)
  end.

(** [for (const pos of posArray)] *)
Fixpoint update_positions (pack : Encoder) (vtLayer : nat → Feature.t) (layer : Layer.t)
    (featureState : FeatureState) (imagePositions : ImagePositions)
    (posArray : list PaintRange) (binders : list (string * Binder.t)) (dirty : bool)
  : option (list (string * Binder.t) * bool) :=
  match posArray with
  | [] => Some (binders, dirty)
  | pos :: posArray =>
      let feature := vtLayer (index pos) in
      '(binders, dirty) ←
        update_binders pack layer pos feature featureState imagePositions binders dirty;
      update_positions pack vtLayer layer featureState imagePositions posArray binders dirty
  end.

(** [for (const id in featureStates)]. An id without entry in [_idMap] that
    every object inherits gives a truthy [posArray] that is not iterable, and
    [for (const pos of posArray)] throws. *)
Fixpoint update_states (pack : Encoder) (idMap : gmap string (list PaintRange))
    (vtLayer : nat → Feature.t) (layer : Layer.t) (imagePositions : ImagePositions)
    (featureStates : list (string * FeatureState)) (binders : list (string * Binder.t))
    (dirty : bool) : option (list (string * Binder.t) * bool) :=
  match featureStates with
  | [] => Some (binders, dirty)
  | (id, featureState) :: featureStates =>
      match member id idMap with
      | Undefined =>
          update_states pack idMap vtLayer layer imagePositions featureStates binders dirty
      | Inherited => None
      | Entry posArray =>
          '(binders, dirty) ←
            update_positions pack vtLayer layer featureState imagePositions posArray
              binders dirty;
          update_states pack idMap vtLayer layer imagePositions featureStates binders dirty
      end
  end.

Definition updatePaintArrays (pack : Encoder) (featureStates : list (string * FeatureState))
    (vtLayer : nat → Feature.t) (layer : Layer.t) (imagePositions : ImagePositions)
    (this : t) : option (t * bool) :=
  '(binders, dirty) ←
    update_states pack (_idMap this) vtLayer layer imagePositions featureStates
      (binders this) false;
  Some (mk binders (cacheKey this) (_buffers this) (_idMap this) (_bufferOffset this),
        dirty).

Definition defines (this : t) : list string :=
  concat ((λ '(_, binder), Binder.defines binder) <$> binders this).

Definition getPaintVertexBuffers (this : t) : list VertexBuffer.t := _buffers this.

(** The buffer list [upload] rebuilds. *)
Definition resident_buffers (binders : list (string * Binder.t)) : list VertexBuffer.t :=
  omap (λ '(_, binder),
          match binder with
          | Binder.SourceExpression b => SourceExpressionBinder.paintVertexBuffer b
          | Binder.CompositeExpression b => CompositeExpressionBinder.paintVertexBuffer b
          | _ => None
          end) binders.

Definition updatePatternPaintBuffers (crossfade : CrossfadeParameters) (this : t) : t :=
  let buffers :=
    omap (λ '(_, binder),
            match binder with
            | Binder.CrossFadedComposite b =>
                CrossFadedCompositeBinder.getVertexBuffer crossfade b
            | Binder.SourceExpression b => SourceExpressionBinder.paintVertexBuffer b
            | Binder.CompositeExpression b => CompositeExpressionBinder.paintVertexBuffer b
            | _ => None
            end) (binders this) in
  mk (binders this) (cacheKey this) buffers (_idMap this) (_bufferOffset this).

Fixpoint upload_binders (binders : list (string * Binder.t)) (ctx : Context.t)
  : list (string * Binder.t) * Context.t :=
  match binders with
  | [] => ([], ctx)
  | (property, binder) :: binders =>
      let '(binder, ctx) := Binder.upload binder ctx in
      let '(binders, ctx) := upload_binders binders ctx in
      ((property, binder) :: binders, ctx)
  end.

Definition upload (this : t) (ctx : Context.t) : t * Context.t :=
  let '(binders, ctx) := upload_binders (binders this) ctx in
  (mk binders (cacheKey this) (resident_buffers binders) (_idMap this)
      (_bufferOffset this), ctx).

Definition destroy (this : t) (ctx : Context.t) : Context.t :=
  foldl (λ ctx '(_, binder), Binder.destroy binder ctx) ctx (binders this).
End ProgramConfiguration.

(** ** Observations used in the statements *)

(** The image position a cross-faded binder resolves for [feature] at [zoom]:
    [imagePositions[this.expression.evaluate({zoom}, feature, featureState)]]. *)
Definition resolved_image (this : CrossFadedCompositeBinder.t) (feature : Feature.t)
    (featureState : option FeatureState) (imagePositions : ImagePositions)
    (zoom : float) : option ImagePosition.t :=
  imagePositions ≫=
    (λ positions,
       image_at positions
         (Expression.evaluate (CrossFadedCompositeBinder.expression this) zoom feature
            featureState)).

(** What [imagePositions[name]] gives for the name the binder resolves for
    [feature] at [zoom]; no lookup is made in a missing [imagePositions]. *)
Definition resolved_member (this : CrossFadedCompositeBinder.t) (feature : Feature.t)
    (featureState : option FeatureState) (imagePositions : ImagePositions)
    (zoom : float) : Member ImagePosition.t :=
  match imagePositions with
  | Some positions =>
      image_member positions
        (Expression.evaluate (CrossFadedCompositeBinder.expression this) zoom feature
           featureState)
  | None => Undefined
  end.

(** Whether [updatePaintArrays] takes a binder for state-dependent. *)
Definition state_dependent (binder : Binder.t) : bool :=
  match Binder.expression binder with
  | Some expression => Expression.isStateDependent expression
  | None => false
  end.

(** The realized buffers a binder holds. *)
Definition held_buffers (binder : Binder.t) : list VertexBuffer.t :=
  match binder with
  | Binder.Constant _ | Binder.CrossFadedConstant _ => []
  | Binder.SourceExpression b =>
      option_list (SourceExpressionBinder.paintVertexBuffer b)
  | Binder.CompositeExpression b =>
      option_list (CompositeExpressionBinder.paintVertexBuffer b)
  | Binder.CrossFadedComposite b =>
      option_list (CrossFadedCompositeBinder.zoomOutPaintVertexBuffer b)
        ++ option_list (CrossFadedCompositeBinder.zoomInPaintVertexBuffer b)
  end.

(** The arguments of one [populatePaintArrays] call, and a sequence of calls
    on one configuration. *)
Record PopulateCall := {
  call_newLength : nat;
  call_feature : Feature.t;
  call_index : nat;
  call_imagePositions : ImagePositions
}.

Definition populate (pack : Encoder) (call : PopulateCall) (this : ProgramConfiguration.t)
  : ProgramConfiguration.t :=
  ProgramConfiguration.populatePaintArrays pack (call_newLength call) (call_feature call)
    (call_index call) (call_imagePositions call) this.

Definition populate_all (pack : Encoder) (calls : list PopulateCall)
    (this : ProgramConfiguration.t) : ProgramConfiguration.t :=
  foldl (λ this call, populate pack call this) this calls.



(** Index [i] lies in a slice recorded for an id that [featureStates] names. *)
Definition in_recorded_slice (idMap : gmap string (list PaintRange))
    (featureStates : list (string * FeatureState)) (i : nat) : Prop :=
  ∃ id featureState posArray pos,
    (id, featureState) ∈ featureStates ∧ idMap !! id = Some posArray ∧ pos ∈ posArray ∧
    start pos ≤ i < end_ pos.

(** Some id of [featureStates] has a record in the feature-id map. *)
Definition some_id_recorded (idMap : gmap string (list PaintRange))
    (featureStates : list (string * FeatureState)) : bool :=
  existsb (λ '(id, _), match idMap !! id with
                       | Some (_ :: _) => true
                       | _ => false
                       end) featureStates.

(** Array [after] differs from [before] at most at the indices in [slice]. *)
Definition array_frame (slice : nat → Prop) (before after : StructArray.t) : Prop :=
  StructArray.layout after = StructArray.layout before ∧
  StructArray.length after = StructArray.length before ∧
  ∀ i, ¬ slice i → StructArray.get i after = StructArray.get i before.

(** What an update may do to a binder: nothing, or, to a state-dependent one,
    rewrite its paint arrays inside [slice]. *)
Definition binder_frame (slice : nat → Prop) (before after : Binder.t) : Prop :=
  after = before ∨
  (state_dependent before = true ∧
   Forall2 (array_frame slice) (Binder.paintArrays before) (Binder.paintArrays after)).

(** The elements of an array after [emplace(j, v)] at every [j] of
    [[i, i + count)]. *)
Fixpoint overwrite (count i : nat) (v : list float) (l : list (list float))
  : list (list float) :=
  match count with
  | O => l
  | S count => overwrite count (S i) v (<[i := v]> l)
  end.

(** What [createDynamic] pushes to [keys] for one paint value: nothing for a
    value it skips, one fragment for a value it binds, and [None] where the
    layout lookup throws. *)
Definition key_fragment (filterProperties : string → bool)
    (entry : string * PaintValue) : option (list string) :=
  let '(property, value) := entry in
  if negb (filterProperties property) then Some []
  else match value with
  | OtherValue _ => Some []
  | PossiblyEvaluatedPropertyValue prop value =>
      if negb (Property.supportsPropertyExpression prop) then Some []
      else
        let type := Property.specification_type prop in
        if String.eqb (Property.binder prop) "cross-faded" then
          match value with
          | constant _ => Some ["/u_" +:+ property]
          | source _ | composite _ =>
              _ ← layoutType property type source_binder; Some ["/a_" +:+ property]
          end
        else
          match value with
          | constant _ => Some ["/u_" +:+ property]
          | source _ =>
              _ ← layoutType property type source_binder; Some ["/a_" +:+ property]
          | composite _ =>
              _ ← layoutType property type composite_binder; Some ["/z_" +:+ property]
          end
  end.

Fixpoint key_fragments (filterProperties : string → bool)
    (values : list (string * PaintValue)) : option (list string) :=
  match values with
  | [] => Some []
  | entry :: values =>
      match key_fragment filterProperties entry, key_fragments filterProperties values with
      | Some fragment, Some fragments => Some (fragment ++ fragments)
      | _, _ => None
      end
  end.

(** Every paint array of [binder] has at most [n] elements, and the two arrays
    of a cross-faded binder are equally long. *)
Definition arrays_within (n : nat) (binder : Binder.t) : Prop :=
  Forall (λ arr, StructArray.length arr ≤ n) (Binder.paintArrays binder) ∧
  match binder with
  | Binder.CrossFadedComposite b =>
      StructArray.length (CrossFadedCompositeBinder.zoomInPaintVertexArray b)
      = StructArray.length (CrossFadedCompositeBinder.zoomOutPaintVertexArray b)
  | _ => True
  end.

(** The paint arrays of [binder] have the length the call [last] asked for;
    for a cross-faded binder, provided the images of that call were there. *)
Definition arrays_filled (last : PopulateCall) (binder : Binder.t) : Prop :=
  match binder with
  | Binder.Constant _ | Binder.CrossFadedConstant _ => Binder.paintArrays binder = []
  | Binder.SourceExpression b =>
      StructArray.length (SourceExpressionBinder.paintVertexArray b) = call_newLength last
  | Binder.CompositeExpression b =>
      StructArray.length (CompositeExpressionBinder.paintVertexArray b)
      = call_newLength last
  | Binder.CrossFadedComposite b =>
      let image := resolved_image b (call_feature last) None (call_imagePositions last) in
      let zoom := CrossFadedCompositeBinder.zoom b in
      is_Some (image (zoom - 1)%float) → is_Some (image zoom) →
      is_Some (image (zoom + 1)%float) →
      StructArray.length (CrossFadedCompositeBinder.zoomInPaintVertexArray b)
      = call_newLength last ∧
      StructArray.length (CrossFadedCompositeBinder.zoomOutPaintVertexArray b)
      = call_newLength last
  end.

(** Every record of the feature-id map is a slice that ends at or before the
    buffer offset. *)
Definition records_within_offset (this : ProgramConfiguration.t) : Prop :=
  ∀ id posArray pos,
    ProgramConfiguration._idMap this !! id = Some posArray → pos ∈ posArray →
    start pos ≤ end_ pos ∧ end_ pos ≤ ProgramConfiguration._bufferOffset this.

(** Some binder is state-dependent. *)
Definition any_state_dependent (binders : list (string * Binder.t)) : bool :=
  existsb (λ '(_, binder), state_dependent binder) binders.

(** [binder_frame] for the binders of a configuration, property by property. *)
Definition binders_frame (slice : nat → Prop) (before after : list (string * Binder.t))
  : Prop :=
  Forall2 (λ x y, x.1 = y.1 ∧ binder_frame slice x.2 y.2) before after.

(** ** Example values *)

Module Examples.

(** Modelled from the spec: the interpolation factor of a linear numeric
    expression (the expression evaluator is not among the sources): the
    fraction of the way from [lower] to [upper] at which [input] lies. *)
Definition linear_interpolationFactor (input lower upper : float) : float :=
  ((input - lower) / (upper - lower))%float.

(** The feature value function [f(z) = z] of the specification's scenario. *)
Definition linear : Expression.t :=
  Expression.mk (λ zoom _ _, VNumber zoom) true linear_interpolationFactor.

(** A pattern expression that names image ["a"] at every zoom. *)
Definition pattern_a : Expression.t :=
  Expression.mk (λ _ _ _, VString "a") true (λ _ _ _, 0%float).

Definition pack : Encoder := λ x y, (256 * x + y)%float.

Definition image (x : float) : ImagePosition.t :=
  ImagePosition.mk (x, x) ((x + 16)%float, (x + 16)%float) 1%float.

Definition atlas : gmap string ImagePosition.t := {[ "a" := image 0%float ]}.

Definition number_property : Property.t := Property.mk "number" true false "data-driven".
Definition color_property : Property.t := Property.mk "color" true false "data-driven".
Definition pattern_property : Property.t := Property.mk "string" true false "cross-faded".

Definition fill_layer : Layer.t :=
  Layer.mk "fill"
    [ ("fill-opacity", PossiblyEvaluatedPropertyValue number_property (source linear));
      ("fill-color", PossiblyEvaluatedPropertyValue color_property
                       (constant (VColor (Color.mk 1 0 0 1))));
      ("fill-pattern", PossiblyEvaluatedPropertyValue pattern_property
                         (composite pattern_a)) ].

Definition fill_layer_reordered : Layer.t :=
  Layer.mk "fill"
    [ ("fill-pattern", PossiblyEvaluatedPropertyValue pattern_property
                         (composite pattern_a));
      ("fill-opacity", PossiblyEvaluatedPropertyValue number_property (source linear));
      ("fill-color", PossiblyEvaluatedPropertyValue color_property
                       (constant (VColor (Color.mk 1 0 0 1)))) ].

Definition feature_with (id : option FeatureId) : Feature.t := Feature.mk id [].

Definition call (newLength : nat) (id : option FeatureId) (index : nat)
    (imagePositions : ImagePositions) : PopulateCall :=
  {| call_newLength := newLength; call_feature := feature_with id;
     call_index := index; call_imagePositions := imagePositions |}.

Definition source_binder : SourceExpressionBinder.t :=
  SourceExpressionBinder.new linear ["opacity"] "number" StructArray.StructArrayLayout1f4.

Definition composite_binder : CompositeExpressionBinder.t :=
  CompositeExpressionBinder.new linear ["opacity"] "number" false 5%float
    StructArray.StructArrayLayout2f8.

Definition pattern_binder : CrossFadedCompositeBinder.t :=
  CrossFadedCompositeBinder.new pattern_a ["pattern_to"; "pattern_from"] "string" false
    5%float StructArray.PatternLayoutArray.

(** A configuration with one binder of each data-driven kind. *)
Definition configuration : ProgramConfiguration.t :=
  ProgramConfiguration.mk
    [ ("fill-opacity", Binder.SourceExpression source_binder);
      ("fill-pattern", Binder.CrossFadedComposite pattern_binder) ]
    "/a_fill-opacity/a_fill-pattern" [] ∅ 0.

Definition vtLayer (i : nat) : Feature.t :=
  feature_with (Some (IdNumber (Z.of_nat (Datatypes.S i)))).

(** The configuration [createDynamic] builds for [fill_layer] at zoom 5. *)
Definition fill_configuration : ProgramConfiguration.t :=
  default ProgramConfiguration.new
    (ProgramConfiguration.createDynamic fill_layer 5%float (λ _, true)).

(** The source binder of [fill_configuration] after a feature of two
    vertices and a feature of two more. *)
Definition filled_source : SourceExpressionBinder.t :=
  SourceExpressionBinder.populatePaintArray pack 4 (feature_with (Some (IdString "b")))
    (SourceExpressionBinder.populatePaintArray pack 2 (feature_with (Some (IdNumber 7)))
       source_binder).

(** The pattern binder of [fill_configuration] after the same two features,
    populated with [atlas]. *)
Definition filled_pattern : CrossFadedCompositeBinder.t :=
  CrossFadedCompositeBinder.populatePaintArray 4 (feature_with (Some (IdString "b")))
    (Some atlas)
    (CrossFadedCompositeBinder.populatePaintArray 2 (feature_with (Some (IdNumber 7)))
       (Some atlas) pattern_binder).

(** [configuration] after two features: two vertices for the feature with
    id 7, then two more for the feature with id ["b"]. *)
Definition populated : ProgramConfiguration.t :=
  populate_all pack
    [ call 2 (Some (IdNumber 7)) 0 (Some atlas);
      call 4 (Some (IdString "b")) 1 (Some atlas) ]
    configuration.

(** An opacity that is 1 for a feature with some state and 0 without. *)
Definition hover : Expression.t :=
  Expression.mk
    (λ _ _ featureState,
       match featureState with
       | Some (_ :: _) => VNumber 1
       | _ => VNumber 0
       end)
    true linear_interpolationFactor.

Definition hover_layer : Layer.t :=
  Layer.mk "fill"
    [ ("fill-opacity", PossiblyEvaluatedPropertyValue number_property (source hover));
      ("fill-color", PossiblyEvaluatedPropertyValue color_property
                       (constant (VColor (Color.mk 1 0 0 1)))) ].

(** The configuration of [hover_layer] after two features of two vertices. *)
Definition hover_populated : ProgramConfiguration.t :=
  populate_all pack
    [ call 2 (Some (IdNumber 7)) 0 (Some atlas);
      call 4 (Some (IdString "b")) 1 (Some atlas) ]
    (default ProgramConfiguration.new
       (ProgramConfiguration.createDynamic hover_layer 5%float (λ _, true))).


End Examples.

(** ** ProgramConfigurationSet *)

(** A style layer as the constructor and [updatePaintArrays] of the set take
    it: its [id] beside the type and paint values of [Layer.t]. *)
Module StyleLayer.
Record t := mk { id : string; layer : Layer.t }.
End StyleLayer.

(** The configurations of the layers of one bucket, keyed by layer id. The
    entries are in enumeration order; every statement below is about lookups
    by id or about all entries alike. The constructor gives every member the
    same [layoutAttributes], kept once here. *)
Module ProgramConfigurationSet.
Record t := mk {
  programConfigurations : list (string * ProgramConfiguration.t);
  layoutAttributes : list StructArrayMember;
  needsUpload : bool
}.

(** [for (const layer of layers)] of the constructor. *)
Fixpoint new_loop (layers : list StyleLayer.t) (zoom : float)
    (filterProperties : string → bool)
    (programConfigurations : list (string * ProgramConfiguration.t))
  : option (list (string * ProgramConfiguration.t)) :=
  match layers with
  | [] => Some programConfigurations
  | layer :: layers =>
      configuration ← ProgramConfiguration.createDynamic (StyleLayer.layer layer) zoom
                        filterProperties;
      new_loop layers zoom filterProperties
        (object_set (StyleLayer.id layer) configuration programConfigurations)
  end.

Definition new (layoutAttributes : list StructArrayMember) (layers : list StyleLayer.t)
    (zoom : float) (filterProperties : string → bool) : option t :=
  programConfigurations ← new_loop layers zoom filterProperties [];
  Some (mk programConfigurations layoutAttributes false).

Definition populatePaintArrays (pack : Encoder) (length : nat) (feature : Feature.t)
    (index : nat) (imagePositions : ImagePositions) (this : t) : t :=
  mk ((λ '(key, configuration),
         (key, ProgramConfiguration.populatePaintArrays pack length feature index
                 imagePositions configuration))
        <$> programConfigurations this)
     (layoutAttributes this) true.

(** [for (const layer of layers)] of [updatePaintArrays]; a layer whose id has
    no configuration makes the method call on [undefined] throw. *)
Fixpoint updatePaintArrays_loop (pack : Encoder)
    (featureStates : list (string * FeatureState)) (vtLayer : nat → Feature.t)
    (layers : list StyleLayer.t) (imagePositions : ImagePositions)
    (programConfigurations : list (string * ProgramConfiguration.t)) (needsUpload : bool)
  : option (list (string * ProgramConfiguration.t) * bool) :=
  match layers with
  | [] => Some (programConfigurations, needsUpload)
  | layer :: layers =>
      configuration ← object_get (StyleLayer.id layer) programConfigurations;
      '(configuration, dirty) ←
        ProgramConfiguration.updatePaintArrays pack featureStates vtLayer
          (StyleLayer.layer layer) imagePositions configuration;
      updatePaintArrays_loop pack featureStates vtLayer layers imagePositions
        (object_set (StyleLayer.id layer) configuration programConfigurations)
        (dirty || needsUpload)
  end.

Definition updatePaintArrays (pack : Encoder) (featureStates : list (string * FeatureState))
    (vtLayer : nat → Feature.t) (layers : list StyleLayer.t)
    (imagePositions : ImagePositions) (this : t) : option t :=
  '(programConfigurations, needsUpload) ←
    updatePaintArrays_loop pack featureStates vtLayer layers imagePositions
      (programConfigurations this) (needsUpload this);
  Some (mk programConfigurations (layoutAttributes this) needsUpload).

(** [this.programConfigurations[layerId]] for an id that a layer of the set
    has or that no object inherits. *)
Definition get (layerId : string) (this : t) : option ProgramConfiguration.t :=
  object_get layerId (programConfigurations this).

Fixpoint upload_all (programConfigurations : list (string * ProgramConfiguration.t))
    (ctx : Context.t) : list (string * ProgramConfiguration.t) * Context.t :=
  match programConfigurations with
  | [] => ([], ctx)
  | (layerId, configuration) :: programConfigurations =>
      let '(configuration, ctx) := ProgramConfiguration.upload configuration ctx in
      let '(programConfigurations, ctx) := upload_all programConfigurations ctx in
      ((layerId, configuration) :: programConfigurations, ctx)
  end.

Definition upload (this : t) (ctx : Context.t) : t * Context.t :=
  if negb (needsUpload this) then (this, ctx)
  else
    let '(programConfigurations, ctx) := upload_all (programConfigurations this) ctx in
    (mk programConfigurations (layoutAttributes this) false, ctx).

Definition destroy (this : t) (ctx : Context.t) : Context.t :=
  foldl (λ ctx '(_, configuration), ProgramConfiguration.destroy configuration ctx) ctx
    (programConfigurations this).
End ProgramConfigurationSet.

(** ** Further observations *)

(** Whether a name has a hyphen. *)
Fixpoint has_dash (s : string) : bool :=
  match s with
  | EmptyString => false
  | String c s' => Ascii.eqb c "-"%char || has_dash s'
  end.

(** The fragment of the cache key that stands for a binder: [/u_] for the two
    constant binders, [/z_] for a composite one, [/a_] for the other two. *)
Definition binder_key (entry : string * Binder.t) : string :=
  match entry.2 with
  | Binder.Constant _ | Binder.CrossFadedConstant _ => "/u_" +:+ entry.1
  | Binder.CompositeExpression _ => "/z_" +:+ entry.1
  | Binder.SourceExpression _ | Binder.CrossFadedComposite _ => "/a_" +:+ entry.1
  end.

(** Whether [createDynamic] binds a paint value. *)
Definition is_bound (filterProperties : string → bool) (entry : string * PaintValue)
  : bool :=
  filterProperties entry.1 &&
  match entry.2 with
  | OtherValue _ => false
  | PossiblyEvaluatedPropertyValue prop _ => Property.supportsPropertyExpression prop
  end.

(** The element a source binder writes for a feature. *)
Definition source_element (pack : Encoder) (this : SourceExpressionBinder.t)
    (feature : Feature.t) (featureState : option FeatureState) : list float :=
  let value :=
    Expression.evaluate (SourceExpressionBinder.expression this) 0%float feature
      featureState in
  if is_color (SourceExpressionBinder.type this)
  then [(packColor pack value).1; (packColor pack value).2]
  else [ToNumber value].

(** The element a composite binder writes for a feature. *)
Definition composite_element (pack : Encoder) (this : CompositeExpressionBinder.t)
    (feature : Feature.t) (featureState : option FeatureState) : list float :=
  let zoom := CompositeExpressionBinder.zoom this in
  let min :=
    Expression.evaluate (CompositeExpressionBinder.expression this) zoom feature
      featureState in
  let max :=
    Expression.evaluate (CompositeExpressionBinder.expression this) (zoom + 1)%float
      feature featureState in
  if is_color (CompositeExpressionBinder.type this)
  then [(packColor pack min).1; (packColor pack min).2;
        (packColor pack max).1; (packColor pack max).2]
  else [ToNumber min; ToNumber max].

(** The source and composite arrays of [binder] have exactly [n] elements, and
    the two arrays of a cross-faded binder equally many and at most [n]. *)
Definition arrays_track (n : nat) (binder : Binder.t) : Prop :=
  match binder with
  | Binder.Constant _ | Binder.CrossFadedConstant _ => True
  | Binder.SourceExpression b =>
      StructArray.length (SourceExpressionBinder.paintVertexArray b) = n
  | Binder.CompositeExpression b =>
      StructArray.length (CompositeExpressionBinder.paintVertexArray b) = n
  | Binder.CrossFadedComposite b =>
      StructArray.length (CrossFadedCompositeBinder.zoomInPaintVertexArray b)
      = StructArray.length (CrossFadedCompositeBinder.zoomOutPaintVertexArray b) ∧
      StructArray.length (CrossFadedCompositeBinder.zoomInPaintVertexArray b) ≤ n
  end.



(** How many buffers [upload] realizes for a binder. *)
Definition buffer_demand (binder : Binder.t) : nat :=
  match binder with
  | Binder.Constant _ | Binder.CrossFadedConstant _ => 0
  | Binder.SourceExpression _ | Binder.CompositeExpression _ => 1
  | Binder.CrossFadedComposite _ => 2
  end.

Definition buffers_demand (binders : list (string * Binder.t)) : nat :=
  sum_list ((λ entry, buffer_demand entry.2) <$> binders).

(** The handles of the buffers the binders hold. *)
Definition held_handles (binders : list (string * Binder.t)) : list nat :=
  concat ((λ entry, VertexBuffer.handle <$> held_buffers entry.2) <$> binders).

(** The paint array a draw call with [crossfade] reads for a binder: none for
    a constant binder, the one array of a source or composite binder, the
    zoom-in or the zoom-out array of a cross-faded one. *)
Definition drawn_array (crossfade : CrossfadeParameters) (binder : Binder.t)
  : option StructArray.t :=
  match binder with
  | Binder.Constant _ | Binder.CrossFadedConstant _ => None
  | Binder.SourceExpression b => Some (SourceExpressionBinder.paintVertexArray b)
  | Binder.CompositeExpression b => Some (CompositeExpressionBinder.paintVertexArray b)
  | Binder.CrossFadedComposite b =>
      Some (if PrimFloat.eqb (fromScale crossfade) 2
            then CrossFadedCompositeBinder.zoomInPaintVertexArray b
            else CrossFadedCompositeBinder.zoomOutPaintVertexArray b)
  end.

(** Two entries of a set with the same layer id whose configurations differ in
    their binders at most: cache key, feature-id map, buffer offset and buffer
    list are the same. *)
Definition same_shell (entry entry' : string * ProgramConfiguration.t) : Prop :=
  entry'.1 = entry.1 ∧
  ProgramConfiguration.cacheKey entry'.2 = ProgramConfiguration.cacheKey entry.2 ∧
  ProgramConfiguration._idMap entry'.2 = ProgramConfiguration._idMap entry.2 ∧
  ProgramConfiguration._bufferOffset entry'.2 = ProgramConfiguration._bufferOffset entry.2 ∧
  ProgramConfiguration._buffers entry'.2 = ProgramConfiguration._buffers entry.2.

(** ** A set of two layers *)

Module SetExamples.

Definition hover_style : StyleLayer.t := StyleLayer.mk "hover" Examples.hover_layer.

Definition fill_style : StyleLayer.t := StyleLayer.mk "fill" Examples.fill_layer.

(** The set of [hover_style] and [fill_style] at zoom 5. *)
Definition created : ProgramConfigurationSet.t :=
  default (ProgramConfigurationSet.mk [] [] false)
    (ProgramConfigurationSet.new [] [hover_style; fill_style] 5%float (λ _, true)).

(** [created] after two features: two vertices for the feature with id 7, then
    two more for the feature with id ["b"]. *)
Definition populated : ProgramConfigurationSet.t :=
  ProgramConfigurationSet.populatePaintArrays Examples.pack 4
    (Examples.feature_with (Some (IdString "b"))) 1 (Some Examples.atlas)
    (ProgramConfigurationSet.populatePaintArrays Examples.pack 2
       (Examples.feature_with (Some (IdNumber 7))) 0 (Some Examples.atlas) created).

End SetExamples.

(** ** A pattern named like an inherited member *)

Module InheritedExamples.

(** A pattern expression that names the image ["constructor"] at every zoom. *)
Definition pattern_constructor : Expression.t :=
  Expression.mk (λ _ _ _, VString "constructor") true (λ _ _ _, 0%float).

Definition constructor_binder : CrossFadedCompositeBinder.t :=
  CrossFadedCompositeBinder.new pattern_constructor ["pattern_to"; "pattern_from"] "string"
    false 5%float StructArray.PatternLayoutArray.

End InheritedExamples.

(** * Properties *)

(** ** Loops over a paint array *)

Lemma for_loop_emplaceBack (count i : nat) (v : list float) (arr : StructArray.t) :
  for_loop count i (λ _, StructArray.emplaceBack v) arr
  = StructArray.mk (StructArray.layout arr) (StructArray.elements arr ++ replicate count v).
Proof.
  revert i arr. induction count as [|count IH]; intros i arr; simpl.
  - rewrite app_nil_r. by destruct arr.
  - rewrite IH. simpl. by rewrite <- app_assoc.
Qed.

Lemma for_loop_emplaceBack_pair (count i : nat) (v w : list float)
    (arr1 arr2 : StructArray.t) :
  for_loop count i
    (λ _ '(a1, a2), (StructArray.emplaceBack v a1, StructArray.emplaceBack w a2))
    (arr1, arr2)
  = (StructArray.mk (StructArray.layout arr1) (StructArray.elements arr1 ++ replicate count v),
     StructArray.mk (StructArray.layout arr2) (StructArray.elements arr2 ++ replicate count w)).
Proof.
  revert i arr1 arr2. induction count as [|count IH]; intros i arr1 arr2; simpl.
  - rewrite !app_nil_r. by destruct arr1, arr2.
  - rewrite IH. simpl. by rewrite <- !app_assoc.
Qed.

Lemma for_loop_emplace (count i : nat) (v : list float) (arr : StructArray.t) :
  for_loop count i (λ j, StructArray.emplace j v) arr
  = StructArray.mk (StructArray.layout arr) (overwrite count i v (StructArray.elements arr)).
Proof.
  revert i arr. induction count as [|count IH]; intros i arr; simpl.
  - by destruct arr.
  - by rewrite IH.
Qed.

Lemma for_loop_emplace_pair (count i : nat) (v w : list float)
    (arr1 arr2 : StructArray.t) :
  for_loop count i
    (λ j '(a1, a2), (StructArray.emplace j v a1, StructArray.emplace j w a2))
    (arr1, arr2)
  = (StructArray.mk (StructArray.layout arr1)
       (overwrite count i v (StructArray.elements arr1)),
     StructArray.mk (StructArray.layout arr2)
       (overwrite count i w (StructArray.elements arr2))).
Proof.
  revert i arr1 arr2. induction count as [|count IH]; intros i arr1 arr2; simpl.
  - by destruct arr1, arr2.
  - by rewrite IH.
Qed.

Lemma length_overwrite (count i : nat) (v : list float) (l : list (list float)) :
  length (overwrite count i v l) = length l.
Proof.
  revert i l. induction count as [|count IH]; intros i l; simpl; [done|].
  by rewrite IH, length_insert.
Qed.

Lemma lookup_insert_const (i j : nat) (v : list float) (l : list (list float)) :
  <[i := v]> l !! j = if decide (i = j) then (λ _, v) <$> l !! j else l !! j.
Proof.
  case_decide as Hij; [subst j|by rewrite list_lookup_insert_ne].
  destruct (decide (i < length l)) as [Hlt|Hge].
  - rewrite list_lookup_insert_eq by done.
    by destruct (lookup_lt_is_Some_2 l i Hlt) as [x ->].
  - rewrite list_insert_ge by lia. by rewrite (lookup_ge_None_2 l i) by lia.
Qed.

Lemma lookup_overwrite (count i j : nat) (v : list float) (l : list (list float)) :
  overwrite count i v l !! j
  = if decide (i ≤ j < i + count) then (λ _, v) <$> l !! j else l !! j.
Proof.
  revert i l. induction count as [|count IH]; intros i l; simpl.
  - case_decide; [lia|done].
  - rewrite IH, lookup_insert_const.
    repeat case_decide; try lia; done.
Qed.


(** ** The binders one by one *)

Lemma for_range_emplaceBack_length (start stop : nat) (v : list float) (arr : StructArray.t) :
  start = StructArray.length arr →
  StructArray.length (for_range start stop (λ _, StructArray.emplaceBack v) arr)
  = StructArray.length arr `max` stop.
Proof.
  intros ->. unfold for_range. rewrite for_loop_emplaceBack.
  unfold StructArray.length. simpl. rewrite length_app, length_replicate. lia.
Qed.

Lemma for_range_emplace_frame (start stop : nat) (v : list float) (arr : StructArray.t) :
  array_frame (λ i, start ≤ i < stop) arr
    (for_range start stop (λ i, StructArray.emplace i v) arr).
Proof.
  unfold for_range. rewrite for_loop_emplace. repeat split.
  - unfold StructArray.length. simpl. apply length_overwrite.
  - intros i Hi. unfold StructArray.get. simpl. rewrite lookup_overwrite.
    case_decide; [lia|done].
Qed.

Lemma array_frame_refl (slice : nat → Prop) (arr : StructArray.t) :
  array_frame slice arr arr.
Proof. by repeat split. Qed.

Lemma array_frame_trans (slice : nat → Prop) (a1 a2 a3 : StructArray.t) :
  array_frame slice a1 a2 → array_frame slice a2 a3 → array_frame slice a1 a3.
Proof.
  intros (Hl1 & Hn1 & Hg1) (Hl2 & Hn2 & Hg2). repeat split; [congruence..|].
  intros i Hi. by rewrite Hg2, Hg1.
Qed.

Lemma array_frame_weaken (slice slice' : nat → Prop) (a1 a2 : StructArray.t) :
  (∀ i, slice i → slice' i) → array_frame slice a1 a2 → array_frame slice' a1 a2.
Proof.
  intros Hsub (Hl & Hn & Hg). repeat split; [done..|].
  intros i Hi. apply Hg. auto.
Qed.

Lemma SourceExpressionBinder_populate_length pack newLength feature this :
  StructArray.length
    (SourceExpressionBinder.paintVertexArray
       (SourceExpressionBinder.populatePaintArray pack newLength feature this))
  = StructArray.length (SourceExpressionBinder.paintVertexArray this) `max` newLength.
Proof.
  unfold SourceExpressionBinder.populatePaintArray, StructArray.reserve.
  destruct (is_color _); simpl; by apply for_range_emplaceBack_length.
Qed.

Lemma CompositeExpressionBinder_populate_length pack newLength feature this :
  StructArray.length
    (CompositeExpressionBinder.paintVertexArray
       (CompositeExpressionBinder.populatePaintArray pack newLength feature this))
  = StructArray.length (CompositeExpressionBinder.paintVertexArray this) `max` newLength.
Proof.
  unfold CompositeExpressionBinder.populatePaintArray, StructArray.reserve.
  destruct (is_color _); simpl; by apply for_range_emplaceBack_length.
Qed.

Lemma SourceExpressionBinder_update_frame pack start end_ feature featureState this :
  array_frame (λ i, start ≤ i < end_)
    (SourceExpressionBinder.paintVertexArray this)
    (SourceExpressionBinder.paintVertexArray
       (SourceExpressionBinder.updatePaintArray pack start end_ feature featureState this)).
Proof.
  unfold SourceExpressionBinder.updatePaintArray.
  destruct (is_color _); simpl; apply for_range_emplace_frame.
Qed.

Lemma CompositeExpressionBinder_update_frame pack start end_ feature featureState this :
  array_frame (λ i, start ≤ i < end_)
    (CompositeExpressionBinder.paintVertexArray this)
    (CompositeExpressionBinder.paintVertexArray
       (CompositeExpressionBinder.updatePaintArray pack start end_ feature featureState this)).
Proof.
  unfold CompositeExpressionBinder.updatePaintArray.
  destruct (is_color _); simpl; apply for_range_emplace_frame.
Qed.

Lemma CrossFadedCompositeBinder_with_own_arrays (this : CrossFadedCompositeBinder.t) :
  CrossFadedCompositeBinder.with_arrays this
    (CrossFadedCompositeBinder.zoomInPaintVertexArray this)
    (CrossFadedCompositeBinder.zoomOutPaintVertexArray this) = this.
Proof. by destruct this. Qed.

Lemma CrossFadedCompositeBinder_populate_missing length feature imagePositions this :
  let image := resolved_image this feature None imagePositions in
  let zoom := CrossFadedCompositeBinder.zoom this in
  image (zoom - 1)%float = None ∨ image zoom = None ∨ image (zoom + 1)%float = None →
  CrossFadedCompositeBinder.populatePaintArray length feature imagePositions this = this.
Proof.
  unfold resolved_image, CrossFadedCompositeBinder.populatePaintArray, StructArray.reserve.
  destruct imagePositions as [positions|]; simpl;
    [|intros _; apply CrossFadedCompositeBinder_with_own_arrays].
  intros Hmissing.
  repeat (destruct (image_at positions _));
    try apply CrossFadedCompositeBinder_with_own_arrays.
  by destruct Hmissing as [?|[?|?]].
Qed.

Lemma CrossFadedCompositeBinder_populate_present length feature imagePositions this
    imageMin imageMid imageMax :
  let image := resolved_image this feature None imagePositions in
  let zoom := CrossFadedCompositeBinder.zoom this in
  image (zoom - 1)%float = Some imageMin → image zoom = Some imageMid →
  image (zoom + 1)%float = Some imageMax →
  let count :=
    length - StructArray.length (CrossFadedCompositeBinder.zoomInPaintVertexArray this) in
  CrossFadedCompositeBinder.populatePaintArray length feature imagePositions this
  = CrossFadedCompositeBinder.with_arrays this
      (StructArray.mk
         (StructArray.layout (CrossFadedCompositeBinder.zoomInPaintVertexArray this))
         (StructArray.elements (CrossFadedCompositeBinder.zoomInPaintVertexArray this)
            ++ replicate count (CrossFadedCompositeBinder.pattern_element imageMid imageMin)))
      (StructArray.mk
         (StructArray.layout (CrossFadedCompositeBinder.zoomOutPaintVertexArray this))
         (StructArray.elements (CrossFadedCompositeBinder.zoomOutPaintVertexArray this)
            ++ replicate count (CrossFadedCompositeBinder.pattern_element imageMid imageMax))).
Proof.
  unfold resolved_image, CrossFadedCompositeBinder.populatePaintArray, StructArray.reserve.
  destruct imagePositions as [positions|]; simpl; [|done].
  intros -> -> ->. unfold for_range. by rewrite for_loop_emplaceBack_pair.
Qed.

Lemma image_member_Entry positions name image :
  image_member positions name = Entry image ↔ image_at positions name = Some image.
Proof.
  unfold image_member, image_at, member. destruct name as [n|c|name]; [done..|].
  destruct (positions !! name); [|by destruct (inherited name)].
  split; by intros [= ->].
Qed.

Lemma resolved_member_Entry this feature featureState imagePositions zoom image :
  resolved_member this feature featureState imagePositions zoom = Entry image ↔
  resolved_image this feature featureState imagePositions zoom = Some image.
Proof.
  unfold resolved_member, resolved_image. destruct imagePositions as [positions|]; simpl;
    [apply image_member_Entry|done].
Qed.

Lemma CrossFadedCompositeBinder_update_missing start end_ feature featureState
    imagePositions this :
  let look := resolved_member this feature (Some featureState) imagePositions in
  let zoom := CrossFadedCompositeBinder.zoom this in
  look (zoom - 1)%float = Undefined ∨ look zoom = Undefined ∨
  look (zoom + 1)%float = Undefined →
  CrossFadedCompositeBinder.updatePaintArray start end_ feature featureState imagePositions
    this = Some this.
Proof.
  unfold resolved_member, CrossFadedCompositeBinder.updatePaintArray.
  destruct imagePositions as [positions|]; simpl; [|done].
  intros Hmissing.
  repeat (destruct (image_member positions _)); try done;
    by destruct Hmissing as [?|[?|?]].
Qed.

Lemma CrossFadedCompositeBinder_update_present start end_ feature featureState
    imagePositions this imageMin imageMid imageMax :
  let image := resolved_image this feature (Some featureState) imagePositions in
  let zoom := CrossFadedCompositeBinder.zoom this in
  image (zoom - 1)%float = Some imageMin → image zoom = Some imageMid →
  image (zoom + 1)%float = Some imageMax →
  CrossFadedCompositeBinder.updatePaintArray start end_ feature featureState imagePositions
    this
  = Some (CrossFadedCompositeBinder.with_arrays this
            (for_range start end_
               (λ i, StructArray.emplace i
                       (CrossFadedCompositeBinder.pattern_element imageMid imageMin))
               (CrossFadedCompositeBinder.zoomInPaintVertexArray this))
            (for_range start end_
               (λ i, StructArray.emplace i
                       (CrossFadedCompositeBinder.pattern_element imageMid imageMax))
               (CrossFadedCompositeBinder.zoomOutPaintVertexArray this))).
Proof.
  unfold resolved_image, CrossFadedCompositeBinder.updatePaintArray.
  destruct imagePositions as [positions|]; simpl; [|done].
  intros Hmin%image_member_Entry Hmid%image_member_Entry Hmax%image_member_Entry.
  rewrite Hmin, Hmid, Hmax. unfold for_range.
  by rewrite for_loop_emplace_pair, !for_loop_emplace.
Qed.

Lemma CrossFadedCompositeBinder_update_cases start end_ feature featureState
    imagePositions this after :
  CrossFadedCompositeBinder.updatePaintArray start end_ feature featureState imagePositions
    this = Some after →
  after = this ∨
  ∃ imageMin imageMid imageMax,
    let image := resolved_image this feature (Some featureState) imagePositions in
    let zoom := CrossFadedCompositeBinder.zoom this in
    image (zoom - 1)%float = Some imageMin ∧ image zoom = Some imageMid ∧
    image (zoom + 1)%float = Some imageMax.
Proof.
  unfold resolved_image, CrossFadedCompositeBinder.updatePaintArray.
  destruct imagePositions as [positions|]; simpl; [|intros [= <-]; by left].
  set (value := Expression.evaluate (CrossFadedCompositeBinder.expression this)).
  destruct (image_member positions
              (value (CrossFadedCompositeBinder.zoom this - 1)%float feature
                 (Some featureState))) as [imageMin| |] eqn:Hmin;
    destruct (image_member positions
                (value (CrossFadedCompositeBinder.zoom this) feature (Some featureState)))
      as [imageMid| |] eqn:Hmid;
    destruct (image_member positions
                (value (CrossFadedCompositeBinder.zoom this + 1)%float feature
                   (Some featureState))) as [imageMax| |] eqn:Hmax;
    try (intros [= <-]; by left);
    try (destruct (start <? end_); [done|intros [= <-]; by left]).
  intros _. right. exists imageMin, imageMid, imageMax. cbv zeta.
  repeat split; by apply image_member_Entry.
Qed.

Lemma CrossFadedCompositeBinder_update_frame start end_ feature featureState
    imagePositions this after :
  CrossFadedCompositeBinder.updatePaintArray start end_ feature featureState imagePositions
    this = Some after →
  array_frame (λ i, start ≤ i < end_)
    (CrossFadedCompositeBinder.zoomInPaintVertexArray this)
    (CrossFadedCompositeBinder.zoomInPaintVertexArray after) ∧
  array_frame (λ i, start ≤ i < end_)
    (CrossFadedCompositeBinder.zoomOutPaintVertexArray this)
    (CrossFadedCompositeBinder.zoomOutPaintVertexArray after).
Proof.
  intros Hupdate.
  destruct (CrossFadedCompositeBinder_update_cases _ _ _ _ _ _ _ Hupdate)
    as [->|(imageMin & imageMid & imageMax & Hmin & Hmid & Hmax)];
    [split; apply array_frame_refl|].
  rewrite (CrossFadedCompositeBinder_update_present _ _ _ _ _ _ _ _ _ Hmin Hmid Hmax)
    in Hupdate.
  injection Hupdate as <-. simpl. split; apply for_range_emplace_frame.
Qed.

Lemma update_states_absent pack idMap vtLayer layer imagePositions featureStates binders
    dirty :
  (∀ id featureState, (id, featureState) ∈ featureStates → member id idMap = Undefined) →
  ProgramConfiguration.update_states pack idMap vtLayer layer imagePositions featureStates
    binders dirty = Some (binders, dirty).
Proof.
  induction featureStates as [|[id featureState] featureStates IH]; intros Habsent;
    simpl; [done|].
  rewrite (Habsent id featureState) by left.
  apply IH. intros id' featureState' Hin. apply (Habsent id' featureState'). by right.
Qed.

Lemma updatePaintArrays_absent pack featureStates vtLayer layer imagePositions this :
  (∀ id featureState,
     (id, featureState) ∈ featureStates →
     member id (ProgramConfiguration._idMap this) = Undefined) →
  ProgramConfiguration.updatePaintArrays pack featureStates vtLayer layer imagePositions this
  = Some (this, false).
Proof.
  intros Habsent. unfold ProgramConfiguration.updatePaintArrays.
  rewrite update_states_absent by done. simpl. by destruct this.
Qed.

(** ** Cross-faded binders and missing images *)



Lemma CrossFadedCompositeBinder_populate_or_throw_missing length feature imagePositions
    this :
  let look := resolved_member this feature None imagePositions in
  let zoom := CrossFadedCompositeBinder.zoom this in
  look (zoom - 1)%float = Undefined ∨ look zoom = Undefined ∨
  look (zoom + 1)%float = Undefined →
  CrossFadedCompositeBinder.populatePaintArray_or_throw length feature imagePositions this
  = Some this.
Proof.
  unfold resolved_member, CrossFadedCompositeBinder.populatePaintArray_or_throw,
    StructArray.reserve.
  destruct imagePositions as [positions|]; simpl;
    [|intros _; by rewrite CrossFadedCompositeBinder_with_own_arrays].
  intros Hmissing.
  repeat (destruct (image_member positions _));
    rewrite ?CrossFadedCompositeBinder_with_own_arrays; try done;
    by destruct Hmissing as [?|[?|?]].
Qed.

Lemma CrossFadedCompositeBinder_populate_or_throw_present length feature imagePositions
    this imageMin imageMid imageMax :
  let image := resolved_image this feature None imagePositions in
  let zoom := CrossFadedCompositeBinder.zoom this in
  image (zoom - 1)%float = Some imageMin → image zoom = Some imageMid →
  image (zoom + 1)%float = Some imageMax →
  CrossFadedCompositeBinder.populatePaintArray_or_throw length feature imagePositions this
  = Some (CrossFadedCompositeBinder.populatePaintArray length feature imagePositions this).
Proof.
  unfold resolved_image, CrossFadedCompositeBinder.populatePaintArray_or_throw,
    CrossFadedCompositeBinder.populatePaintArray.
  destruct imagePositions as [positions|]; simpl; [|done].
  intros Hmin Hmid Hmax. rewrite Hmin, Hmid, Hmax.
  apply image_member_Entry in Hmin, Hmid, Hmax. rewrite Hmin, Hmid, Hmax.
  by destruct (for_range _ _ _ _).
Qed.

Lemma CrossFadedCompositeBinder_throws positions (min mid max : Value) :
  image_member positions min ≠ Undefined → image_member positions mid ≠ Undefined →
  image_member positions max ≠ Undefined →
  image_member positions min = Inherited ∨ image_member positions mid = Inherited ∨
  image_member positions max = Inherited →
  ∀ (A : Type) (missing : A) (written : ImagePosition.t → ImagePosition.t →
                                         ImagePosition.t → A) (thrown : A),
    match image_member positions min, image_member positions mid,
          image_member positions max with
    | Undefined, _, _ | _, Undefined, _ | _, _, Undefined => missing
    | Entry imageMin, Entry imageMid, Entry imageMax => written imageMin imageMid imageMax
    | _, _, _ => thrown
    end = thrown.
Proof.
  intros Hmin Hmid Hmax Hinherited A missing written thrown.
  destruct (image_member positions min), (image_member positions mid),
    (image_member positions max); try done;
    by destruct Hinherited as [?|[?|?]].
Qed.

(** C3, where the code breaks it. When [imagePositions] has no entry for a
    pattern name that every object inherits, such as [constructor], the lookup
    gives the inherited member instead of [undefined]: if none of the three
    lookups is [undefined] and one is an inherited member, the guard does not
    return, and a populate call that has an element to append, or an update
    call on a slice that is not empty, throws instead of writing nothing. *)
Theorem CrossFadedCompositeBinder_throws_on_inherited_name
    (this : CrossFadedCompositeBinder.t) (feature : Feature.t)
    (positions : gmap string ImagePosition.t) :
  let zoom := CrossFadedCompositeBinder.zoom this in
  (∀ length : nat,
     let look := resolved_member this feature None (Some positions) in
     look (zoom - 1)%float ≠ Undefined → look zoom ≠ Undefined →
     look (zoom + 1)%float ≠ Undefined →
     look (zoom - 1)%float = Inherited ∨ look zoom = Inherited ∨
     look (zoom + 1)%float = Inherited →
     StructArray.length (CrossFadedCompositeBinder.zoomInPaintVertexArray this) < length →
     CrossFadedCompositeBinder.populatePaintArray_or_throw length feature (Some positions)
       this = None) ∧
  (∀ (start end_ : nat) (featureState : FeatureState),
     let look := resolved_member this feature (Some featureState) (Some positions) in
     look (zoom - 1)%float ≠ Undefined → look zoom ≠ Undefined →
     look (zoom + 1)%float ≠ Undefined →
     look (zoom - 1)%float = Inherited ∨ look zoom = Inherited ∨
     look (zoom + 1)%float = Inherited →
     start < end_ →
     CrossFadedCompositeBinder.updatePaintArray start end_ feature featureState
       (Some positions) this = None).
Proof.
  intros zoom. split.
  - intros length look Hmin Hmid Hmax Hinherited Hlength.
    unfold CrossFadedCompositeBinder.populatePaintArray_or_throw, StructArray.reserve.
    cbv zeta. rewrite (CrossFadedCompositeBinder_throws _ _ _ _ Hmin Hmid Hmax Hinherited).
    by apply Nat.ltb_lt in Hlength as ->.
  - intros start end_ featureState look Hmin Hmid Hmax Hinherited Hslice.
    unfold CrossFadedCompositeBinder.updatePaintArray.
    cbv zeta. rewrite (CrossFadedCompositeBinder_throws _ _ _ _ Hmin Hmid Hmax Hinherited).
    by apply Nat.ltb_lt in Hslice as ->.
Qed.

Lemma CrossFadedCompositeBinder_throws_on_inherited_name_witness :
  let feature := Examples.feature_with None in
  resolved_image InheritedExamples.constructor_binder feature None (Some ∅) 5%float = None ∧
  CrossFadedCompositeBinder.populatePaintArray_or_throw 1 feature (Some ∅)
    InheritedExamples.constructor_binder = None ∧
  CrossFadedCompositeBinder.updatePaintArray 0 1 feature [] (Some ∅)
    InheritedExamples.constructor_binder = None.
Proof.
  destruct (CrossFadedCompositeBinder_throws_on_inherited_name
              InheritedExamples.constructor_binder (Examples.feature_with None) ∅)
    as [Hpopulate Hupdate].
  split; [reflexivity|]. split.
  - apply (Hpopulate 1); try discriminate; [by left|].
    apply Nat.lt_0_1.
  - apply (Hupdate 0 1 []); try discriminate; [by left|].
    apply Nat.lt_0_1.
Defined.

(** X24. A populate or update call of a [CrossFadedCompositeBinder] for which
    [imagePositions] is missing or gives [undefined] for one of the three
    pattern names (resolved at zoom - 1, zoom and zoom + 1) returns and leaves
    the binder, hence both of its paint arrays, as it was. When all three are
    entries of [imagePositions], the call returns too: populate has appended
    the element to both arrays up to the requested length, and update has
    overwritten every element the arrays have in [[start, end_)]. *)
Theorem CrossFadedCompositeBinder_skips_without_image
    (this : CrossFadedCompositeBinder.t) (feature : Feature.t)
    (imagePositions : ImagePositions) :
  let zoom := CrossFadedCompositeBinder.zoom this in
  let zoomIn := CrossFadedCompositeBinder.zoomInPaintVertexArray in
  let zoomOut := CrossFadedCompositeBinder.zoomOutPaintVertexArray in
  (∀ length : nat,
     let look := resolved_member this feature None imagePositions in
     let result :=
       CrossFadedCompositeBinder.populatePaintArray_or_throw length feature imagePositions
         this in
     (look (zoom - 1)%float = Undefined ∨ look zoom = Undefined ∨
      look (zoom + 1)%float = Undefined →
      result = Some this) ∧
     (∀ imageMin imageMid imageMax,
        look (zoom - 1)%float = Entry imageMin → look zoom = Entry imageMid →
        look (zoom + 1)%float = Entry imageMax →
        let count := length - StructArray.length (zoomIn this) in
        ∃ after,
          result = Some after ∧
          StructArray.elements (zoomIn after)
          = StructArray.elements (zoomIn this)
              ++ replicate count
                   (CrossFadedCompositeBinder.pattern_element imageMid imageMin) ∧
          StructArray.elements (zoomOut after)
          = StructArray.elements (zoomOut this)
              ++ replicate count
                   (CrossFadedCompositeBinder.pattern_element imageMid imageMax)))
  ∧
  (∀ (start end_ : nat) (featureState : FeatureState),
     let look := resolved_member this feature (Some featureState) imagePositions in
     let result :=
       CrossFadedCompositeBinder.updatePaintArray start end_ feature featureState
         imagePositions this in
     (look (zoom - 1)%float = Undefined ∨ look zoom = Undefined ∨
      look (zoom + 1)%float = Undefined →
      result = Some this) ∧
     (∀ imageMin imageMid imageMax,
        look (zoom - 1)%float = Entry imageMin → look zoom = Entry imageMid →
        look (zoom + 1)%float = Entry imageMax →
        ∃ after,
          result = Some after ∧
          ∀ i, start ≤ i < end_ →
            (i < StructArray.length (zoomIn this) →
             StructArray.get i (zoomIn after)
             = Some (CrossFadedCompositeBinder.pattern_element imageMid imageMin)) ∧
            (i < StructArray.length (zoomOut this) →
             StructArray.get i (zoomOut after)
             = Some (CrossFadedCompositeBinder.pattern_element imageMid imageMax)))).
Proof.
  intros zoom zoomIn zoomOut. split.
  - intros length look result. split.
    + apply CrossFadedCompositeBinder_populate_or_throw_missing.
    + intros imageMin imageMid imageMax Hmin%resolved_member_Entry
        Hmid%resolved_member_Entry Hmax%resolved_member_Entry count.
      eexists. split;
        [exact (CrossFadedCompositeBinder_populate_or_throw_present _ _ _ _ _ _ _
                  Hmin Hmid Hmax)|].
      by rewrite (CrossFadedCompositeBinder_populate_present _ _ _ _ _ _ _ Hmin Hmid Hmax).
  - intros start end_ featureState look result. split.
    + apply CrossFadedCompositeBinder_update_missing.
    + intros imageMin imageMid imageMax Hmin%resolved_member_Entry
        Hmid%resolved_member_Entry Hmax%resolved_member_Entry.
      eexists. split;
        [exact (CrossFadedCompositeBinder_update_present _ _ _ _ _ _ _ _ _
                  Hmin Hmid Hmax)|].
      intros i Hi.
      unfold for_range. rewrite !for_loop_emplace. unfold StructArray.get. simpl.
      rewrite !lookup_overwrite. unfold zoomIn, zoomOut, StructArray.length.
      split; intros Hlt; (case_decide; [|lia]);
        by destruct (lookup_lt_is_Some_2 _ _ Hlt) as [x ->].
Qed.

Lemma CrossFadedCompositeBinder_skips_without_image_witness :
  CrossFadedCompositeBinder.populatePaintArray_or_throw 3 (Examples.feature_with None)
    (Some ∅) Examples.pattern_binder = Some Examples.pattern_binder ∧
  ∃ after,
    CrossFadedCompositeBinder.populatePaintArray_or_throw 3 (Examples.feature_with None)
      (Some Examples.atlas) Examples.pattern_binder = Some after ∧
    StructArray.elements (CrossFadedCompositeBinder.zoomInPaintVertexArray after)
    = [] ++ replicate (3 - 0)
              (CrossFadedCompositeBinder.pattern_element (Examples.image 0)
                 (Examples.image 0)).
Proof.
  split.
  - destruct (CrossFadedCompositeBinder_skips_without_image Examples.pattern_binder
                (Examples.feature_with None) (Some ∅)) as [Hpopulate _].
    apply (Hpopulate 3). left. reflexivity.
  - destruct (CrossFadedCompositeBinder_skips_without_image Examples.pattern_binder
                (Examples.feature_with None) (Some Examples.atlas)) as [Hpopulate _].
    destruct (Hpopulate 3) as [_ Hpresent].
    destruct (Hpresent (Examples.image 0) (Examples.image 0) (Examples.image 0))
      as (after & Hafter & HzoomIn & _); [reflexivity..|].
    by exists after.
Defined.

(** ** Buffer selection *)

(** C7. On a [CrossFadedCompositeBinder] that holds both realized buffers,
    [getVertexBuffer(crossfade)] returns the zoom-in buffer when
    [crossfade.fromScale === 2] and the zoom-out buffer otherwise. *)
Theorem getVertexBuffer_selects_by_fromScale
    (this : CrossFadedCompositeBinder.t) (crossfade : CrossfadeParameters)
    (zoomIn zoomOut : VertexBuffer.t) :
  CrossFadedCompositeBinder.zoomInPaintVertexBuffer this = Some zoomIn →
  CrossFadedCompositeBinder.zoomOutPaintVertexBuffer this = Some zoomOut →
  CrossFadedCompositeBinder.getVertexBuffer crossfade this
  = Some (if PrimFloat.eqb (fromScale crossfade) 2 then zoomIn else zoomOut).
Proof.
  intros Hin Hout. unfold CrossFadedCompositeBinder.getVertexBuffer.
  by rewrite Hin, Hout.
Qed.

Lemma getVertexBuffer_selects_by_fromScale_witness :
  let uploaded :=
    (CrossFadedCompositeBinder.upload Examples.pattern_binder Context.initial).1 in
  let zoomIn :=
    VertexBuffer.mk 0 (StructArray.new StructArray.PatternLayoutArray)
      (CrossFadedCompositeBinder.paintVertexAttributes Examples.pattern_binder) true in
  let zoomOut :=
    VertexBuffer.mk 1 (StructArray.new StructArray.PatternLayoutArray)
      (CrossFadedCompositeBinder.paintVertexAttributes Examples.pattern_binder) true in
  CrossFadedCompositeBinder.getVertexBuffer
    {| fromScale := 2; toScale := 1; t_ := 0.5 |} uploaded = Some zoomIn ∧
  CrossFadedCompositeBinder.getVertexBuffer
    {| fromScale := 0.5; toScale := 1; t_ := 0.5 |} uploaded = Some zoomOut.
Proof.
  intros uploaded zoomIn zoomOut. split.
  - exact (getVertexBuffer_selects_by_fromScale uploaded
             {| fromScale := 2; toScale := 1; t_ := 0.5 |} zoomIn zoomOut
             eq_refl eq_refl).
  - exact (getVertexBuffer_selects_by_fromScale uploaded
             {| fromScale := 0.5; toScale := 1; t_ := 0.5 |} zoomIn zoomOut
             eq_refl eq_refl).
Defined.

(** ** Interpolation factor *)

(** C8. The interpolation factor of a [CompositeExpressionBinder] constructed
    at zoom [Z] is the factor its expression gives over [[Z, Z + 1]] at
    [Math.floor(currentZoom)] when [useIntegerZoom] is set and at
    [currentZoom] itself otherwise; for the linear expression at [Z = 5]
    without integer zoom, the factor at 5.5 is 0.5. *)
Theorem interpolationFactor_floors_on_integer_zoom :
  (∀ expression names type useIntegerZoom Z layout currentZoom,
     CompositeExpressionBinder.interpolationFactor
       (CompositeExpressionBinder.new expression names type useIntegerZoom Z layout)
       currentZoom
     = Expression.interpolationFactor expression
         (if useIntegerZoom then Math.floor currentZoom else currentZoom) Z (Z + 1)%float) ∧
  (∀ names type layout,
     CompositeExpressionBinder.interpolationFactor
       (CompositeExpressionBinder.new Examples.linear names type false 5%float layout)
       5.5%float = 0.5%float) ∧
  (∀ names type layout,
     CompositeExpressionBinder.interpolationFactor
       (CompositeExpressionBinder.new Examples.linear names type true 5%float layout)
       5.5%float = 0%float).
Proof.
  split; [|split].
  - intros expression names type useIntegerZoom Z layout currentZoom.
    unfold CompositeExpressionBinder.interpolationFactor. simpl.
    by destruct useIntegerZoom.
  - intros. reflexivity.
  - intros. reflexivity.
Qed.

(** ** Releasing buffers *)

Lemma destroy_count_destroyBuffer (h : nat) (buffer : VertexBuffer.t) (ctx : Context.t) :
  Context.destroy_count h (Context.destroyBuffer buffer ctx)
  = Context.destroy_count h ctx
    + length (filter (λ b, VertexBuffer.handle b = h) [buffer]).
Proof.
  unfold Context.destroy_count, Context.destroyBuffer. simpl.
  rewrite filter_app, length_app. f_equal.
  rewrite !filter_cons, !filter_nil. by repeat case_decide.
Qed.

Lemma destroy_count_destroy (h : nat) (binder : Binder.t) (ctx : Context.t) :
  Context.destroy_count h (Binder.destroy binder ctx)
  = Context.destroy_count h ctx
    + length (filter (λ b, VertexBuffer.handle b = h) (held_buffers binder)).
Proof.
  destruct binder as [b|b|b|b|b]; simpl;
    unfold ConstantBinder.destroy, CrossFadedConstantBinder.destroy,
      SourceExpressionBinder.destroy, CompositeExpressionBinder.destroy,
      CrossFadedCompositeBinder.destroy.
  - simpl. lia.
  - simpl. lia.
  - destruct (SourceExpressionBinder.paintVertexBuffer b); simpl.
    + apply destroy_count_destroyBuffer.
    + lia.
  - destruct (CompositeExpressionBinder.paintVertexBuffer b); simpl.
    + apply destroy_count_destroyBuffer.
    + lia.
  - rewrite filter_app, length_app.
    destruct (CrossFadedCompositeBinder.zoomOutPaintVertexBuffer b),
      (CrossFadedCompositeBinder.zoomInPaintVertexBuffer b); simpl;
      rewrite ?destroy_count_destroyBuffer; simpl; lia.
Qed.

(** C9, as the code has it. A binder keeps the buffers it realized, so every
    [destroy()] call on it invokes the destroy operation of each buffer it
    holds once more: after [n] calls buffer [h] has seen [n] invocations per
    reference the binder holds to it, and none through a binder that holds no
    buffer. *)
Theorem destroy_invokes_buffer_destroy_on_every_call
    (binder : Binder.t) (ctx : Context.t) (n h : nat) :
  Context.destroy_count h (Nat.iter n (Binder.destroy binder) ctx)
  = Context.destroy_count h ctx
    + n * length (filter (λ b, VertexBuffer.handle b = h) (held_buffers binder)).
Proof.
  induction n as [|n IH]; simpl; [lia|].
  rewrite destroy_count_destroy, IH. lia.
Qed.

(** C9 fails: a source binder that uploaded once and is destroyed twice has
    invoked the destroy operation of its one buffer twice. *)
Lemma destroy_twice_invokes_buffer_destroy_twice :
  let '(binder, ctx) :=
    Binder.upload (Binder.SourceExpression Examples.source_binder) Context.initial in
  held_buffers binder
  = [VertexBuffer.mk 0 (StructArray.new StructArray.StructArrayLayout1f4)
       (SourceExpressionBinder.paintVertexAttributes Examples.source_binder) true] ∧
  Context.destroy_count 0 ctx = 0 ∧
  Context.destroy_count 0 (Binder.destroy binder (Binder.destroy binder ctx)) = 2.
Proof. repeat split. Qed.

(** ** Features without a truthy id *)

(** C10. A feature whose id is missing, the number 0 or the empty string gets
    no record in the feature-id map: [populatePaintArrays] leaves the map as
    it was and only sets the buffer offset to the new length. A later
    [updatePaintArrays] for the string of that id then finds no record (unless
    another feature put one under the same string) and returns false. *)
Theorem populatePaintArrays_skips_falsy_id
    (pack : Encoder) (newLength index : nat) (feature : Feature.t)
    (imagePositions : ImagePositions) (this : ProgramConfiguration.t) :
  Feature.id feature = None ∨ Feature.id feature = Some (IdNumber 0)
  ∨ Feature.id feature = Some (IdString "") →
  let after :=
    ProgramConfiguration.populatePaintArrays pack newLength feature index imagePositions
      this in
  ProgramConfiguration._idMap after = ProgramConfiguration._idMap this ∧
  ProgramConfiguration._bufferOffset after = newLength ∧
  ∀ id featureState vtLayer layer imagePositions',
    Feature.id feature = Some id →
    ProgramConfiguration._idMap this !! String_of id = None →
    ProgramConfiguration.updatePaintArrays pack [(String_of id, featureState)] vtLayer layer
      imagePositions' after = Some (after, false).
Proof.
  intros Hfalsy after.
  assert (ProgramConfiguration._idMap after = ProgramConfiguration._idMap this) as Hmap.
  { subst after. unfold ProgramConfiguration.populatePaintArrays. simpl.
    by destruct Hfalsy as [->|[->| ->]]. }
  split; [done|]. split; [done|].
  intros id featureState vtLayer layer imagePositions' Hid Habsent.
  apply updatePaintArrays_absent.
  intros id' featureState' Hin. apply list_elem_of_singleton in Hin.
  inversion Hin; subst. unfold member. rewrite Hmap, Habsent.
  destruct Hfalsy as [Hnone|[Hzero|Hempty]]; [congruence| |].
  - rewrite Hid in Hzero. by injection Hzero as ->.
  - rewrite Hid in Hempty. by injection Hempty as ->.
Qed.

Lemma populatePaintArrays_skips_falsy_id_witness :
  let zero := Examples.feature_with (Some (IdNumber 0)) in
  let empty := Examples.feature_with (Some (IdString "")) in
  ProgramConfiguration._idMap
    (ProgramConfiguration.populatePaintArrays Examples.pack 4 zero 0 (Some Examples.atlas)
       Examples.configuration) = ∅ ∧
  ProgramConfiguration._idMap
    (ProgramConfiguration.populatePaintArrays Examples.pack 4 empty 0 (Some Examples.atlas)
       Examples.configuration) = ∅.
Proof.
  split.
  - apply (populatePaintArrays_skips_falsy_id Examples.pack 4 0
             (Examples.feature_with (Some (IdNumber 0))) (Some Examples.atlas)
             Examples.configuration).
    right. left. reflexivity.
  - apply (populatePaintArrays_skips_falsy_id Examples.pack 4 0
             (Examples.feature_with (Some (IdString ""))) (Some Examples.atlas)
             Examples.configuration).
    right. right. reflexivity.
Defined.

(** ** Updates for unknown ids *)

Lemma update_states_inherited pack idMap vtLayer layer imagePositions featureStates
    binders dirty :
  Exists (λ entry, member entry.1 idMap = Inherited) featureStates →
  ProgramConfiguration.update_states pack idMap vtLayer layer imagePositions featureStates
    binders dirty = None.
Proof.
  intros Hinherited. revert binders dirty.
  induction Hinherited as [[id featureState] featureStates Hid
                          |[id featureState] featureStates _ IH];
    intros binders dirty; simpl.
  - simpl in Hid. by rewrite Hid.
  - destruct (member id idMap) as [posArray| |]; [|done|apply IH].
    destruct (ProgramConfiguration.update_positions _ _ _ _ _ _ _ _) as [[? ?]|];
      simpl; [apply IH|done].
Qed.

(** C6, where the code breaks it. For an id of [featureStates] that has no
    entry in the feature-id map but that every object inherits, such as
    [constructor], [this._idMap[id]] is the inherited member: the guard
    [if (!posArray) continue] does not skip it, and [updatePaintArrays] throws
    instead of returning false. *)
Theorem updatePaintArrays_throws_on_inherited_id
    (pack : Encoder) (featureStates : list (string * FeatureState))
    (vtLayer : nat → Feature.t) (layer : Layer.t) (imagePositions : ImagePositions)
    (this : ProgramConfiguration.t) :
  Exists (λ entry, member entry.1 (ProgramConfiguration._idMap this) = Inherited)
    featureStates →
  ProgramConfiguration.updatePaintArrays pack featureStates vtLayer layer imagePositions this
  = None.
Proof.
  intros Hinherited. unfold ProgramConfiguration.updatePaintArrays.
  by rewrite update_states_inherited.
Qed.

Lemma updatePaintArrays_throws_on_inherited_id_witness :
  ProgramConfiguration._idMap Examples.populated !! "constructor" = None ∧
  ProgramConfiguration.updatePaintArrays Examples.pack [("constructor", [])]
    Examples.vtLayer Examples.fill_layer (Some Examples.atlas) Examples.populated
  = None.
Proof.
  split; [reflexivity|].
  apply (updatePaintArrays_throws_on_inherited_id Examples.pack [("constructor", [])]).
  apply Exists_cons_hd. reflexivity.
Defined.

(** X25. When [this._idMap[id]] is [undefined] for every id of
    [featureStates] (the id has no entry in the feature-id map, and is not a
    name every object inherits), [updatePaintArrays] returns false and the
    configuration it leaves is the one it was given: paint arrays, expressions
    and statistics of every binder included. *)
Theorem updatePaintArrays_without_recorded_id_is_noop
    (pack : Encoder) (featureStates : list (string * FeatureState))
    (vtLayer : nat → Feature.t) (layer : Layer.t) (imagePositions : ImagePositions)
    (this : ProgramConfiguration.t) :
  (∀ id featureState,
     (id, featureState) ∈ featureStates →
     member id (ProgramConfiguration._idMap this) = Undefined) →
  ProgramConfiguration.updatePaintArrays pack featureStates vtLayer layer imagePositions this
  = Some (this, false).
Proof. apply updatePaintArrays_absent. Qed.

Lemma updatePaintArrays_without_recorded_id_is_noop_witness :
  ProgramConfiguration.updatePaintArrays Examples.pack [("9", [])] Examples.vtLayer
    Examples.fill_layer (Some Examples.atlas) Examples.populated
  = Some (Examples.populated, false).
Proof.
  apply (updatePaintArrays_without_recorded_id_is_noop Examples.pack [("9", [])]).
  intros id featureState Hin. apply list_elem_of_singleton in Hin.
  inversion Hin. reflexivity.
Defined.

(** ** The cache key *)

Lemma createDynamic_loop_keys layer_type zoom filterProperties values binders keys :
  snd <$> ProgramConfiguration.createDynamic_loop layer_type zoom filterProperties values
            binders keys
  = (λ fragments, keys ++ fragments) <$> key_fragments filterProperties values.
Proof.
  revert binders keys.
  induction values as [|[property value] values IH]; intros binders keys; simpl.
  - by rewrite app_nil_r.
  - destruct (filterProperties property); simpl;
      [|rewrite IH; by destruct (key_fragments _ _)].
    destruct value as [v|prop value]; [rewrite IH; by destruct (key_fragments _ _)|].
    destruct (Property.supportsPropertyExpression prop); simpl;
      [|rewrite IH; by destruct (key_fragments _ _)].
    destruct (String.eqb (Property.binder prop) "cross-faded"), value;
      try destruct (layoutType _ _ _); simpl; try done;
      rewrite IH; destruct (key_fragments _ _); simpl; try done;
      by rewrite <- app_assoc.
Qed.

Lemma createDynamic_cacheKey layer zoom filterProperties :
  ProgramConfiguration.cacheKey <$>
    ProgramConfiguration.createDynamic layer zoom filterProperties
  = (λ fragments, join (sort_keys fragments)) <$>
      key_fragments filterProperties (Layer.paint layer).
Proof.
  unfold ProgramConfiguration.createDynamic.
  pose proof (createDynamic_loop_keys (Layer.type layer) zoom filterProperties
                (Layer.paint layer) [] []) as Hkeys.
  destruct (ProgramConfiguration.createDynamic_loop _ _ _ _ _ _) as [[binders keys]|];
    destruct (key_fragments _ _); simpl in *; by simplify_eq.
Qed.

Lemma key_fragments_Permutation filterProperties values1 values2 :
  values1 ≡ₚ values2 →
  match key_fragments filterProperties values1, key_fragments filterProperties values2 with
  | Some fragments1, Some fragments2 => fragments1 ≡ₚ fragments2
  | None, None => True
  | _, _ => False
  end.
Proof.
  induction 1 as [|entry values1 values2 _ IH|entry1 entry2 values|values1 values2 values3 _ IH1 _ IH2];
    simpl.
  - done.
  - destruct (key_fragment filterProperties entry),
      (key_fragments filterProperties values1),
      (key_fragments filterProperties values2); try done. by f_equiv.
  - destruct (key_fragment filterProperties entry1),
      (key_fragment filterProperties entry2),
      (key_fragments filterProperties values); try done.
    rewrite !app_assoc. f_equiv. apply Permutation_app_comm.
  - destruct (key_fragments filterProperties values1),
      (key_fragments filterProperties values2),
      (key_fragments filterProperties values3); try done. by etrans.
Qed.

Lemma sort_keys_Permutation keys1 keys2 :
  keys1 ≡ₚ keys2 → sort_keys keys1 = sort_keys keys2.
Proof.
  intros Hperm. unfold sort_keys.
  apply (StronglySorted_unique String.le).
  - apply StronglySorted_merge_sort; apply _.
  - apply StronglySorted_merge_sort; apply _.
  - by rewrite !merge_sort_Permutation.
Qed.

(** C4. The cache key [createDynamic] computes does not depend on the order in
    which the layer enumerates its paint values: two layers of one type whose
    paint values are a permutation of each other get the same key (and
    [createDynamic] throws for both or for neither). *)
Theorem createDynamic_cacheKey_permutation
    (type : string) (paint1 paint2 : list (string * PaintValue)) (zoom : float)
    (filterProperties : string → bool) :
  paint1 ≡ₚ paint2 →
  ProgramConfiguration.cacheKey <$>
    ProgramConfiguration.createDynamic (Layer.mk type paint1) zoom filterProperties
  = ProgramConfiguration.cacheKey <$>
      ProgramConfiguration.createDynamic (Layer.mk type paint2) zoom filterProperties.
Proof.
  intros Hperm. rewrite !createDynamic_cacheKey. simpl.
  pose proof (key_fragments_Permutation filterProperties _ _ Hperm) as Hfragments.
  destruct (key_fragments filterProperties paint1),
    (key_fragments filterProperties paint2); simpl; try done.
  by rewrite (sort_keys_Permutation _ _ Hfragments).
Qed.

Lemma createDynamic_cacheKey_permutation_witness :
  ProgramConfiguration.cacheKey <$>
    ProgramConfiguration.createDynamic Examples.fill_layer 5%float (λ _, true)
  = ProgramConfiguration.cacheKey <$>
      ProgramConfiguration.createDynamic Examples.fill_layer_reordered 5%float (λ _, true).
Proof.
  apply (createDynamic_cacheKey_permutation "fill").
  etrans; [apply perm_skip, perm_swap|]. apply perm_swap.
Defined.

(** ** Sequences of populate calls *)

Lemma populatePaintArrays_binders pack newLength feature index imagePositions this :
  ProgramConfiguration.binders
    (ProgramConfiguration.populatePaintArrays pack newLength feature index imagePositions
       this)
  = (λ '(property, binder),
       (property, Binder.populatePaintArray pack newLength feature imagePositions binder))
      <$> ProgramConfiguration.binders this.
Proof.
  unfold ProgramConfiguration.populatePaintArrays. simpl.
  induction (ProgramConfiguration.binders this) as [|[property binder] binders IH];
    [done|].
  rewrite !fmap_cons. f_equal; [by destruct binder|exact IH].
Qed.

Lemma CrossFadedCompositeBinder_populate_cases length feature imagePositions this :
  let image := resolved_image this feature None imagePositions in
  let zoom := CrossFadedCompositeBinder.zoom this in
  let after :=
    CrossFadedCompositeBinder.populatePaintArray length feature imagePositions this in
  ((image (zoom - 1)%float = None ∨ image zoom = None ∨ image (zoom + 1)%float = None) ∧
   after = this) ∨
  (is_Some (image (zoom - 1)%float) ∧ is_Some (image zoom) ∧
   is_Some (image (zoom + 1)%float) ∧
   let count :=
     length - StructArray.length (CrossFadedCompositeBinder.zoomInPaintVertexArray this) in
   StructArray.length (CrossFadedCompositeBinder.zoomInPaintVertexArray after)
   = StructArray.length (CrossFadedCompositeBinder.zoomInPaintVertexArray this) + count ∧
   StructArray.length (CrossFadedCompositeBinder.zoomOutPaintVertexArray after)
   = StructArray.length (CrossFadedCompositeBinder.zoomOutPaintVertexArray this) + count).
Proof.
  intros image zoom after.
  destruct (image (zoom - 1)%float) as [imageMin|] eqn:Hmin;
    [|left; split; [auto|by apply CrossFadedCompositeBinder_populate_missing; auto]].
  destruct (image zoom) as [imageMid|] eqn:Hmid;
    [|left; split; [auto|by apply CrossFadedCompositeBinder_populate_missing; auto]].
  destruct (image (zoom + 1)%float) as [imageMax|] eqn:Hmax;
    [|left; split; [auto|by apply CrossFadedCompositeBinder_populate_missing; auto]].
  right. repeat (split; [done|]). subst after.
  rewrite (CrossFadedCompositeBinder_populate_present _ _ _ _ _ _ _ Hmin Hmid Hmax).
  unfold StructArray.length. simpl. by rewrite !length_app, !length_replicate.
Qed.

Lemma resolved_image_populate length feature imagePositions this feature' featureState
    imagePositions' zoom :
  resolved_image
    (CrossFadedCompositeBinder.populatePaintArray length feature imagePositions this)
    feature' featureState imagePositions' zoom
  = resolved_image this feature' featureState imagePositions' zoom.
Proof.
  unfold resolved_image, CrossFadedCompositeBinder.populatePaintArray.
  destruct imagePositions as [positions|]; [|done].
  repeat (destruct (image_at positions _)); try done.
  by destruct (for_range _ _ _ _).
Qed.

Lemma populate_within pack newLength feature imagePositions limit binder :
  newLength ≤ limit → arrays_within limit binder →
  arrays_within limit (Binder.populatePaintArray pack newLength feature imagePositions binder).
Proof.
  intros Hle [Hwithin Hequal]. destruct binder as [b|b|b|b|b]; simpl in *.
  - done.
  - done.
  - split; [|done]. apply Forall_singleton. rewrite Forall_singleton in Hwithin.
    rewrite SourceExpressionBinder_populate_length. lia.
  - split; [|done]. apply Forall_singleton. rewrite Forall_singleton in Hwithin.
    rewrite CompositeExpressionBinder_populate_length. lia.
  - rewrite Forall_cons, Forall_singleton in Hwithin. destruct Hwithin as [Hin Hout].
    destruct (CrossFadedCompositeBinder_populate_cases newLength feature imagePositions b)
      as [[_ ->]|(_ & _ & _ & Hzi & Hzo)].
    + split; [|done]. by repeat constructor.
    + simpl in Hzi, Hzo. split; [|lia]. repeat constructor; lia.
Qed.

Lemma populate_filled pack (last : PopulateCall) binder :
  arrays_within (call_newLength last) binder →
  arrays_filled last
    (Binder.populatePaintArray pack (call_newLength last) (call_feature last)
       (call_imagePositions last) binder).
Proof.
  intros [Hwithin Hequal]. destruct binder as [b|b|b|b|b]; simpl in *.
  - done.
  - done.
  - rewrite Forall_singleton in Hwithin.
    rewrite SourceExpressionBinder_populate_length. lia.
  - rewrite Forall_singleton in Hwithin.
    rewrite CompositeExpressionBinder_populate_length. lia.
  - rewrite Forall_cons, Forall_singleton in Hwithin. destruct Hwithin as [Hin Hout].
    rewrite !resolved_image_populate.
    assert (CrossFadedCompositeBinder.zoom
              (CrossFadedCompositeBinder.populatePaintArray (call_newLength last)
                 (call_feature last) (call_imagePositions last) b)
            = CrossFadedCompositeBinder.zoom b) as ->.
    { unfold CrossFadedCompositeBinder.populatePaintArray.
      destruct (call_imagePositions last) as [positions|]; [|done].
      repeat (destruct (image_at positions _)); try done.
      by destruct (for_range _ _ _ _). }
    intros Hmin Hmid Hmax.
    destruct (CrossFadedCompositeBinder_populate_cases (call_newLength last)
                (call_feature last) (call_imagePositions last) b)
      as [[Hmissing _]|(_ & _ & _ & Hzi & Hzo)].
    + exfalso. destruct Hmissing as [Hnone|[Hnone|Hnone]]; rewrite Hnone in *;
        by eapply is_Some_None.
    + simpl in Hzi, Hzo. lia.
Qed.

Lemma populate_all_snoc pack calls call this :
  populate_all pack (calls ++ [call]) this = populate pack call (populate_all pack calls this).
Proof. unfold populate_all. by rewrite foldl_app. Qed.

Lemma arrays_within_weaken n limit binder :
  n ≤ limit → arrays_within n binder → arrays_within limit binder.
Proof.
  intros Hle [Hwithin Hequal]. split; [|done].
  eapply Forall_impl; [done|]. simpl. intros arr Harr. lia.
Qed.

Lemma populate_all_within pack calls limit this :
  Forall (λ call, call_newLength call ≤ limit) calls →
  Forall (λ '(_, binder), arrays_within limit binder) (ProgramConfiguration.binders this) →
  Forall (λ '(_, binder), arrays_within limit binder)
    (ProgramConfiguration.binders (populate_all pack calls this)).
Proof.
  revert this. induction calls as [|call calls IH]; intros this Hcalls Hthis; simpl;
    [done|].
  rewrite Forall_cons in Hcalls. destruct Hcalls as [Hcall Hcalls]. apply IH; [done|].
  unfold populate. rewrite populatePaintArrays_binders.
  apply Forall_fmap. eapply Forall_impl; [done|].
  intros [property binder] Hwithin. simpl. by apply populate_within.
Qed.

Lemma object_set_Forall {A} (P : string * A → Prop) key (v : A) object :
  (∀ k, P (k, v)) → Forall P object → Forall P (object_set key v object).
Proof.
  intros Hv. induction 1 as [|[k w] object Hw Hobject IH]; simpl.
  - by repeat constructor.
  - destruct (String.eqb k key); constructor; auto.
Qed.

Lemma createDynamic_loop_fresh layer_type zoom filterProperties values binders keys
    binders' keys' :
  ProgramConfiguration.createDynamic_loop layer_type zoom filterProperties values binders
    keys = Some (binders', keys') →
  Forall (λ '(_, binder), arrays_within 0 binder) binders →
  Forall (λ '(_, binder), arrays_within 0 binder) binders'.
Proof.
  revert binders keys.
  induction values as [|[property value] values IH]; intros binders keys; simpl.
  - by intros [= <- <-].
  - destruct (filterProperties property); simpl; [|by apply IH].
    destruct value as [v|prop value]; [by apply IH|].
    destruct (Property.supportsPropertyExpression prop); simpl; [|by apply IH].
    destruct (String.eqb (Property.binder prop) "cross-faded"), value;
      try (destruct (layoutType _ _ _); simpl; [|done]);
      intros Hloop Hbinders; eapply IH; try exact Hloop;
      apply object_set_Forall; try done;
      intros _; split; simpl; by repeat constructor.
Qed.

Lemma createDynamic_fresh layer zoom filterProperties this :
  ProgramConfiguration.createDynamic layer zoom filterProperties = Some this →
  Forall (λ '(_, binder), arrays_within 0 binder) (ProgramConfiguration.binders this) ∧
  ProgramConfiguration._idMap this = ∅ ∧ ProgramConfiguration._bufferOffset this = 0.
Proof.
  unfold ProgramConfiguration.createDynamic.
  destruct (ProgramConfiguration.createDynamic_loop _ _ _ _ _ _) as [[binders keys]|] eqn:Hloop;
    simpl; [|done].
  intros [= <-]. simpl. split; [|done].
  by eapply createDynamic_loop_fresh.
Qed.

(** C1, as the code has it. On a configuration that [createDynamic] built,
    after a sequence of [populatePaintArrays] calls none of which asks for more
    than the last one, the paint array of every source and composite binder
    has the length the last call asked for, and so have both arrays of a
    cross-faded composite binder when the three images of the last call are in
    its [imagePositions]; constant binders have no paint array. *)
Theorem populatePaintArrays_array_lengths
    (pack : Encoder) (layer : Layer.t) (zoom : float) (filterProperties : string → bool)
    (this : ProgramConfiguration.t) (calls : list PopulateCall) (last : PopulateCall) :
  ProgramConfiguration.createDynamic layer zoom filterProperties = Some this →
  Forall (λ call, call_newLength call ≤ call_newLength last) calls →
  ∀ property binder,
    (property, binder)
      ∈ ProgramConfiguration.binders (populate_all pack (calls ++ [last]) this) →
    match binder with
    | Binder.Constant _ | Binder.CrossFadedConstant _ => Binder.paintArrays binder = []
    | Binder.SourceExpression b =>
        StructArray.length (SourceExpressionBinder.paintVertexArray b)
        = call_newLength last
    | Binder.CompositeExpression b =>
        StructArray.length (CompositeExpressionBinder.paintVertexArray b)
        = call_newLength last
    | Binder.CrossFadedComposite b =>
        let image := resolved_image b (call_feature last) None (call_imagePositions last) in
        let zoom := CrossFadedCompositeBinder.zoom b in
        is_Some (image (zoom - 1)%float) → is_Some (image zoom) →
        is_Some (image (zoom + 1)%float) →
        StructArray.length (CrossFadedCompositeBinder.zoomInPaintVertexArray b)
        = call_newLength last ∧
        StructArray.length (CrossFadedCompositeBinder.zoomOutPaintVertexArray b)
        = call_newLength last
    end.
Proof.
  intros Hcreate Hcalls property binder Hin.
  apply createDynamic_fresh in Hcreate as (Hfresh & _ & _).
  assert (Forall (λ '(_, binder), arrays_within (call_newLength last) binder)
            (ProgramConfiguration.binders (populate_all pack calls this))) as Hwithin.
  { apply populate_all_within; [done|].
    eapply Forall_impl; [done|]. intros [p b]. apply arrays_within_weaken. lia. }
  rewrite populate_all_snoc in Hin. unfold populate in Hin.
  rewrite populatePaintArrays_binders in Hin.
  apply list_elem_of_fmap in Hin as ([property' binder'] & [= -> ->] & Hin).
  rewrite Forall_forall in Hwithin. specialize (Hwithin _ Hin). simpl in Hwithin.
  apply (populate_filled pack last) in Hwithin. exact Hwithin.
Qed.

Lemma populatePaintArrays_array_lengths_witness :
  StructArray.length (SourceExpressionBinder.paintVertexArray Examples.filled_source) = 4 ∧
  StructArray.length
    (CrossFadedCompositeBinder.zoomInPaintVertexArray Examples.filled_pattern) = 4 ∧
  StructArray.length
    (CrossFadedCompositeBinder.zoomOutPaintVertexArray Examples.filled_pattern) = 4.
Proof.
  pose proof (populatePaintArrays_array_lengths Examples.pack Examples.fill_layer 5%float
                (λ _, true) Examples.fill_configuration
                [Examples.call 2 (Some (IdNumber 7)) 0 (Some Examples.atlas)]
                (Examples.call 4 (Some (IdString "b")) 1 (Some Examples.atlas))
                eq_refl) as Hlengths.
  assert (Forall (λ call, call_newLength call ≤ 4)
            [Examples.call 2 (Some (IdNumber 7)) 0 (Some Examples.atlas)]) as Hcalls
    by (repeat constructor).
  split.
  - refine (Hlengths Hcalls "fill-opacity"
              (Binder.SourceExpression Examples.filled_source) _).
    apply list_elem_of_here.
  - refine (Hlengths Hcalls "fill-pattern"
              (Binder.CrossFadedComposite Examples.filled_pattern) _ _ _ _).
    + do 2 apply list_elem_of_further. apply list_elem_of_here.
    + by eexists.
    + by eexists.
    + by eexists.
Defined.

(** C1 fails for a cross-faded composite binder whose images are missing:
    three features at one vertex each, populated with the empty
    [imagePositions] of the specification's own scenario, leave both pattern
    arrays empty while the source array has its three elements. *)
Lemma populatePaintArrays_leaves_pattern_arrays_short :
  ProgramConfiguration.createDynamic Examples.fill_layer 5%float (λ _, true)
  = Some Examples.fill_configuration ∧
  (λ '(property, binder), (property, StructArray.length <$> Binder.paintArrays binder))
    <$> ProgramConfiguration.binders
          (populate_all Examples.pack
             [ Examples.call 1 (Some (IdNumber 1)) 0 (Some ∅);
               Examples.call 2 (Some (IdNumber 2)) 1 (Some ∅);
               Examples.call 3 (Some (IdNumber 3)) 2 (Some ∅) ]
             Examples.fill_configuration)
  = [("fill-opacity", [3]); ("fill-color", []); ("fill-pattern", [0; 0])].
Proof. split; reflexivity. Qed.

(** ** The buffer offset and the recorded slices *)

Lemma populate_offset pack call this :
  ProgramConfiguration._bufferOffset (populate pack call this) = call_newLength call.
Proof. done. Qed.

Lemma populate_idMap_record pack call this id posArray pos :
  ProgramConfiguration._idMap (populate pack call this) !! id = Some posArray →
  pos ∈ posArray →
  (∃ posArray', ProgramConfiguration._idMap this !! id = Some posArray' ∧ pos ∈ posArray') ∨
  pos = {| index := call_index call; start := ProgramConfiguration._bufferOffset this;
           end_ := call_newLength call |}.
Proof.
  unfold populate, ProgramConfiguration.populatePaintArrays. simpl.
  destruct (Feature.id (call_feature call)) as [featureId|]; [|by eauto].
  destruct (truthy featureId); [|by eauto].
  destruct (decide (String_of featureId = id)) as [<-|Hne].
  - rewrite lookup_insert_eq. intros [= <-] Hpos.
    apply elem_of_app in Hpos as [Hold|Hnew].
    + left. destruct (ProgramConfiguration._idMap this !! String_of featureId)
        as [posArray'|]; simpl in Hold; [by eauto|]. by apply elem_of_nil in Hold.
    + right. by apply list_elem_of_singleton in Hnew.
  - rewrite lookup_insert_ne by done. by eauto.
Qed.

Lemma populate_records_within_offset pack call this :
  ProgramConfiguration._bufferOffset this ≤ call_newLength call →
  records_within_offset this → records_within_offset (populate pack call this).
Proof.
  intros Hle Hthis id posArray pos Hid Hpos. rewrite populate_offset.
  destruct (populate_idMap_record _ _ _ _ _ _ Hid Hpos) as [(posArray' & Hid' & Hpos')| ->].
  - destruct (Hthis _ _ _ Hid' Hpos'). lia.
  - simpl. lia.
Qed.

Lemma populate_all_records_within_offset pack calls this bound :
  records_within_offset this →
  Sorted le (ProgramConfiguration._bufferOffset this
               :: (call_newLength <$> calls) ++ [bound]) →
  records_within_offset (populate_all pack calls this) ∧
  ProgramConfiguration._bufferOffset (populate_all pack calls this) ≤ bound.
Proof.
  revert this. induction calls as [|call calls IH]; intros this Hthis Hsorted; simpl in *.
  - split; [done|]. apply Sorted_inv in Hsorted as [_ Hhd]. by inversion Hhd.
  - apply Sorted_inv in Hsorted as [Hsorted Hhd]. inversion Hhd; subst.
    apply IH; [by apply populate_records_within_offset|done].
Qed.

(** C5, as the code has it. On a configuration that [createDynamic] built,
    along a sequence of [populatePaintArrays] calls whose requested lengths do
    not decrease, the buffer offset never decreases: before each call it is at
    most the length the call asks for and after the call it is that length;
    every record already in the feature-id map ends at or before the offset,
    hence at or before the end of any record appended later; and the record a
    call appends starts at the offset the previous call left and ends at the
    new length. *)
Theorem populatePaintArrays_offset_never_rewinds
    (pack : Encoder) (layer : Layer.t) (zoom : float) (filterProperties : string → bool)
    (this : ProgramConfiguration.t) (calls : list PopulateCall) (call : PopulateCall) :
  ProgramConfiguration.createDynamic layer zoom filterProperties = Some this →
  Sorted le (call_newLength <$> (calls ++ [call])) →
  let before := populate_all pack calls this in
  let after := populate pack call before in
  ProgramConfiguration._bufferOffset before ≤ call_newLength call ∧
  ProgramConfiguration._bufferOffset after = call_newLength call ∧
  (∀ id posArray pos,
     ProgramConfiguration._idMap before !! id = Some posArray → pos ∈ posArray →
     start pos ≤ end_ pos ∧ end_ pos ≤ ProgramConfiguration._bufferOffset before) ∧
  (∀ id posArray pos,
     ProgramConfiguration._idMap after !! id = Some posArray → pos ∈ posArray →
     (∃ posArray',
        ProgramConfiguration._idMap before !! id = Some posArray' ∧ pos ∈ posArray') ∨
     pos = {| index := call_index call;
              start := ProgramConfiguration._bufferOffset before;
              end_ := call_newLength call |}).
Proof.
  intros Hcreate Hsorted before after.
  apply createDynamic_fresh in Hcreate as (_ & Hmap & Hoffset).
  destruct (populate_all_records_within_offset pack calls this (call_newLength call))
    as [Hrecords Hle].
  { intros id posArray pos Hid. by rewrite Hmap, lookup_empty in Hid. }
  { rewrite Hoffset. rewrite fmap_app in Hsorted. simpl in Hsorted.
    constructor; [done|].
    destruct ((call_newLength <$> calls) ++ [call_newLength call]); constructor. lia. }
  split; [done|]. split; [done|]. split; [exact Hrecords|].
  intros id posArray pos. apply populate_idMap_record.
Qed.

Lemma populatePaintArrays_offset_never_rewinds_witness :
  let before :=
    populate_all Examples.pack [Examples.call 2 (Some (IdNumber 7)) 0 (Some Examples.atlas)]
      Examples.fill_configuration in
  ProgramConfiguration._bufferOffset before ≤ 4.
Proof.
  apply (populatePaintArrays_offset_never_rewinds Examples.pack Examples.fill_layer 5%float
           (λ _, true) Examples.fill_configuration
           [Examples.call 2 (Some (IdNumber 7)) 0 (Some Examples.atlas)]
           (Examples.call 4 (Some (IdString "b")) 1 (Some Examples.atlas))).
  - reflexivity.
  - simpl. repeat constructor.
Defined.

(** C5 fails when a later call asks for less than an earlier one: after a call
    for length 5 and a call for length 3 the offset has gone from 5 back to 3,
    and the second record ends (at 3) before the first (at 5). *)
Lemma populatePaintArrays_offset_rewinds :
  let first :=
    populate Examples.pack (Examples.call 5 (Some (IdString "a")) 0 (Some Examples.atlas))
      Examples.fill_configuration in
  let second :=
    populate Examples.pack (Examples.call 3 (Some (IdString "b")) 1 (Some Examples.atlas))
      first in
  ProgramConfiguration.createDynamic Examples.fill_layer 5%float (λ _, true)
  = Some Examples.fill_configuration ∧
  ProgramConfiguration._bufferOffset first = 5 ∧
  ProgramConfiguration._bufferOffset second = 3 ∧
  ProgramConfiguration._idMap second !! "a" = Some [{| index := 0; start := 0; end_ := 5 |}] ∧
  ProgramConfiguration._idMap second !! "b" = Some [{| index := 1; start := 5; end_ := 3 |}].
Proof. repeat split; reflexivity. Qed.

(** ** Partial updates *)

Lemma binder_frame_refl slice binder : binder_frame slice binder binder.
Proof. by left. Qed.

Lemma binder_frame_arrays slice before after :
  binder_frame slice before after →
  Forall2 (array_frame slice) (Binder.paintArrays before) (Binder.paintArrays after).
Proof.
  intros [->|[_ Harrays]]; [|done].
  apply Forall_Forall2_diag, Forall_forall. intros arr _. apply array_frame_refl.
Qed.

Lemma binder_frame_trans slice b1 b2 b3 :
  binder_frame slice b1 b2 → binder_frame slice b2 b3 → binder_frame slice b1 b3.
Proof.
  intros [->|[Hsd H12]] H23; [done|].
  destruct H23 as [->|[_ H23]]; [by right|].
  right. split; [done|].
  eapply Forall2_trans; [|exact H12|exact H23].
  intros a1 a2 a3. apply array_frame_trans.
Qed.

Lemma binder_frame_weaken (slice slice' : nat → Prop) before after :
  (∀ i, slice i → slice' i) → binder_frame slice before after →
  binder_frame slice' before after.
Proof.
  intros Hsub [->|[Hsd Harrays]]; [by left|]. right. split; [done|].
  eapply Forall2_impl; [done|]. intros a1 a2. by apply array_frame_weaken.
Qed.

Lemma binder_frame_state_dependent slice before after :
  binder_frame slice before after → state_dependent after = true →
  state_dependent before = true.
Proof. by intros [->|[Hsd _]]. Qed.

Lemma binder_frame_unchanged slice before after :
  binder_frame slice before after → state_dependent before = false → after = before.
Proof. intros [->|[Hsd _]]; [done|]. by rewrite Hsd. Qed.

Lemma binders_frame_refl slice binders : binders_frame slice binders binders.
Proof.
  apply Forall_Forall2_diag, Forall_forall. intros entry _. split; [done|].
  apply binder_frame_refl.
Qed.

Lemma binders_frame_trans slice l1 l2 l3 :
  binders_frame slice l1 l2 → binders_frame slice l2 l3 → binders_frame slice l1 l3.
Proof.
  intros H12 H23. eapply Forall2_trans; [|exact H12|exact H23].
  intros x y z [Hxy Fxy] [Hyz Fyz]. split; [congruence|].
  by eapply binder_frame_trans.
Qed.

Lemma binders_frame_weaken (slice slice' : nat → Prop) l1 l2 :
  (∀ i, slice i → slice' i) → binders_frame slice l1 l2 → binders_frame slice' l1 l2.
Proof.
  intros Hsub H12. eapply Forall2_impl; [exact H12|].
  intros x y [Hxy Fxy]. split; [done|]. by eapply binder_frame_weaken.
Qed.

Lemma binders_frame_state_dependent slice l1 l2 :
  binders_frame slice l1 l2 → any_state_dependent l2 = true →
  any_state_dependent l1 = true.
Proof.
  unfold any_state_dependent.
  induction 1 as [|[p1 b1] [p2 b2] l1 l2 [_ Hframe] _ IH]; simpl; [done|].
  intros [Hsd|Hsd]%orb_true_iff; apply orb_true_iff.
  - left. by eapply binder_frame_state_dependent.
  - right. by apply IH.
Qed.

Lemma binders_frame_unchanged slice l1 l2 :
  binders_frame slice l1 l2 → any_state_dependent l1 = false → l2 = l1.
Proof.
  unfold any_state_dependent.
  induction 1 as [|[p1 b1] [p2 b2] l1 l2 [Hp Hframe] _ IH]; simpl; [done|].
  intros [Hsd Hrest]%orb_false_iff. simpl in *. subst p2.
  rewrite (binder_frame_unchanged _ _ _ Hframe Hsd). f_equal. by apply IH.
Qed.

Lemma update_binder_frame pack layer pos feature featureState imagePositions property
    binder binder' touched :
  ProgramConfiguration.update_binder pack layer pos feature featureState imagePositions
    property binder = Some (binder', touched) →
  touched = state_dependent binder ∧
  binder_frame (λ i, start pos ≤ i < end_ pos) binder binder'.
Proof.
  unfold ProgramConfiguration.update_binder, state_dependent.
  destruct (Binder.expression binder) as [expression|] eqn:Hexpression;
    [|intros [= <- <-]; split; [done|by left]].
  destruct (Expression.isStateDependent expression) eqn:Hsd;
    [|intros [= <- <-]; split; [done|by left]].
  destruct (Layer.paint_expression property layer) as [value|]; simpl; [|done].
  destruct (Binder.updatePaintArray _ _ _ _ _ _ _) as [updated|] eqn:Hupdate;
    simpl; [|done].
  intros [= <- <-]. split; [done|]. right. split.
  { unfold state_dependent. by rewrite Hexpression. }
  destruct binder as [b|b|b|b|b]; simpl in *; try done.
  - injection Hupdate as <-. constructor; [|constructor].
    apply (SourceExpressionBinder_update_frame pack (start pos) (end_ pos) feature
             featureState (SourceExpressionBinder.with_expression b value)).
  - injection Hupdate as <-. constructor; [|constructor].
    apply (CompositeExpressionBinder_update_frame pack (start pos) (end_ pos) feature
             featureState (CompositeExpressionBinder.with_expression b value)).
  - destruct (CrossFadedCompositeBinder.updatePaintArray _ _ _ _ _ _) as [b'|] eqn:Hb;
      simpl in Hupdate; [|done].
    injection Hupdate as <-.
    destruct (CrossFadedCompositeBinder_update_frame _ _ _ _ _ _ _ Hb) as [Hin Hout].
    constructor; [exact Hin|]. constructor; [exact Hout|]. constructor.
Qed.

Lemma update_binders_frame pack layer pos feature featureState imagePositions binders
    dirty binders' dirty' :
  ProgramConfiguration.update_binders pack layer pos feature featureState imagePositions
    binders dirty = Some (binders', dirty') →
  binders_frame (λ i, start pos ≤ i < end_ pos) binders binders' ∧
  dirty' = dirty || any_state_dependent binders.
Proof.
  revert dirty binders' dirty'.
  induction binders as [|[property binder] binders IH]; intros dirty binders' dirty'; simpl.
  - intros [= <- <-]. split; [constructor|]. by rewrite orb_false_r.
  - destruct (ProgramConfiguration.update_binder _ _ _ _ _ _ _ _)
      as [[binder1 touched]|] eqn:Hbinder; simpl; [|done].
    destruct (ProgramConfiguration.update_binders _ _ _ _ _ _ _ _)
      as [[binders1 dirty1]|] eqn:Hbinders; simpl; [|done].
    intros [= <- <-].
    apply update_binder_frame in Hbinder as [-> Hframe].
    apply IH in Hbinders as [Hframes ->].
    split; [by constructor|].
    unfold any_state_dependent. simpl.
    by destruct (state_dependent binder), dirty, (existsb _ binders).
Qed.

Lemma update_positions_frame pack vtLayer layer featureState imagePositions posArray
    binders dirty binders' dirty' :
  ProgramConfiguration.update_positions pack vtLayer layer featureState imagePositions
    posArray binders dirty = Some (binders', dirty') →
  binders_frame (λ i, ∃ pos, pos ∈ posArray ∧ start pos ≤ i < end_ pos) binders binders' ∧
  dirty' = dirty || (match posArray with [] => false | _ => true end
                     && any_state_dependent binders).
Proof.
  revert binders dirty binders' dirty'.
  induction posArray as [|pos posArray IH]; intros binders dirty binders' dirty'; simpl.
  - intros [= <- <-]. split; [apply binders_frame_refl|]. by rewrite orb_false_r.
  - destruct (ProgramConfiguration.update_binders _ _ _ _ _ _ _ _)
      as [[binders1 dirty1]|] eqn:Hbinders; simpl; [|done].
    intros Hrest.
    apply update_binders_frame in Hbinders as [Hframe1 ->].
    apply IH in Hrest as [Hframe2 ->].
    split.
    + eapply binders_frame_trans.
      * eapply binders_frame_weaken; [|exact Hframe1].
        intros i Hi. exists pos. split; [by left|done].
      * eapply binders_frame_weaken; [|exact Hframe2].
        intros i (pos' & Hpos' & Hi). exists pos'. split; [by right|done].
    + destruct (any_state_dependent binders) eqn:Hsd; [by destruct dirty|].
      rewrite (binders_frame_unchanged _ _ _ Hframe1 Hsd), Hsd.
      by destruct dirty, posArray.
Qed.

Lemma update_states_frame pack idMap vtLayer layer imagePositions featureStates binders
    dirty binders' dirty' :
  ProgramConfiguration.update_states pack idMap vtLayer layer imagePositions featureStates
    binders dirty = Some (binders', dirty') →
  binders_frame (in_recorded_slice idMap featureStates) binders binders' ∧
  dirty' = dirty || (some_id_recorded idMap featureStates && any_state_dependent binders) ∧
  (some_id_recorded idMap featureStates = false → binders' = binders).
Proof.
  revert binders dirty binders' dirty'.
  induction featureStates as [|[id featureState] featureStates IH];
    intros binders dirty binders' dirty'; simpl.
  - intros [= <- <-]. split; [apply binders_frame_refl|]. by rewrite orb_false_r.
  - assert (∀ i, in_recorded_slice idMap featureStates i →
                 in_recorded_slice idMap ((id, featureState) :: featureStates) i) as Htail.
    { intros i (id' & featureState' & posArray & pos & Hin & Hrest).
      exists id', featureState', posArray, pos. split; [by right|done]. }
    unfold member.
    destruct (idMap !! id) as [[|pos posArray]|] eqn:Hid;
      [| |destruct (inherited id); [done|]].
    + simpl. intros Hrest. apply IH in Hrest as (Hframe & -> & Hsame).
      split; [|split; [done|done]].
      eapply binders_frame_weaken; [exact Htail|exact Hframe].
    + destruct (ProgramConfiguration.update_positions _ _ _ _ _ _ _ _)
        as [[binders1 dirty1]|] eqn:Hpositions; simpl; [|done].
      intros Hrest.
      apply update_positions_frame in Hpositions as [Hframe1 ->].
      apply IH in Hrest as (Hframe2 & -> & Hsame).
      split; [|split; [|done]].
      * eapply binders_frame_trans.
        -- eapply binders_frame_weaken; [|exact Hframe1].
           intros i (pos' & Hpos' & Hi).
           exists id, featureState, (pos :: posArray), pos'. split; [by left|done].
        -- eapply binders_frame_weaken; [exact Htail|exact Hframe2].
      * destruct (any_state_dependent binders) eqn:Hsd; [by destruct dirty|].
        rewrite (binders_frame_unchanged _ _ _ Hframe1 Hsd), Hsd.
        by destruct dirty, (some_id_recorded idMap featureStates).
    + intros Hrest. apply IH in Hrest as (Hframe & -> & Hsame).
      split; [|split; [done|done]].
      eapply binders_frame_weaken; [exact Htail|exact Hframe].
Qed.

Lemma binders_frame_expressions slice layer l1 l2 :
  binders_frame slice l1 l2 →
  Forall (λ entry, state_dependent entry.2 = true →
                   is_Some (Layer.paint_expression entry.1 layer)) l1 →
  Forall (λ entry, state_dependent entry.2 = true →
                   is_Some (Layer.paint_expression entry.1 layer)) l2.
Proof.
  induction 1 as [|x y l1 l2 [Hxy Hframe] _ IH]; [done|].
  rewrite !Forall_cons. intros [Hx Hl1]. split; [|by apply IH].
  intros Hsd. rewrite <- Hxy. apply Hx. by eapply binder_frame_state_dependent.
Qed.

Lemma image_member_not_Inherited positions value :
  (∀ name, value = VString name → inherited name = false) →
  image_member positions value ≠ Inherited.
Proof.
  unfold image_member, member. destruct value as [n|c|name]; [done..|].
  intros Hname. destruct (positions !! name); [done|].
  by rewrite (Hname name eq_refl).
Qed.

Lemma CrossFadedCompositeBinder_update_total start end_ feature featureState
    imagePositions this :
  (∀ zoom name,
     Expression.evaluate (CrossFadedCompositeBinder.expression this) zoom feature
       (Some featureState) = VString name →
     inherited name = false) →
  is_Some (CrossFadedCompositeBinder.updatePaintArray start end_ feature featureState
             imagePositions this).
Proof.
  intros Hnames. unfold CrossFadedCompositeBinder.updatePaintArray.
  destruct imagePositions as [positions|]; simpl; [|by eexists].
  set (value := Expression.evaluate (CrossFadedCompositeBinder.expression this)).
  pose proof (image_member_not_Inherited positions
                (value (CrossFadedCompositeBinder.zoom this - 1)%float feature
                   (Some featureState)) (Hnames _)) as Hmin.
  pose proof (image_member_not_Inherited positions
                (value (CrossFadedCompositeBinder.zoom this) feature (Some featureState))
                (Hnames _)) as Hmid.
  pose proof (image_member_not_Inherited positions
                (value (CrossFadedCompositeBinder.zoom this + 1)%float feature
                   (Some featureState)) (Hnames _)) as Hmax.
  destruct (image_member positions
              (value (CrossFadedCompositeBinder.zoom this - 1)%float feature
                 (Some featureState))); [|done|by eexists].
  destruct (image_member positions
              (value (CrossFadedCompositeBinder.zoom this) feature (Some featureState)));
    [|done|by eexists].
  destruct (image_member positions
              (value (CrossFadedCompositeBinder.zoom this + 1)%float feature
                 (Some featureState))); [|done|by eexists].
  destruct (for_range _ _ _ _). by eexists.
Qed.

Lemma update_binders_total pack layer pos feature featureState imagePositions binders
    dirty :
  (∀ property expression zoom name,
     Layer.paint_expression property layer = Some expression →
     Expression.evaluate expression zoom feature (Some featureState) = VString name →
     inherited name = false) →
  Forall (λ entry, state_dependent entry.2 = true →
                   is_Some (Layer.paint_expression entry.1 layer)) binders →
  is_Some (ProgramConfiguration.update_binders pack layer pos feature featureState
             imagePositions binders dirty).
Proof.
  intros Hnames Hlayer. revert dirty.
  induction Hlayer as [|[property binder] binders Hvalue _ IH]; intros dirty;
    simpl; [by eexists|].
  assert (is_Some (ProgramConfiguration.update_binder pack layer pos feature featureState
                     imagePositions property binder)) as [[binder' touched] ->].
  { unfold ProgramConfiguration.update_binder. unfold state_dependent in Hvalue.
    simpl in Hvalue.
    destruct (Binder.expression binder) as [expression|] eqn:Hexpression;
      [|by eexists].
    destruct (Expression.isStateDependent expression); [|by eexists].
    destruct (Hvalue eq_refl) as [value Hpaint]. rewrite Hpaint. simpl.
    destruct binder as [b|b|b|b|b]; simpl; try by eexists.
    destruct (CrossFadedCompositeBinder_update_total (start pos) (end_ pos) feature
                featureState imagePositions
                (CrossFadedCompositeBinder.with_expression b value)) as [b' ->];
      [|by eexists].
    intros zoom name. simpl. by apply (Hnames property value). }
  simpl. destruct (IH (touched || dirty)) as [[binders' dirty'] ->]. by eexists.
Qed.

Lemma update_positions_total pack vtLayer layer featureState imagePositions posArray
    binders dirty :
  (∀ property expression zoom feature name,
     Layer.paint_expression property layer = Some expression →
     Expression.evaluate expression zoom feature (Some featureState) = VString name →
     inherited name = false) →
  Forall (λ entry, state_dependent entry.2 = true →
                   is_Some (Layer.paint_expression entry.1 layer)) binders →
  is_Some (ProgramConfiguration.update_positions pack vtLayer layer featureState
             imagePositions posArray binders dirty).
Proof.
  intros Hnames. revert binders dirty.
  induction posArray as [|pos posArray IH]; intros binders dirty Hlayer; simpl;
    [by eexists|].
  destruct (update_binders_total pack layer pos (vtLayer (index pos)) featureState
              imagePositions binders dirty) as [[binders1 dirty1] Hbinders];
    [by eauto|done|].
  rewrite Hbinders. simpl. apply IH.
  apply update_binders_frame in Hbinders as [Hframe _].
  by eapply binders_frame_expressions.
Qed.

Lemma update_states_total pack idMap vtLayer layer imagePositions featureStates binders
    dirty :
  (∀ id featureState, (id, featureState) ∈ featureStates → member id idMap ≠ Inherited) →
  (∀ property expression zoom feature featureState name,
     Layer.paint_expression property layer = Some expression →
     Expression.evaluate expression zoom feature (Some featureState) = VString name →
     inherited name = false) →
  Forall (λ entry, state_dependent entry.2 = true →
                   is_Some (Layer.paint_expression entry.1 layer)) binders →
  is_Some (ProgramConfiguration.update_states pack idMap vtLayer layer imagePositions
             featureStates binders dirty).
Proof.
  intros Hids Hnames. revert binders dirty.
  induction featureStates as [|[id featureState] featureStates IH];
    intros binders dirty Hlayer; simpl; [by eexists|].
  assert (∀ id' featureState',
            (id', featureState') ∈ featureStates → member id' idMap ≠ Inherited) as Htail.
  { intros id' featureState' Hin. apply (Hids id' featureState'). by right. }
  pose proof (Hids id featureState ltac:(by left)) as Hid.
  destruct (member id idMap) as [posArray| |]; [|done|by apply IH].
  destruct (update_positions_total pack vtLayer layer featureState imagePositions posArray
              binders dirty) as [[binders1 dirty1] Hpositions]; [by eauto|done|].
  rewrite Hpositions. simpl. apply IH; [done|].
  apply update_positions_frame in Hpositions as [Hframe _].
  by eapply binders_frame_expressions.
Qed.

(** C2. When [updatePaintArrays] returns, it has left the feature-id map, the
    buffer offset, the cache key and the buffer list alone; a binder that is
    not state-dependent (a [ConstantBinder] and a [CrossFadedConstantBinder]
    never are) is exactly as it was; every paint array of every binder keeps
    its layout, its length and each element at an index outside the slices
    recorded for the ids of [featureStates]; and the result is true exactly
    when some id has a record and some binder is state-dependent, so it is
    true whenever a binder changed. It does return when the live layer has an
    expression for the property of every state-dependent binder, and neither
    an id of [featureStates] without entry in the feature-id map nor a pattern
    name an expression of the layer gives is a name every object inherits
    (for such a name the lookup finds the inherited member, and the call
    throws). *)
Theorem updatePaintArrays_rewrites_recorded_slices_only
    (pack : Encoder) (featureStates : list (string * FeatureState))
    (vtLayer : nat → Feature.t) (layer : Layer.t) (imagePositions : ImagePositions)
    (this : ProgramConfiguration.t) :
  (∀ after dirty,
     ProgramConfiguration.updatePaintArrays pack featureStates vtLayer layer imagePositions
       this = Some (after, dirty) →
     ProgramConfiguration._idMap after = ProgramConfiguration._idMap this ∧
     ProgramConfiguration._bufferOffset after = ProgramConfiguration._bufferOffset this ∧
     ProgramConfiguration.cacheKey after = ProgramConfiguration.cacheKey this ∧
     ProgramConfiguration._buffers after = ProgramConfiguration._buffers this ∧
     Forall2
       (λ entry entry',
          entry.1 = entry'.1 ∧
          match entry.2 with
          | Binder.Constant _ | Binder.CrossFadedConstant _ => entry'.2 = entry.2
          | _ => state_dependent entry.2 = false → entry'.2 = entry.2
          end ∧
          Forall2
            (array_frame (in_recorded_slice (ProgramConfiguration._idMap this) featureStates))
            (Binder.paintArrays entry.2) (Binder.paintArrays entry'.2))
       (ProgramConfiguration.binders this) (ProgramConfiguration.binders after) ∧
     dirty = some_id_recorded (ProgramConfiguration._idMap this) featureStates
             && any_state_dependent (ProgramConfiguration.binders this) ∧
     (ProgramConfiguration.binders after ≠ ProgramConfiguration.binders this →
      dirty = true)) ∧
  (Forall (λ entry, state_dependent entry.2 = true →
                    is_Some (Layer.paint_expression entry.1 layer))
     (ProgramConfiguration.binders this) →
   (∀ id featureState,
      (id, featureState) ∈ featureStates →
      member id (ProgramConfiguration._idMap this) ≠ Inherited) →
   (∀ property expression zoom feature featureState name,
      Layer.paint_expression property layer = Some expression →
      Expression.evaluate expression zoom feature (Some featureState) = VString name →
      inherited name = false) →
   is_Some (ProgramConfiguration.updatePaintArrays pack featureStates vtLayer layer
              imagePositions this)).
Proof.
  unfold ProgramConfiguration.updatePaintArrays. split.
  - intros after dirty.
    destruct (ProgramConfiguration.update_states _ _ _ _ _ _ _ _)
      as [[binders' dirty']|] eqn:Hstates; simpl; [|done].
    intros [= <- <-]. simpl.
    apply update_states_frame in Hstates as (Hframe & Hdirty & Hsame).
    simpl in Hdirty. repeat (split; [done|]). split; [|split; [done|]].
    + eapply Forall2_impl; [exact Hframe|].
      intros entry entry' [Hproperty Hbinder]. split; [done|]. split.
      * pose proof (binder_frame_unchanged _ _ _ Hbinder) as Hbinder'.
        destruct (entry.2); auto.
      * by apply binder_frame_arrays.
    + intros Hchanged. rewrite Hdirty.
      destruct (some_id_recorded _ _) eqn:Hrecorded; [|by destruct Hchanged; auto].
      destruct (any_state_dependent _) eqn:Hsd; [done|].
      destruct Hchanged. by eapply binders_frame_unchanged.
  - intros Hlayer Hids Hnames.
    destruct (update_states_total pack (ProgramConfiguration._idMap this) vtLayer layer
                imagePositions featureStates (ProgramConfiguration.binders this) false
                Hids Hnames Hlayer) as [[binders' dirty'] ->].
    by eexists.
Qed.

Lemma updatePaintArrays_rewrites_recorded_slices_only_witness :
  snd <$> ProgramConfiguration.updatePaintArrays Examples.pack
            [("7", [("hover", VNumber 1)])] Examples.vtLayer Examples.hover_layer
            (Some Examples.atlas) Examples.hover_populated
  = Some true.
Proof.
  destruct (updatePaintArrays_rewrites_recorded_slices_only Examples.pack
              [("7", [("hover", VNumber 1)])] Examples.vtLayer Examples.hover_layer
              (Some Examples.atlas) Examples.hover_populated) as [Hframe Hreturns].
  destruct Hreturns as [[after dirty] Hresult].
  { apply Forall_cons. split; [intros _; by eexists|].
    apply Forall_cons. split; [intros [=]|]. apply Forall_nil_2. }
  { intros id featureState Hin. apply list_elem_of_singleton in Hin.
    inversion Hin. vm_compute. discriminate. }
  { intros property expression zoom feature featureState name Hpaint Hvalue.
    unfold Layer.paint_expression, Examples.hover_layer in Hpaint.
    cbn [Layer.paint object_get] in Hpaint.
    destruct (String.eqb "fill-opacity" property).
    - injection Hpaint as <-. simpl in Hvalue. by destruct featureState.
    - by destruct (String.eqb "fill-color" property). }
  rewrite Hresult. simpl.
  destruct (Hframe after dirty Hresult) as (_ & _ & _ & _ & _ & Hdirty & _).
  rewrite Hdirty. reflexivity.
Defined.

(** ** Scenarios *)

(** A composite numeric property at zoom 5 with value function [f(z) = z]
    stores the pair (5, 6) for every vertex of a feature. *)
Example composite_stores_min_and_max :
  StructArray.elements
    (CompositeExpressionBinder.paintVertexArray
       (CompositeExpressionBinder.populatePaintArray Examples.pack 2
          (Examples.feature_with None) Examples.composite_binder))
  = [[5%float; 6%float]; [5%float; 6%float]].
Proof. reflexivity. Qed.

(** A constant colour and a source-driven number, fed three features of one
    vertex each and uploaded: the constant binder has no array and no buffer,
    the source binder has three elements and one buffer. *)
Example constant_and_source_after_upload :
  let populated :=
    populate_all Examples.pack
      [ Examples.call 1 (Some (IdNumber 1)) 0 None;
        Examples.call 2 (Some (IdNumber 2)) 1 None;
        Examples.call 3 (Some (IdNumber 3)) 2 None ]
      (default ProgramConfiguration.new
         (ProgramConfiguration.createDynamic Examples.hover_layer 5%float (λ _, true))) in
  let uploaded := (ProgramConfiguration.upload populated Context.initial).1 in
  (λ '(property, binder),
     (property, StructArray.length <$> Binder.paintArrays binder,
      VertexBuffer.handle <$> held_buffers binder))
    <$> ProgramConfiguration.binders uploaded
  = [("fill-opacity", [3], [0]); ("fill-color", [], [])] ∧
  ProgramConfiguration.defines uploaded = ["#define HAS_UNIFORM_u_color"] ∧
  length (ProgramConfiguration.getPaintVertexBuffers uploaded) = 1.
Proof. repeat split; reflexivity. Qed.

(** A state change of the feature with id 7 rewrites its two vertices and
    leaves those of the other feature. *)
Example update_rewrites_the_slice_of_feature_7 :
  (λ '(after, dirty),
     (concat (Binder.paintArrays <$> (snd <$> ProgramConfiguration.binders after)), dirty))
    <$> ProgramConfiguration.updatePaintArrays Examples.pack
          [("7", [("hover", VNumber 1)])] Examples.vtLayer Examples.hover_layer
          (Some Examples.atlas) Examples.hover_populated
  = Some ([StructArray.mk StructArray.StructArrayLayout1f4
             [[1%float]; [1%float]; [0%float]; [0%float]]], true).
Proof. reflexivity. Qed.

(** * Further properties of the code *)

(** ** Attribute names and layouts *)

Lemma dashes_to_underscores_no_dash (s : string) : has_dash (dashes_to_underscores s) = false.
Proof.
  induction s as [|c s IH]; simpl; [done|]. rewrite IH, orb_false_r.
  destruct (Ascii.eqb c "-") eqn:Hc; [done|exact Hc].
Qed.

Lemma object_get_elem {A} (key : string) (object : list (string * A)) (v : A) :
  object_get key object = Some v → (key, v) ∈ object.
Proof.
  induction object as [|[k w] object IH]; simpl; [done|].
  destruct (String.eqb k key) eqn:Hk.
  - intros [= ->]. apply String.eqb_eq in Hk as ->. by left.
  - intros Hget. right. by apply IH.
Qed.

(** X1. For a property name with a hyphen, as the paint properties have,
    [paintAttributeName] returns at least one name, and every name it returns
    is free of hyphens, so that [a_<name>] and [u_<name>] are shader
    identifiers. (A name without hyphen can be one that the exception table
    inherits as an object, such as [constructor].) *)
Theorem paintAttributeName_names_have_no_dash (property type : string) :
  has_dash property = true →
  paintAttributeName property type ≠ [] ∧
  Forall (λ name, has_dash name = false) (paintAttributeName property type).
Proof.
  intros _. unfold paintAttributeName.
  destruct (object_get property attributeNameExceptions) as [names|] eqn:Hget.
  - apply object_get_elem in Hget.
    assert (Forall (λ entry : string * list string,
                      entry.2 ≠ [] ∧ Forall (λ name, has_dash name = false) entry.2)
              attributeNameExceptions) as Htable.
    { unfold attributeNameExceptions. repeat constructor; done. }
    rewrite Forall_forall in Htable. exact (Htable _ Hget).
  - split; [done|]. apply Forall_singleton, dashes_to_underscores_no_dash.
Qed.

Lemma paintAttributeName_names_have_no_dash_witness :
  paintAttributeName "fill-outline-color" "fill" ≠ [] ∧
  Forall (λ name, has_dash name = false) (paintAttributeName "fill-outline-color" "fill").
Proof.
  exact (paintAttributeName_names_have_no_dash "fill-outline-color" "fill" eq_refl).
Defined.

Lemma prefix_app (pattern s : string) : String.prefix pattern (pattern +:+ s) = true.
Proof.
  induction pattern as [|c pattern IH]; simpl; [by destruct s|].
  by destruct (ascii_dec c c).
Qed.

Lemma substring_all (s : string) : String.substring 0 (String.length s) s = s.
Proof. induction s as [|c s IH]; simpl; [done|]. by rewrite IH. Qed.

Lemma substring_app (pattern s : string) :
  String.substring (String.length pattern)
    (String.length (pattern +:+ s) - String.length pattern) (pattern +:+ s) = s.
Proof.
  induction pattern as [|c pattern IH]; simpl.
  - rewrite Nat.sub_0_r. apply substring_all.
  - exact IH.
Qed.

Lemma remove_first_at_prefix (pattern s : string) :
  String.prefix pattern s = true →
  remove_first pattern s
  = String.substring (String.length pattern) (String.length s - String.length pattern) s.
Proof. destruct s; simpl; by intros ->. Qed.

Lemma remove_first_prefix (pattern s : string) : remove_first pattern (pattern +:+ s) = s.
Proof.
  rewrite remove_first_at_prefix by apply prefix_app. apply substring_app.
Qed.

(** X2. For a property that is not in the exception table and that starts with
    the layer type and a hyphen, [paintAttributeName] gives the single name
    that is the rest of the property with its hyphens turned to underscores. *)
Theorem paintAttributeName_strips_layer_type (type rest : string) :
  object_get ((type +:+ "-") +:+ rest) attributeNameExceptions = None →
  paintAttributeName ((type +:+ "-") +:+ rest) type = [dashes_to_underscores rest].
Proof.
  intros Hget. unfold paintAttributeName. rewrite Hget.
  by rewrite remove_first_prefix.
Qed.

Lemma paintAttributeName_strips_layer_type_witness :
  paintAttributeName "circle-stroke-width" "circle" = ["stroke_width"].
Proof.
  apply (paintAttributeName_strips_layer_type "circle" "stroke-width"). reflexivity.
Defined.

Lemma layoutType_None (property type : string) (binderType : BinderType) :
  layoutType property type binderType = None ↔
  property ≠ "line-pattern" ∧ property ≠ "fill-pattern" ∧
  type ≠ "color" ∧ type ≠ "number".
Proof.
  unfold layoutType, getLayoutException.
  destruct (String.eqb_spec property "line-pattern") as [->|Hline];
    [split; [done|by intros (? & _)]|].
  destruct (String.eqb_spec property "fill-pattern") as [->|Hfill];
    [split; [done|by intros (_ & ? & _)]|].
  destruct (String.eqb_spec type "color") as [->|Hcolor];
    [split; [done|by intros (_ & _ & ? & _)]|].
  destruct (String.eqb_spec type "number") as [->|Hnumber];
    [split; [done|by intros (_ & _ & _ & ?)]|].
  done.
Qed.

(** ** What [createDynamic] binds *)

Lemma layoutType_None_any_binderType property type binderType binderType' :
  layoutType property type binderType = None → layoutType property type binderType' = None.
Proof.
  unfold layoutType. destruct (getLayoutException property); [done|].
  by destruct (String.eqb type "color"), (String.eqb type "number").
Qed.

Lemma key_fragment_None filterProperties property value :
  key_fragment filterProperties (property, value) = None ↔
  ∃ prop v,
    value = PossiblyEvaluatedPropertyValue prop v ∧ filterProperties property = true ∧
    Property.supportsPropertyExpression prop = true ∧ (∀ c, v ≠ constant c) ∧
    layoutType property (Property.specification_type prop) source_binder = None.
Proof.
  unfold key_fragment. split.
  - destruct (filterProperties property) eqn:Hfilter; simpl; [|done].
    destruct value as [c|prop v]; [done|].
    destruct (Property.supportsPropertyExpression prop) eqn:Hsupports; simpl; [|done].
    destruct (String.eqb (Property.binder prop) "cross-faded"), v as [c|e|e]; try done;
      destruct (layoutType _ _ _) eqn:Hlayout; simpl; try done;
      intros _; exists prop; eexists; (split; [done|]); (split; [done|]);
      (split; [done|]); (split; [done|]);
      by eapply layoutType_None_any_binderType.
  - intros (prop & v & -> & -> & -> & Hconstant & Hlayout). simpl.
    destruct (String.eqb (Property.binder prop) "cross-faded"), v as [c|e|e];
      try (by destruct (Hconstant c));
      by rewrite (layoutType_None_any_binderType _ _ _ _ Hlayout).
Qed.

Lemma key_fragments_None filterProperties values :
  key_fragments filterProperties values = None ↔
  Exists (λ entry, key_fragment filterProperties entry = None) values.
Proof.
  induction values as [|entry values IH]; simpl.
  - split; [done|by intros ?%Exists_nil].
  - rewrite Exists_cons, <- IH.
    destruct (key_fragment filterProperties entry), (key_fragments filterProperties values);
      split; try done; try (by auto); by intros [?|?].
Qed.

(** X3. [createDynamic] throws exactly when the layer has a paint value that
    passes the filter, supports property expressions, is not constant, is not
    of one of the two pattern properties, and whose type is neither ['color']
    nor ['number']: no paint array layout exists for it. *)
Theorem createDynamic_throws_on_unknown_type
    (layer : Layer.t) (zoom : float) (filterProperties : string → bool) :
  ProgramConfiguration.createDynamic layer zoom filterProperties = None ↔
  ∃ property prop value,
    (property, PossiblyEvaluatedPropertyValue prop value) ∈ Layer.paint layer ∧
    filterProperties property = true ∧
    Property.supportsPropertyExpression prop = true ∧
    (∀ c, value ≠ constant c) ∧
    property ≠ "line-pattern" ∧ property ≠ "fill-pattern" ∧
    Property.specification_type prop ≠ "color" ∧
    Property.specification_type prop ≠ "number".
Proof.
  pose proof (createDynamic_cacheKey layer zoom filterProperties) as Hkey.
  assert (ProgramConfiguration.createDynamic layer zoom filterProperties = None ↔
          key_fragments filterProperties (Layer.paint layer) = None) as ->.
  { destruct (ProgramConfiguration.createDynamic _ _ _), (key_fragments _ _); by simpl in *. }
  rewrite key_fragments_None, Exists_exists. split.
  - intros ([property value] & Hin & Hnone).
    apply key_fragment_None in Hnone as (prop & v & -> & ? & ? & ? & Hlayout).
    apply layoutType_None in Hlayout. by exists property, prop, v.
  - intros (property & prop & value & Hin & ? & ? & ? & Hlayout).
    exists (property, PossiblyEvaluatedPropertyValue prop value). split; [done|].
    apply key_fragment_None. exists prop, value. repeat (split; [done|]).
    by apply layoutType_None.
Qed.

Lemma object_set_fresh {A} (key : string) (v : A) (object : list (string * A)) :
  key ∉ object.*1 → object_set key v object = object ++ [(key, v)].
Proof.
  induction object as [|[k w] object IH]; simpl; [done|].
  intros Hfresh. apply not_elem_of_cons in Hfresh as [Hne Hfresh].
  destruct (String.eqb_spec k key) as [->|_]; [done|]. by rewrite IH.
Qed.

Lemma createDynamic_loop_binders layer_type zoom filterProperties values binders keys
    binders' keys' :
  NoDup values.*1 → (∀ property, property ∈ values.*1 → property ∉ binders.*1) →
  keys = binder_key <$> binders →
  ProgramConfiguration.createDynamic_loop layer_type zoom filterProperties values binders
    keys = Some (binders', keys') →
  binders'.*1 = binders.*1 ++ (filter (λ entry, is_bound filterProperties entry) values).*1 ∧
  keys' = binder_key <$> binders'.
Proof.
  revert binders keys.
  induction values as [|[property value] values IH]; intros binders keys Hnodup Hfresh Hkeys;
    simpl.
  - intros [= <- <-]. by rewrite app_nil_r.
  - rewrite fmap_cons in Hnodup. apply NoDup_cons in Hnodup as [Hproperty Hnodup].
    assert (∀ p, p ∈ values.*1 → p ∉ binders.*1) as Hfresh'.
    { intros p Hp. apply Hfresh. by right. }
    assert (property ∉ binders.*1) as Hnew by (apply Hfresh; by left).
    assert (∀ binder,
              (∀ p, p ∈ values.*1 → p ∉ (binders ++ [(property, binder)]).*1)) as Hfresh''.
    { intros binder p Hp. rewrite fmap_app. simpl.
      intros [Hold|Hhere%list_elem_of_singleton]%elem_of_app;
        [by apply (Hfresh' p)|by subst]. }
    assert ((filter (λ entry, is_bound filterProperties entry)
               ((property, value) :: values)).*1
            = (if is_bound filterProperties (property, value) then [property] else [])
                ++ (filter (λ entry, is_bound filterProperties entry) values).*1) as ->.
    { rewrite filter_cons.
      destruct (is_bound filterProperties (property, value)); by case_decide. }
    unfold is_bound at 1. simpl.
    destruct (filterProperties property); simpl; [|by apply IH].
    destruct value as [v|prop value]; simpl; [by apply IH|].
    destruct (Property.supportsPropertyExpression prop); simpl; [|by apply IH].
    destruct (String.eqb (Property.binder prop) "cross-faded"), value as [c|e|e];
      try (destruct (layoutType _ _ _); simpl; [|done]);
      rewrite object_set_fresh by done;
      (intros Hloop; apply IH in Hloop as [-> ->];
       [split; [by rewrite fmap_app, <- app_assoc|done]
       |done|by apply Hfresh''
       |by rewrite Hkeys, fmap_app]).
Qed.

(** X4. For a layer whose paint properties are distinct, the configuration
    [createDynamic] builds has a binder for exactly the paint values that pass
    the filter, are possibly-evaluated property values and support property
    expressions, in the layer's order; and its cache key is the sorted
    concatenation of one fragment per binder: [/u_] and the property for a
    constant or cross-faded constant binder, [/z_] for a composite binder,
    [/a_] for a source or cross-faded composite binder. *)
Theorem createDynamic_binds_and_keys
    (layer : Layer.t) (zoom : float) (filterProperties : string → bool)
    (this : ProgramConfiguration.t) :
  NoDup (Layer.paint layer).*1 →
  ProgramConfiguration.createDynamic layer zoom filterProperties = Some this →
  (ProgramConfiguration.binders this).*1
  = (filter (λ entry, is_bound filterProperties entry) (Layer.paint layer)).*1 ∧
  ProgramConfiguration.cacheKey this
  = join (sort_keys (binder_key <$> ProgramConfiguration.binders this)).
Proof.
  intros Hnodup. unfold ProgramConfiguration.createDynamic.
  destruct (ProgramConfiguration.createDynamic_loop _ _ _ _ _ _) as [[binders keys]|] eqn:Hloop;
    simpl; [|done].
  intros [= <-]. simpl.
  apply createDynamic_loop_binders in Hloop as [Hbinders ->]; [done|done| |done].
  intros property _. apply not_elem_of_nil.
Qed.

Lemma createDynamic_binds_and_keys_witness :
  (ProgramConfiguration.binders Examples.fill_configuration).*1
  = ["fill-opacity"; "fill-color"; "fill-pattern"] ∧
  ProgramConfiguration.cacheKey Examples.fill_configuration
  = join (sort_keys ["/a_fill-opacity"; "/u_fill-color"; "/a_fill-pattern"]).
Proof.
  apply (createDynamic_binds_and_keys Examples.fill_layer 5%float (λ _, true)
           Examples.fill_configuration).
  - apply (bool_decide_unpack _). vm_compute. exact I.
  - reflexivity.
Defined.

(** ** What population writes *)

Lemma SourceExpressionBinder_populate_elements pack newLength feature this :
  let after := SourceExpressionBinder.populatePaintArray pack newLength feature this in
  StructArray.layout (SourceExpressionBinder.paintVertexArray after)
  = StructArray.layout (SourceExpressionBinder.paintVertexArray this) ∧
  StructArray.elements (SourceExpressionBinder.paintVertexArray after)
  = StructArray.elements (SourceExpressionBinder.paintVertexArray this)
      ++ replicate
           (newLength - StructArray.length (SourceExpressionBinder.paintVertexArray this))
           (source_element pack this feature None) ∧
  source_element pack after = source_element pack this.
Proof.
  unfold SourceExpressionBinder.populatePaintArray, source_element, StructArray.reserve,
    for_range.
  destruct (is_color (SourceExpressionBinder.type this)) eqn:Hcolor; simpl;
    rewrite for_loop_emplaceBack, Hcolor; by simpl.
Qed.

Lemma CompositeExpressionBinder_populate_elements pack newLength feature this :
  let after := CompositeExpressionBinder.populatePaintArray pack newLength feature this in
  StructArray.layout (CompositeExpressionBinder.paintVertexArray after)
  = StructArray.layout (CompositeExpressionBinder.paintVertexArray this) ∧
  StructArray.elements (CompositeExpressionBinder.paintVertexArray after)
  = StructArray.elements (CompositeExpressionBinder.paintVertexArray this)
      ++ replicate
           (newLength
              - StructArray.length (CompositeExpressionBinder.paintVertexArray this))
           (composite_element pack this feature None) ∧
  composite_element pack after = composite_element pack this.
Proof.
  unfold CompositeExpressionBinder.populatePaintArray, composite_element,
    StructArray.reserve, for_range.
  destruct (is_color (CompositeExpressionBinder.type this)) eqn:Hcolor; simpl;
    rewrite for_loop_emplaceBack, Hcolor; by simpl.
Qed.

Lemma CrossFadedCompositeBinder_populate_elements length feature imagePositions this :
  let after :=
    CrossFadedCompositeBinder.populatePaintArray length feature imagePositions this in
  let image := resolved_image this feature None imagePositions in
  let zoom := CrossFadedCompositeBinder.zoom this in
  after = this ∨
  ∃ imageMin imageMid imageMax,
    image (zoom - 1)%float = Some imageMin ∧ image zoom = Some imageMid ∧
    image (zoom + 1)%float = Some imageMax ∧
    after
    = CrossFadedCompositeBinder.with_arrays this
        (StructArray.mk
           (StructArray.layout (CrossFadedCompositeBinder.zoomInPaintVertexArray this))
           (StructArray.elements (CrossFadedCompositeBinder.zoomInPaintVertexArray this)
              ++ replicate
                   (length - StructArray.length
                               (CrossFadedCompositeBinder.zoomInPaintVertexArray this))
                   (CrossFadedCompositeBinder.pattern_element imageMid imageMin)))
        (StructArray.mk
           (StructArray.layout (CrossFadedCompositeBinder.zoomOutPaintVertexArray this))
           (StructArray.elements (CrossFadedCompositeBinder.zoomOutPaintVertexArray this)
              ++ replicate
                   (length - StructArray.length
                               (CrossFadedCompositeBinder.zoomInPaintVertexArray this))
                   (CrossFadedCompositeBinder.pattern_element imageMid imageMax))).
Proof.
  intros after image zoom.
  destruct (image (zoom - 1)%float) as [imageMin|] eqn:Hmin;
    [|left; apply CrossFadedCompositeBinder_populate_missing; auto].
  destruct (image zoom) as [imageMid|] eqn:Hmid;
    [|left; apply CrossFadedCompositeBinder_populate_missing; auto].
  destruct (image (zoom + 1)%float) as [imageMax|] eqn:Hmax;
    [|left; apply CrossFadedCompositeBinder_populate_missing; auto].
  right. exists imageMin, imageMid, imageMax. repeat (split; [done|]).
  by apply CrossFadedCompositeBinder_populate_present.
Qed.

Lemma populate_binder_appends pack newLength feature imagePositions binder :
  Forall2
    (λ arr arr',
       StructArray.layout arr' = StructArray.layout arr ∧
       StructArray.elements arr `prefix_of` StructArray.elements arr')
    (Binder.paintArrays binder)
    (Binder.paintArrays
       (Binder.populatePaintArray pack newLength feature imagePositions binder)).
Proof.
  destruct binder as [b|b|b|b|b]; simpl.
  - constructor.
  - constructor.
  - destruct (SourceExpressionBinder_populate_elements pack newLength feature b)
      as (Hlayout & Helements & _).
    repeat constructor; [done|]. rewrite Helements. by apply prefix_app_r.
  - destruct (CompositeExpressionBinder_populate_elements pack newLength feature b)
      as (Hlayout & Helements & _).
    repeat constructor; [done|]. rewrite Helements. by apply prefix_app_r.
  - destruct (CrossFadedCompositeBinder_populate_elements newLength feature imagePositions b)
      as [->|(imageMin & imageMid & imageMax & _ & _ & _ & ->)].
    + by repeat constructor.
    + simpl. repeat constructor; by apply prefix_app_r.
Qed.

(** X5. Population only appends: after any sequence of [populatePaintArrays]
    calls every binder is still bound to its property, and every paint array
    has its layout and starts with the elements it had before, whatever the
    requested lengths and image positions are. *)
Theorem populatePaintArrays_only_appends
    (pack : Encoder) (calls : list PopulateCall) (this : ProgramConfiguration.t) :
  Forall2
    (λ entry entry',
       entry.1 = entry'.1 ∧
       Forall2
         (λ arr arr',
            StructArray.layout arr' = StructArray.layout arr ∧
            StructArray.elements arr `prefix_of` StructArray.elements arr')
         (Binder.paintArrays entry.2) (Binder.paintArrays entry'.2))
    (ProgramConfiguration.binders this)
    (ProgramConfiguration.binders (populate_all pack calls this)).
Proof.
  revert this. induction calls as [|call calls IH]; intros this; simpl.
  - apply Forall_Forall2_diag, Forall_forall. intros entry _. split; [done|].
    apply Forall_Forall2_diag, Forall_forall. by intros arr _.
  - pose proof (IH (populate pack call this)) as Hrest.
    assert (Forall2
              (λ entry entry',
                 entry.1 = entry'.1 ∧
                 Forall2
                   (λ arr arr',
                      StructArray.layout arr' = StructArray.layout arr ∧
                      StructArray.elements arr `prefix_of` StructArray.elements arr')
                   (Binder.paintArrays entry.2) (Binder.paintArrays entry'.2))
              (ProgramConfiguration.binders this)
              (ProgramConfiguration.binders (populate pack call this))) as Hstep.
    { unfold populate. rewrite populatePaintArrays_binders.
      apply Forall2_fmap_r, Forall_Forall2_diag, Forall_forall.
      intros [property binder] _. split; [done|]. apply populate_binder_appends. }
    eapply Forall2_trans; cycle 1; [exact Hstep|exact Hrest|].
    intros x y z [Hxy Axy] [Hyz Ayz]. split; [congruence|].
    eapply Forall2_trans; cycle 1; [exact Axy|exact Ayz|].
    intros a1 a2 a3 [Hl12 Hp12] [Hl23 Hp23]. split; [congruence|by etrans].
Qed.

Lemma populate_track pack n newLength feature imagePositions binder :
  n ≤ newLength → arrays_track n binder →
  arrays_track newLength
    (Binder.populatePaintArray pack newLength feature imagePositions binder).
Proof.
  intros Hle Htrack. destruct binder as [b|b|b|b|b]; simpl in *.
  - done.
  - done.
  - rewrite SourceExpressionBinder_populate_length. lia.
  - rewrite CompositeExpressionBinder_populate_length. lia.
  - destruct Htrack as [Hequal Hwithin].
    destruct (CrossFadedCompositeBinder_populate_cases newLength feature imagePositions b)
      as [[_ ->]|(_ & _ & _ & Hzi & Hzo)]; [split; [done|lia]|].
    simpl in Hzi, Hzo. lia.
Qed.

Lemma populate_all_track pack calls this bound :
  Forall (λ entry, arrays_track (ProgramConfiguration._bufferOffset this) entry.2)
    (ProgramConfiguration.binders this) →
  Sorted le (ProgramConfiguration._bufferOffset this
               :: (call_newLength <$> calls) ++ [bound]) →
  let after := populate_all pack calls this in
  Forall (λ entry, arrays_track (ProgramConfiguration._bufferOffset after) entry.2)
    (ProgramConfiguration.binders after) ∧
  ProgramConfiguration._bufferOffset after ≤ bound.
Proof.
  revert this. induction calls as [|call calls IH]; intros this Htrack Hsorted; simpl in *.
  - split; [done|]. apply Sorted_inv in Hsorted as [_ Hhd]. by inversion Hhd.
  - apply Sorted_inv in Hsorted as [Hsorted Hhd]. inversion Hhd; subst.
    apply IH; [|done].
    unfold populate at 2. rewrite populatePaintArrays_binders. simpl.
    apply Forall_fmap. eapply Forall_impl; [exact Htrack|].
    intros [property binder]. simpl. by apply populate_track.
Qed.

Lemma createDynamic_track layer zoom filterProperties this :
  ProgramConfiguration.createDynamic layer zoom filterProperties = Some this →
  Forall (λ entry, arrays_track (ProgramConfiguration._bufferOffset this) entry.2)
    (ProgramConfiguration.binders this).
Proof.
  intros Hcreate. apply createDynamic_fresh in Hcreate as (Hfresh & _ & ->).
  eapply Forall_impl; [exact Hfresh|].
  intros [property binder] [Hwithin Hequal]. simpl.
  destruct binder as [b|b|b|b|b]; simpl in *; try done.
  - rewrite Forall_singleton in Hwithin. lia.
  - rewrite Forall_singleton in Hwithin. lia.
  - rewrite Forall_cons in Hwithin. destruct Hwithin. split; [done|lia].
Qed.

Lemma lookup_appended {A} (l : list A) (count i : nat) (x : A) :
  length l ≤ i < length l + count → (l ++ replicate count x) !! i = Some x.
Proof.
  intros Hi. rewrite lookup_app_r by lia. apply lookup_replicate_2. lia.
Qed.

Lemma populate_slice pack n newLength feature imagePositions binder i :
  arrays_track n binder → n ≤ i < newLength →
  match Binder.populatePaintArray pack newLength feature imagePositions binder with
  | Binder.Constant _ | Binder.CrossFadedConstant _ => True
  | Binder.SourceExpression b =>
      StructArray.get i (SourceExpressionBinder.paintVertexArray b)
      = Some (source_element pack b feature None)
  | Binder.CompositeExpression b =>
      StructArray.get i (CompositeExpressionBinder.paintVertexArray b)
      = Some (composite_element pack b feature None)
  | Binder.CrossFadedComposite b =>
      ∀ imageMin imageMid imageMax,
        let image := resolved_image b feature None imagePositions in
        let zoom := CrossFadedCompositeBinder.zoom b in
        image (zoom - 1)%float = Some imageMin → image zoom = Some imageMid →
        image (zoom + 1)%float = Some imageMax →
        StructArray.get i (CrossFadedCompositeBinder.zoomInPaintVertexArray b)
        = Some (CrossFadedCompositeBinder.pattern_element imageMid imageMin) ∧
        StructArray.get i (CrossFadedCompositeBinder.zoomOutPaintVertexArray b)
        = Some (CrossFadedCompositeBinder.pattern_element imageMid imageMax)
  end.
Proof.
  intros Htrack Hi. destruct binder as [b|b|b|b|b]; simpl in *.
  - done.
  - done.
  - destruct (SourceExpressionBinder_populate_elements pack newLength feature b)
      as (_ & Helements & Helement).
    unfold StructArray.get. rewrite Helements, Helement.
    apply lookup_appended. unfold StructArray.length in *. lia.
  - destruct (CompositeExpressionBinder_populate_elements pack newLength feature b)
      as (_ & Helements & Helement).
    unfold StructArray.get. rewrite Helements, Helement.
    apply lookup_appended. unfold StructArray.length in *. lia.
  - destruct Htrack as [Hequal Hwithin].
    intros imageMin imageMid imageMax. rewrite !resolved_image_populate.
    destruct (CrossFadedCompositeBinder_populate_elements newLength feature imagePositions b)
      as [Hsame|(imageMin' & imageMid' & imageMax' & Hmin' & Hmid' & Hmax' & Hafter)].
    + rewrite Hsame. intros Hmin Hmid Hmax. exfalso.
      pose proof (CrossFadedCompositeBinder_populate_present newLength feature
                    imagePositions b _ _ _ Hmin Hmid Hmax) as Hpresent.
      rewrite Hsame in Hpresent.
      apply (f_equal (λ b', StructArray.length
                              (CrossFadedCompositeBinder.zoomInPaintVertexArray b')))
        in Hpresent.
      unfold StructArray.length in *. simpl in Hpresent.
      rewrite length_app, length_replicate in Hpresent. lia.
    + rewrite Hafter. simpl. intros Hmin Hmid Hmax.
      rewrite Hmin' in Hmin. rewrite Hmid' in Hmid. rewrite Hmax' in Hmax.
      simplify_eq. unfold StructArray.get, StructArray.length in *. simpl.
      split; apply lookup_appended; lia.
Qed.

(** X6. On a configuration that [createDynamic] built, along calls whose
    requested lengths do not decrease, the slice from the previous buffer
    offset to the new length (the slice the call records for a feature with an
    id) holds the element of the call's feature: in a source binder its
    value at zoom 0, in a composite binder its values at the binder's zoom and
    one above, both without feature state, and in both arrays of a cross-faded
    binder the rectangles of its images when all three are present. *)
Theorem populatePaintArrays_fills_the_recorded_slice
    (pack : Encoder) (layer : Layer.t) (zoom : float) (filterProperties : string → bool)
    (this : ProgramConfiguration.t) (calls : list PopulateCall) (call : PopulateCall) :
  ProgramConfiguration.createDynamic layer zoom filterProperties = Some this →
  Sorted le (call_newLength <$> (calls ++ [call])) →
  let before := populate_all pack calls this in
  let after := populate pack call before in
  ∀ property binder i,
    (property, binder) ∈ ProgramConfiguration.binders after →
    ProgramConfiguration._bufferOffset before ≤ i < call_newLength call →
    match binder with
    | Binder.Constant _ | Binder.CrossFadedConstant _ => True
    | Binder.SourceExpression b =>
        StructArray.get i (SourceExpressionBinder.paintVertexArray b)
        = Some (source_element pack b (call_feature call) None)
    | Binder.CompositeExpression b =>
        StructArray.get i (CompositeExpressionBinder.paintVertexArray b)
        = Some (composite_element pack b (call_feature call) None)
    | Binder.CrossFadedComposite b =>
        ∀ imageMin imageMid imageMax,
          let image :=
            resolved_image b (call_feature call) None (call_imagePositions call) in
          let zoom := CrossFadedCompositeBinder.zoom b in
          image (zoom - 1)%float = Some imageMin → image zoom = Some imageMid →
          image (zoom + 1)%float = Some imageMax →
          StructArray.get i (CrossFadedCompositeBinder.zoomInPaintVertexArray b)
          = Some (CrossFadedCompositeBinder.pattern_element imageMid imageMin) ∧
          StructArray.get i (CrossFadedCompositeBinder.zoomOutPaintVertexArray b)
          = Some (CrossFadedCompositeBinder.pattern_element imageMid imageMax)
    end.
Proof.
  intros Hcreate Hsorted before after property binder i Hin Hi.
  pose proof (createDynamic_fresh _ _ _ _ Hcreate) as (_ & _ & Hoffset).
  destruct (populate_all_track pack calls this (call_newLength call)) as [Htrack _].
  { by eapply createDynamic_track. }
  { rewrite Hoffset. rewrite fmap_app in Hsorted. simpl in Hsorted.
    constructor; [done|].
    destruct ((call_newLength <$> calls) ++ [call_newLength call]); constructor. lia. }
  subst after. unfold populate in Hin. rewrite populatePaintArrays_binders in Hin.
  apply list_elem_of_fmap in Hin as ([property' binder'] & [= -> ->] & Hin).
  rewrite Forall_forall in Htrack. specialize (Htrack _ Hin). simpl in Htrack.
  by apply (populate_slice pack (ProgramConfiguration._bufferOffset before)).
Qed.

Lemma populatePaintArrays_fills_the_recorded_slice_witness :
  StructArray.get 3 (SourceExpressionBinder.paintVertexArray Examples.filled_source)
  = Some (source_element Examples.pack Examples.filled_source
            (Examples.feature_with (Some (IdString "b"))) None).
Proof.
  refine (populatePaintArrays_fills_the_recorded_slice Examples.pack Examples.fill_layer
            5%float (λ _, true) Examples.fill_configuration
            [Examples.call 2 (Some (IdNumber 7)) 0 (Some Examples.atlas)]
            (Examples.call 4 (Some (IdString "b")) 1 (Some Examples.atlas))
            eq_refl _ "fill-opacity" (Binder.SourceExpression Examples.filled_source) 3 _ _).
  - simpl. repeat constructor.
  - apply list_elem_of_here.
  - change (2 ≤ 3 < 4). lia.
Defined.

(** ** The feature-id map over a sequence of calls *)








(** ** What an update writes *)

Lemma for_range_emplace_get (start stop i : nat) (v : list float) (arr : StructArray.t) :
  start ≤ i < stop → i < StructArray.length arr →
  StructArray.get i (for_range start stop (λ j, StructArray.emplace j v) arr) = Some v.
Proof.
  intros Hi Hlt. unfold for_range, StructArray.get. rewrite for_loop_emplace. simpl.
  rewrite lookup_overwrite. case_decide; [|lia].
  by destruct (lookup_lt_is_Some_2 _ _ Hlt) as [x ->].
Qed.

(** X8. [updatePaintArray] of a source or composite binder overwrites every
    element the paint array has in [[start, end_)] with the element of the
    feature evaluated with its feature state: the value at zoom 0 for a
    source binder, the values at the binder's zoom and one above for a
    composite binder. *)
Theorem updatePaintArray_rewrites_the_slice
    (pack : Encoder) (start end_ i : nat) (feature : Feature.t)
    (featureState : FeatureState) :
  start ≤ i < end_ →
  (∀ this : SourceExpressionBinder.t,
     i < StructArray.length (SourceExpressionBinder.paintVertexArray this) →
     StructArray.get i
       (SourceExpressionBinder.paintVertexArray
          (SourceExpressionBinder.updatePaintArray pack start end_ feature featureState
             this))
     = Some (source_element pack this feature (Some featureState))) ∧
  (∀ this : CompositeExpressionBinder.t,
     i < StructArray.length (CompositeExpressionBinder.paintVertexArray this) →
     StructArray.get i
       (CompositeExpressionBinder.paintVertexArray
          (CompositeExpressionBinder.updatePaintArray pack start end_ feature featureState
             this))
     = Some (composite_element pack this feature (Some featureState))).
Proof.
  intros Hi. split; intros this Hlt.
  - unfold SourceExpressionBinder.updatePaintArray, source_element.
    destruct (is_color (SourceExpressionBinder.type this)); simpl;
      by apply for_range_emplace_get.
  - unfold CompositeExpressionBinder.updatePaintArray, composite_element.
    destruct (is_color (CompositeExpressionBinder.type this)); simpl;
      by apply for_range_emplace_get.
Qed.

Lemma updatePaintArray_rewrites_the_slice_witness :
  StructArray.get 1
    (SourceExpressionBinder.paintVertexArray
       (SourceExpressionBinder.updatePaintArray Examples.pack 0 2
          (Examples.feature_with (Some (IdNumber 7))) [("hover", VNumber 1)]
          (SourceExpressionBinder.with_expression Examples.filled_source Examples.hover)))
  = Some [1%float].
Proof.
  assert (0 ≤ 1 < 2) as Hi by lia.
  destruct (updatePaintArray_rewrites_the_slice Examples.pack 0 2 1
              (Examples.feature_with (Some (IdNumber 7))) [("hover", VNumber 1)] Hi)
    as [Hsource _].
  apply (Hsource (SourceExpressionBinder.with_expression Examples.filled_source
                    Examples.hover)).
  change (1 < 4). lia.
Defined.

(** ** Realizing and releasing buffers *)

Lemma upload_binder_buffers binder ctx :
  let '(binder', ctx') := Binder.upload binder ctx in
  Context.created ctx' = Context.created ctx + buffer_demand binder ∧
  Context.destroyed ctx' = Context.destroyed ctx ∧
  VertexBuffer.handle <$> held_buffers binder'
    ≡ₚ seq (Context.created ctx) (buffer_demand binder) ∧
  Binder.paintArrays binder' = Binder.paintArrays binder ∧
  Binder.defines binder' = Binder.defines binder.
Proof.
  destruct binder as [b|b|b|b|b]; simpl; repeat split; try done; try lia.
  apply perm_swap.
Qed.

Lemma upload_binders_buffers binders ctx :
  let '(binders', ctx') := ProgramConfiguration.upload_binders binders ctx in
  Context.created ctx' = Context.created ctx + buffers_demand binders ∧
  Context.destroyed ctx' = Context.destroyed ctx ∧
  held_handles binders' ≡ₚ seq (Context.created ctx) (buffers_demand binders) ∧
  Forall2 (λ entry entry',
             entry.1 = entry'.1 ∧
             Binder.paintArrays entry'.2 = Binder.paintArrays entry.2 ∧
             Binder.defines entry'.2 = Binder.defines entry.2)
    binders binders'.
Proof.
  revert ctx. induction binders as [|[property binder] binders IH]; intros ctx; simpl.
  - unfold buffers_demand. simpl. repeat split; try done; lia.
  - pose proof (upload_binder_buffers binder ctx) as Hbinder.
    destruct (Binder.upload binder ctx) as [binder' ctx1].
    destruct Hbinder as (Hcreated1 & Hdestroyed1 & Hhandles1 & Harrays & Hdefines).
    specialize (IH ctx1).
    destruct (ProgramConfiguration.upload_binders binders ctx1) as [binders' ctx'].
    destruct IH as (Hcreated & Hdestroyed & Hhandles & Hrest).
    unfold buffers_demand, held_handles in *. rewrite !fmap_cons.
    remember ((λ entry : string * Binder.t, buffer_demand entry.2) <$> binders)
      as demands.
    remember ((λ entry : string * Binder.t, VertexBuffer.handle <$> held_buffers entry.2)
                <$> binders') as handles.
    simpl.
    split; [lia|]. split; [congruence|]. split; [|by constructor].
    rewrite seq_app, Hhandles1, <- Hcreated1. by f_equiv.
Qed.

Lemma upload_buffers (this : ProgramConfiguration.t) (ctx : Context.t) :
  let after := (ProgramConfiguration.upload this ctx).1 in
  let ctx' := (ProgramConfiguration.upload this ctx).2 in
  Context.created ctx'
  = Context.created ctx + buffers_demand (ProgramConfiguration.binders this) ∧
  Context.destroyed ctx' = Context.destroyed ctx ∧
  held_handles (ProgramConfiguration.binders after)
    ≡ₚ seq (Context.created ctx) (buffers_demand (ProgramConfiguration.binders this)).
Proof.
  unfold ProgramConfiguration.upload.
  pose proof (upload_binders_buffers (ProgramConfiguration.binders this) ctx) as Hupload.
  destruct (ProgramConfiguration.upload_binders _ ctx) as [binders' ctx'].
  destruct Hupload as (Hcreated & Hdestroyed & Hhandles & _). by simpl.
Qed.

(** X9. [ProgramConfiguration.upload] realizes one buffer for every source
    and composite binder and two for every cross-faded composite binder, none
    for a constant binder; afterwards the binders hold exactly these new
    buffers, all distinct, and no buffer has been destroyed, also not one a
    binder held before. *)
Theorem upload_realizes_fresh_buffers
    (this : ProgramConfiguration.t) (ctx : Context.t) :
  let after := (ProgramConfiguration.upload this ctx).1 in
  let ctx' := (ProgramConfiguration.upload this ctx).2 in
  Context.created ctx'
  = Context.created ctx + buffers_demand (ProgramConfiguration.binders this) ∧
  Context.destroyed ctx' = Context.destroyed ctx ∧
  held_handles (ProgramConfiguration.binders after)
    ≡ₚ seq (Context.created ctx) (buffers_demand (ProgramConfiguration.binders this)) ∧
  NoDup (held_handles (ProgramConfiguration.binders after)).
Proof.
  destruct (upload_buffers this ctx) as (Hcreated & Hdestroyed & Hhandles).
  repeat (split; [done|]). simpl. rewrite Hhandles. apply NoDup_seq.
Qed.

Lemma filter_handle_length (h : nat) (buffers : list VertexBuffer.t) :
  length (filter (λ b, VertexBuffer.handle b = h) buffers)
  = length (filter (λ x, x = h) (VertexBuffer.handle <$> buffers)).
Proof.
  induction buffers as [|buffer buffers IH]; [done|].
  rewrite fmap_cons, !filter_cons. repeat case_decide; simpl; congruence.
Qed.

Lemma destroy_count_configuration (h : nat) (this : ProgramConfiguration.t)
    (ctx : Context.t) :
  Context.destroy_count h (ProgramConfiguration.destroy this ctx)
  = Context.destroy_count h ctx
    + length (filter (λ x, x = h) (held_handles (ProgramConfiguration.binders this))).
Proof.
  unfold ProgramConfiguration.destroy, held_handles.
  revert ctx. induction (ProgramConfiguration.binders this) as [|[property binder] binders IH];
    intros ctx; [simpl; lia|].
  rewrite fmap_cons. cbn [foldl concat fst snd].
  rewrite IH, destroy_count_destroy, filter_app, length_app, filter_handle_length. lia.
Qed.

Lemma filter_seq_length (h start count : nat) :
  length (filter (λ x, x = h) (seq start count))
  = if decide (start ≤ h < start + count) then 1 else 0.
Proof.
  revert start. induction count as [|count IH]; intros start; simpl.
  - case_decide; [lia|done].
  - rewrite filter_cons. destruct (decide (start = h)); simpl; rewrite IH;
      repeat case_decide; lia.
Qed.

Lemma upload_then_destroy_count (h : nat) (this : ProgramConfiguration.t) (ctx : Context.t) :
  let after := (ProgramConfiguration.upload this ctx).1 in
  let ctx' := (ProgramConfiguration.upload this ctx).2 in
  Context.destroy_count h (ProgramConfiguration.destroy after ctx')
  = Context.destroy_count h ctx
    + if decide (Context.created ctx ≤ h < Context.created ctx') then 1 else 0.
Proof.
  intros after ctx'. rewrite destroy_count_configuration.
  unfold ProgramConfiguration.upload in *.
  pose proof (upload_binders_buffers (ProgramConfiguration.binders this) ctx) as Hupload.
  destruct (ProgramConfiguration.upload_binders _ ctx) as [binders1 ctx1].
  destruct Hupload as (Hcreated & Hdestroyed & Hhandles & _).
  subst after ctx'. simpl. rewrite Hhandles, filter_seq_length, Hcreated.
  unfold Context.destroy_count. by rewrite Hdestroyed.
Qed.

(** X10. Uploading a configuration and then destroying it invokes the destroy
    operation exactly once on each buffer the upload realized and on no other
    buffer. *)
Theorem upload_then_destroy_releases_each_buffer_once
    (this : ProgramConfiguration.t) (ctx : Context.t) (h : nat) :
  let after := (ProgramConfiguration.upload this ctx).1 in
  let ctx' := (ProgramConfiguration.upload this ctx).2 in
  Context.destroy_count h (ProgramConfiguration.destroy after ctx')
  = Context.destroy_count h ctx
    + if decide (Context.created ctx ≤ h < Context.created ctx') then 1 else 0.
Proof. apply upload_then_destroy_count. Qed.

(** X11. A second upload replaces the buffers of the first without destroying
    them: after two uploads and a destroy, no buffer that the first upload
    realized has seen its destroy operation invoked. *)
Theorem second_upload_leaks_the_first_buffers
    (this : ProgramConfiguration.t) (ctx : Context.t) (h : nat) :
  let first := ProgramConfiguration.upload this ctx in
  let second := ProgramConfiguration.upload first.1 first.2 in
  Context.created ctx ≤ h < Context.created first.2 →
  Context.destroy_count h (ProgramConfiguration.destroy second.1 second.2)
  = Context.destroy_count h ctx.
Proof.
  intros first second Hh. subst second.
  rewrite upload_then_destroy_count.
  case_decide; [lia|].
  destruct (upload_buffers this ctx) as (_ & Hdestroyed & _).
  subst first. unfold Context.destroy_count. rewrite Hdestroyed. lia.
Qed.

Lemma second_upload_leaks_the_first_buffers_witness :
  let first := ProgramConfiguration.upload Examples.populated Context.initial in
  let second := ProgramConfiguration.upload first.1 first.2 in
  Context.destroy_count 1 (ProgramConfiguration.destroy second.1 second.2) = 0.
Proof.
  apply (second_upload_leaks_the_first_buffers Examples.populated Context.initial 1).
  change (0 ≤ 1 < 3). lia.
Defined.

Lemma upload_binders_related (R : Binder.t → Binder.t → Prop) binders ctx :
  (∀ binder ctx, R binder (Binder.upload binder ctx).1) →
  Forall2 (λ entry entry', entry.1 = entry'.1 ∧ R entry.2 entry'.2) binders
    (ProgramConfiguration.upload_binders binders ctx).1.
Proof.
  intros HR. revert ctx.
  induction binders as [|[property binder] binders IH]; intros ctx; [constructor|].
  cbn [ProgramConfiguration.upload_binders].
  pose proof (HR binder ctx) as Hbinder.
  destruct (Binder.upload binder ctx) as [binder' ctx1].
  specialize (IH ctx1).
  destruct (ProgramConfiguration.upload_binders binders ctx1) as [binders' ctx'].
  by constructor.
Qed.

Lemma omap_related {A B C} (f : A → option C) (g : B → option C) (l : list A)
    (k : list B) :
  Forall2 (λ x y, g y = f x) l k → omap g k = omap f l.
Proof.
  induction 1 as [|x y l k Hxy _ IH]; [done|].
  cbn [omap list_omap]. by rewrite Hxy, IH.
Qed.

Lemma list_fmap_omap {A B C} (f : A → option B) (g : B → C) (l : list A) :
  g <$> omap f l = omap (λ x, g <$> f x) l.
Proof.
  induction l as [|x l IH]; [done|].
  cbn [omap list_omap]. destruct (f x); simpl; by rewrite <- IH.
Qed.

Lemma upload_binders_drawn crossfade binders ctx :
  VertexBuffer.array <$>
    omap (λ '(_, binder),
            match binder with
            | Binder.CrossFadedComposite b =>
                CrossFadedCompositeBinder.getVertexBuffer crossfade b
            | Binder.SourceExpression b => SourceExpressionBinder.paintVertexBuffer b
            | Binder.CompositeExpression b => CompositeExpressionBinder.paintVertexBuffer b
            | _ => None
            end) (ProgramConfiguration.upload_binders binders ctx).1
  = omap (λ entry, drawn_array crossfade entry.2) binders.
Proof.
  rewrite list_fmap_omap. apply omap_related.
  eapply Forall2_impl;
    [apply (upload_binders_related
              (λ binder binder',
                 VertexBuffer.array <$>
                   match binder' with
                   | Binder.CrossFadedComposite b =>
                       CrossFadedCompositeBinder.getVertexBuffer crossfade b
                   | Binder.SourceExpression b => SourceExpressionBinder.paintVertexBuffer b
                   | Binder.CompositeExpression b =>
                       CompositeExpressionBinder.paintVertexBuffer b
                   | _ => None
                   end
                 = drawn_array crossfade binder))|].
  - intros [b|b|b|b|b] ctx'; simpl; try done.
    unfold CrossFadedCompositeBinder.getVertexBuffer. simpl.
    by destruct (PrimFloat.eqb (fromScale crossfade) 2).
  - intros [p binder] [p' binder'] [_ Hrelated]. exact Hrelated.
Qed.

Lemma upload_binders_resident binders ctx :
  VertexBuffer.array <$>
    ProgramConfiguration.resident_buffers
      (ProgramConfiguration.upload_binders binders ctx).1
  = omap (λ entry,
            match entry.2 with
            | Binder.SourceExpression b =>
                Some (SourceExpressionBinder.paintVertexArray b)
            | Binder.CompositeExpression b =>
                Some (CompositeExpressionBinder.paintVertexArray b)
            | _ => None
            end) binders.
Proof.
  unfold ProgramConfiguration.resident_buffers.
  rewrite list_fmap_omap. apply omap_related.
  eapply Forall2_impl;
    [apply (upload_binders_related
              (λ binder binder',
                 VertexBuffer.array <$>
                   match binder' with
                   | Binder.SourceExpression b => SourceExpressionBinder.paintVertexBuffer b
                   | Binder.CompositeExpression b =>
                       CompositeExpressionBinder.paintVertexBuffer b
                   | _ => None
                   end
                 = match binder with
                   | Binder.SourceExpression b =>
                       Some (SourceExpressionBinder.paintVertexArray b)
                   | Binder.CompositeExpression b =>
                       Some (CompositeExpressionBinder.paintVertexArray b)
                   | _ => None
                   end))|].
  - by intros [b|b|b|b|b] ctx'.
  - intros [p binder] [p' binder'] [_ Hrelated]. exact Hrelated.
Qed.

(** X12. After [upload] the buffer list of a configuration has one buffer per
    source and composite binder, in binder order, each realized from that
    binder's paint array, and none for a cross-faded binder; after
    [updatePatternPaintBuffers(crossfade)] it also has, in its binder's place,
    the buffer of each cross-faded composite binder that was realized from
    the zoom-in array when [crossfade.fromScale === 2] and from the zoom-out
    array otherwise. *)
Theorem uploaded_buffers_follow_the_binders
    (this : ProgramConfiguration.t) (ctx : Context.t) :
  let after := (ProgramConfiguration.upload this ctx).1 in
  VertexBuffer.array <$> ProgramConfiguration.getPaintVertexBuffers after
  = omap (λ entry,
            match entry.2 with
            | Binder.SourceExpression b =>
                Some (SourceExpressionBinder.paintVertexArray b)
            | Binder.CompositeExpression b =>
                Some (CompositeExpressionBinder.paintVertexArray b)
            | _ => None
            end) (ProgramConfiguration.binders this) ∧
  ∀ crossfade,
    VertexBuffer.array <$>
      ProgramConfiguration.getPaintVertexBuffers
        (ProgramConfiguration.updatePatternPaintBuffers crossfade after)
    = omap (λ entry, drawn_array crossfade entry.2) (ProgramConfiguration.binders this).
Proof.
  unfold ProgramConfiguration.upload, ProgramConfiguration.getPaintVertexBuffers,
    ProgramConfiguration.updatePatternPaintBuffers.
  pose proof (upload_binders_resident (ProgramConfiguration.binders this) ctx) as Hresident.
  pose proof (λ crossfade,
                upload_binders_drawn crossfade (ProgramConfiguration.binders this) ctx)
    as Hdrawn.
  destruct (ProgramConfiguration.upload_binders _ ctx) as [binders' ctx'].
  simpl in *. split; [exact Hresident|exact Hdrawn].
Qed.

(** ** What population and updates leave alone *)

Section update_invariant.
Context (pack : Encoder) (layer : Layer.t) (imagePositions : ImagePositions).
Context (R : bool → string → Binder.t → Binder.t → Prop).
Hypothesis R_refl : ∀ p b, R false p b b.
Hypothesis R_comp :
  ∀ h1 h2 p b1 b2 b3, R h1 p b1 b2 → R h2 p b2 b3 → R (h1 || h2) p b1 b3.
Hypothesis R_step :
  ∀ pos feature featureState p b b' touched,
    ProgramConfiguration.update_binder pack layer pos feature featureState imagePositions
      p b = Some (b', touched) →
    R true p b b'.

Lemma related_refl (binders : list (string * Binder.t)) :
  Forall2 (λ entry entry', entry.1 = entry'.1 ∧ R false entry.1 entry.2 entry'.2)
    binders binders.
Proof. apply Forall_Forall2_diag, Forall_forall. by intros entry _. Qed.

Lemma related_comp h1 h2 (l1 l2 l3 : list (string * Binder.t)) :
  Forall2 (λ entry entry', entry.1 = entry'.1 ∧ R h1 entry.1 entry.2 entry'.2) l1 l2 →
  Forall2 (λ entry entry', entry.1 = entry'.1 ∧ R h2 entry.1 entry.2 entry'.2) l2 l3 →
  Forall2 (λ entry entry', entry.1 = entry'.1 ∧ R (h1 || h2) entry.1 entry.2 entry'.2)
    l1 l3.
Proof.
  intros H12 H23. eapply Forall2_trans; cycle 1; [exact H12|exact H23|].
  intros x y z [Hxy Rxy] [Hyz Ryz]. split; [congruence|].
  rewrite <- Hxy in Ryz. by eapply R_comp.
Qed.

Lemma update_binders_related pos feature featureState binders dirty binders' dirty' :
  ProgramConfiguration.update_binders pack layer pos feature featureState imagePositions
    binders dirty = Some (binders', dirty') →
  Forall2 (λ entry entry', entry.1 = entry'.1 ∧ R true entry.1 entry.2 entry'.2)
    binders binders'.
Proof.
  revert dirty binders' dirty'.
  induction binders as [|[property binder] binders IH]; intros dirty binders' dirty'; simpl.
  - intros [= <- <-]. constructor.
  - destruct (ProgramConfiguration.update_binder _ _ _ _ _ _ _ _)
      as [[binder1 touched]|] eqn:Hbinder; simpl; [|done].
    destruct (ProgramConfiguration.update_binders _ _ _ _ _ _ _ _)
      as [[binders1 dirty1]|] eqn:Hbinders; simpl; [|done].
    intros [= <- <-]. constructor; [|by eapply IH].
    split; [done|]. by eapply R_step.
Qed.

Lemma update_positions_related vtLayer featureState posArray binders dirty binders'
    dirty' :
  ProgramConfiguration.update_positions pack vtLayer layer featureState imagePositions
    posArray binders dirty = Some (binders', dirty') →
  Forall2 (λ entry entry',
             entry.1 = entry'.1 ∧
             R (match posArray with [] => false | _ => true end) entry.1 entry.2 entry'.2)
    binders binders'.
Proof.
  revert binders dirty binders' dirty'.
  induction posArray as [|pos posArray IH]; intros binders dirty binders' dirty'; simpl.
  - intros [= <- <-]. apply related_refl.
  - destruct (ProgramConfiguration.update_binders _ _ _ _ _ _ _ _)
      as [[binders1 dirty1]|] eqn:Hbinders; simpl; [|done].
    intros Hrest. apply update_binders_related in Hbinders. apply IH in Hrest.
    exact (related_comp true _ _ _ _ Hbinders Hrest).
Qed.

Lemma update_states_related idMap vtLayer featureStates binders dirty binders' dirty' :
  ProgramConfiguration.update_states pack idMap vtLayer layer imagePositions featureStates
    binders dirty = Some (binders', dirty') →
  Forall2 (λ entry entry',
             entry.1 = entry'.1 ∧
             R (some_id_recorded idMap featureStates) entry.1 entry.2 entry'.2)
    binders binders'.
Proof.
  revert binders dirty binders' dirty'.
  induction featureStates as [|[id featureState] featureStates IH];
    intros binders dirty binders' dirty'; simpl.
  - intros [= <- <-]. apply related_refl.
  - unfold member.
    destruct (idMap !! id) as [[|pos posArray]|] eqn:Hid; simpl;
      [| |destruct (inherited id); [done|]].
    + intros Hrest. by eapply IH.
    + destruct (ProgramConfiguration.update_binders _ _ _ _ _ _ _ _)
        as [[binders1 dirty1]|] eqn:Hbinders; simpl; [|done].
      destruct (ProgramConfiguration.update_positions _ _ _ _ _ _ _ _)
        as [[binders2 dirty2]|] eqn:Hpositions; simpl; [|done].
      intros Hrest. apply update_binders_related in Hbinders.
      apply update_positions_related in Hpositions. apply IH in Hrest.
      pose proof (related_comp _ _ _ _ _ Hbinders Hpositions) as Hfirst.
      exact (related_comp _ _ _ _ _ Hfirst Hrest).
    + intros Hrest. by eapply IH.
Qed.

End update_invariant.

Lemma populate_all_related (R : Binder.t → Binder.t → Prop) pack calls this :
  (∀ b, R b b) → (∀ b1 b2 b3, R b1 b2 → R b2 b3 → R b1 b3) →
  (∀ newLength feature imagePositions b,
     R b (Binder.populatePaintArray pack newLength feature imagePositions b)) →
  Forall2 (λ entry entry', entry.1 = entry'.1 ∧ R entry.2 entry'.2)
    (ProgramConfiguration.binders this)
    (ProgramConfiguration.binders (populate_all pack calls this)).
Proof.
  intros Hrefl Htrans Hstep. revert this.
  induction calls as [|call calls IH]; intros this; simpl.
  - apply Forall_Forall2_diag, Forall_forall. by intros entry _.
  - pose proof (IH (populate pack call this)) as Hrest.
    assert (Forall2 (λ entry entry', entry.1 = entry'.1 ∧ R entry.2 entry'.2)
              (ProgramConfiguration.binders this)
              (ProgramConfiguration.binders (populate pack call this))) as Hfirst.
    { unfold populate. rewrite populatePaintArrays_binders.
      apply Forall2_fmap_r, Forall_Forall2_diag, Forall_forall.
      intros [property binder] _. split; [done|]. apply Hstep. }
    eapply Forall2_trans; cycle 1; [exact Hfirst|exact Hrest|].
    intros x y z [Hxy Rxy] [Hyz Ryz]. split; [congruence|]. by eapply Htrans.
Qed.

Lemma CrossFadedCompositeBinder_update_fields start end_ feature featureState
    imagePositions this after :
  CrossFadedCompositeBinder.updatePaintArray start end_ feature featureState imagePositions
    this = Some after →
  CrossFadedCompositeBinder.expression after = CrossFadedCompositeBinder.expression this ∧
  CrossFadedCompositeBinder.zoomInPaintVertexBuffer after
  = CrossFadedCompositeBinder.zoomInPaintVertexBuffer this ∧
  CrossFadedCompositeBinder.zoomOutPaintVertexBuffer after
  = CrossFadedCompositeBinder.zoomOutPaintVertexBuffer this.
Proof.
  intros Hupdate.
  destruct (CrossFadedCompositeBinder_update_cases _ _ _ _ _ _ _ Hupdate)
    as [->|(imageMin & imageMid & imageMax & Hmin & Hmid & Hmax)]; [done|].
  rewrite (CrossFadedCompositeBinder_update_present _ _ _ _ _ _ _ _ _ Hmin Hmid Hmax)
    in Hupdate.
  by injection Hupdate as <-.
Qed.

Lemma CrossFadedCompositeBinder_populate_fields length feature imagePositions this :
  let after :=
    CrossFadedCompositeBinder.populatePaintArray length feature imagePositions this in
  CrossFadedCompositeBinder.zoomInPaintVertexBuffer after
  = CrossFadedCompositeBinder.zoomInPaintVertexBuffer this ∧
  CrossFadedCompositeBinder.zoomOutPaintVertexBuffer after
  = CrossFadedCompositeBinder.zoomOutPaintVertexBuffer this.
Proof.
  unfold CrossFadedCompositeBinder.populatePaintArray.
  destruct imagePositions as [positions|]; [|done].
  repeat (destruct (image_at positions _)); try done.
  by destruct (for_range _ _ _ _).
Qed.

Lemma populate_binder_keeps pack newLength feature imagePositions binder :
  let after := Binder.populatePaintArray pack newLength feature imagePositions binder in
  held_buffers after = held_buffers binder ∧ Binder.defines after = Binder.defines binder.
Proof.
  destruct binder as [b|b|b|b|b]; simpl; try done.
  - unfold SourceExpressionBinder.populatePaintArray.
    by destruct (is_color (SourceExpressionBinder.type b)).
  - unfold CompositeExpressionBinder.populatePaintArray.
    by destruct (is_color (CompositeExpressionBinder.type b)).
  - destruct (CrossFadedCompositeBinder_populate_fields newLength feature imagePositions b)
      as [-> ->]. done.
Qed.

Lemma update_binder_keeps pack start end_ feature featureState imagePositions binder
    after :
  Binder.updatePaintArray pack start end_ feature featureState imagePositions binder
  = Some after →
  held_buffers after = held_buffers binder ∧ Binder.defines after = Binder.defines binder ∧
  Binder.expression after = Binder.expression binder.
Proof.
  destruct binder as [b|b|b|b|b]; simpl; try by intros [= <-].
  - intros [= <-]. simpl. unfold SourceExpressionBinder.updatePaintArray.
    by destruct (is_color (SourceExpressionBinder.type b)).
  - intros [= <-]. simpl. unfold CompositeExpressionBinder.updatePaintArray.
    by destruct (is_color (CompositeExpressionBinder.type b)).
  - destruct (CrossFadedCompositeBinder.updatePaintArray _ _ _ _ _ _) as [b'|] eqn:Hb;
      simpl; [|done].
    intros [= <-]. simpl.
    by destruct (CrossFadedCompositeBinder_update_fields _ _ _ _ _ _ _ Hb)
      as (-> & -> & ->).
Qed.

Lemma set_expression_keeps expression binder :
  held_buffers (Binder.set_expression expression binder) = held_buffers binder ∧
  Binder.defines (Binder.set_expression expression binder) = Binder.defines binder.
Proof. by destruct binder. Qed.

Lemma update_step_keeps pack layer imagePositions pos feature featureState property binder
    binder' touched :
  ProgramConfiguration.update_binder pack layer pos feature featureState imagePositions
    property binder = Some (binder', touched) →
  held_buffers binder' = held_buffers binder ∧ Binder.defines binder' = Binder.defines binder.
Proof.
  unfold ProgramConfiguration.update_binder.
  destruct (Binder.expression binder) as [expression|]; [|by intros [= <- <-]].
  destruct (Expression.isStateDependent expression); [|by intros [= <- <-]].
  destruct (Layer.paint_expression property layer) as [value|]; simpl; [|done].
  destruct (Binder.updatePaintArray _ _ _ _ _ _ _) as [updated|] eqn:Hupdate;
    simpl; [|done].
  intros [= <- <-].
  destruct (update_binder_keeps _ _ _ _ _ _ _ _ Hupdate) as (-> & -> & _).
  apply set_expression_keeps.
Qed.

Lemma updatePaintArrays_keeps pack featureStates vtLayer layer imagePositions this after
    dirty :
  ProgramConfiguration.updatePaintArrays pack featureStates vtLayer layer imagePositions this
  = Some (after, dirty) →
  ProgramConfiguration._buffers after = ProgramConfiguration._buffers this ∧
  Forall2
    (λ entry entry',
       entry.1 = entry'.1 ∧
       held_buffers entry'.2 = held_buffers entry.2 ∧
       Binder.defines entry'.2 = Binder.defines entry.2)
    (ProgramConfiguration.binders this) (ProgramConfiguration.binders after).
Proof.
  unfold ProgramConfiguration.updatePaintArrays.
  destruct (ProgramConfiguration.update_states _ _ _ _ _ _ _ _)
    as [[binders' dirty']|] eqn:Hstates; simpl; [|done].
  intros [= <- <-]. simpl. split; [done|].
  apply (update_states_related pack layer imagePositions
           (λ _ _ b b',
              held_buffers b' = held_buffers b ∧ Binder.defines b' = Binder.defines b))
    in Hstates; [done|done| |].
  - intros _ _ _ b1 b2 b3 [H12 D12] [H23 D23]. split; congruence.
  - intros pos feature featureState p b b' touched. apply update_step_keeps.
Qed.

Lemma populate_all_keeps pack calls this :
  ProgramConfiguration._buffers (populate_all pack calls this)
  = ProgramConfiguration._buffers this ∧
  Forall2
    (λ entry entry',
       entry.1 = entry'.1 ∧
       held_buffers entry'.2 = held_buffers entry.2 ∧
       Binder.defines entry'.2 = Binder.defines entry.2)
    (ProgramConfiguration.binders this)
    (ProgramConfiguration.binders (populate_all pack calls this)).
Proof.
  split.
  - revert this. induction calls as [|call calls IH]; intros this; simpl; [done|].
    by rewrite IH.
  - apply (populate_all_related
             (λ b b', held_buffers b' = held_buffers b ∧
                      Binder.defines b' = Binder.defines b)); [done| |].
    + intros b1 b2 b3 [H12 D12] [H23 D23]. split; congruence.
    + intros newLength feature imagePositions b. apply populate_binder_keeps.
Qed.

(** X13. Neither population nor an update touches a realized buffer: after any
    sequence of [populatePaintArrays] calls, and after an [updatePaintArrays]
    call that returns, every binder holds the buffers it held before and the
    buffer list of the configuration is the same, so the data on the GPU is
    that of the last upload until the next one. *)
Theorem paint_array_changes_leave_buffers_stale
    (pack : Encoder) (this : ProgramConfiguration.t) :
  (∀ calls,
     let after := populate_all pack calls this in
     ProgramConfiguration._buffers after = ProgramConfiguration._buffers this ∧
     Forall2 (λ entry entry',
                entry.1 = entry'.1 ∧ held_buffers entry'.2 = held_buffers entry.2)
       (ProgramConfiguration.binders this) (ProgramConfiguration.binders after)) ∧
  (∀ featureStates vtLayer layer imagePositions after dirty,
     ProgramConfiguration.updatePaintArrays pack featureStates vtLayer layer imagePositions
       this = Some (after, dirty) →
     ProgramConfiguration._buffers after = ProgramConfiguration._buffers this ∧
     Forall2 (λ entry entry',
                entry.1 = entry'.1 ∧ held_buffers entry'.2 = held_buffers entry.2)
       (ProgramConfiguration.binders this) (ProgramConfiguration.binders after)).
Proof.
  split.
  - intros calls. destruct (populate_all_keeps pack calls this) as [Hbuffers Hbinders].
    split; [done|]. eapply Forall2_impl; [exact Hbinders|].
    intros entry entry' (Hproperty & Hheld & _). by split.
  - intros featureStates vtLayer layer imagePositions after dirty Hupdate.
    apply updatePaintArrays_keeps in Hupdate as [Hbuffers Hbinders].
    split; [done|]. eapply Forall2_impl; [exact Hbinders|].
    intros entry entry' (Hproperty & Hheld & _). by split.
Qed.

Lemma defines_related (l l' : list (string * Binder.t)) :
  Forall2 (λ entry entry', Binder.defines entry'.2 = Binder.defines entry.2) l l' →
  concat ((λ '(_, binder), Binder.defines binder) <$> l')
  = concat ((λ '(_, binder), Binder.defines binder) <$> l).
Proof.
  induction 1 as [|[p b] [p' b'] l l' Hdefines _ IH]; [done|].
  rewrite !fmap_cons. cbn [concat]. simpl in Hdefines. by rewrite Hdefines, IH.
Qed.

(** X14. The shader defines of a configuration depend on its binders' kinds
    and names only: no sequence of [populatePaintArrays] calls, no
    [updatePaintArrays] call that returns (although it replaces expressions)
    and no [upload] changes what [defines()] returns. *)
Theorem defines_survive_population_update_and_upload
    (pack : Encoder) (this : ProgramConfiguration.t) :
  (∀ calls,
     ProgramConfiguration.defines (populate_all pack calls this)
     = ProgramConfiguration.defines this) ∧
  (∀ featureStates vtLayer layer imagePositions after dirty,
     ProgramConfiguration.updatePaintArrays pack featureStates vtLayer layer imagePositions
       this = Some (after, dirty) →
     ProgramConfiguration.defines after = ProgramConfiguration.defines this) ∧
  (∀ ctx,
     ProgramConfiguration.defines (ProgramConfiguration.upload this ctx).1
     = ProgramConfiguration.defines this).
Proof.
  unfold ProgramConfiguration.defines. split; [|split].
  - intros calls. destruct (populate_all_keeps pack calls this) as [_ Hbinders].
    apply defines_related. eapply Forall2_impl; [exact Hbinders|].
    by intros entry entry' (_ & _ & Hdefines).
  - intros featureStates vtLayer layer imagePositions after dirty Hupdate.
    apply updatePaintArrays_keeps in Hupdate as [_ Hbinders].
    apply defines_related. eapply Forall2_impl; [exact Hbinders|].
    by intros entry entry' (_ & _ & Hdefines).
  - intros ctx. unfold ProgramConfiguration.upload.
    pose proof (upload_binders_buffers (ProgramConfiguration.binders this) ctx) as Hupload.
    destruct (ProgramConfiguration.upload_binders _ ctx) as [binders' ctx'].
    destruct Hupload as (_ & _ & _ & Hbinders). simpl.
    apply defines_related. eapply Forall2_impl; [exact Hbinders|].
    by intros entry entry' (_ & _ & Hdefines).
Qed.

Lemma paint_array_changes_leave_buffers_stale_witness :
  match
    ProgramConfiguration.updatePaintArrays Examples.pack [("7", [("hover", VNumber 1)])]
      Examples.vtLayer Examples.hover_layer (Some Examples.atlas)
      (ProgramConfiguration.upload Examples.hover_populated Context.initial).1
  with
  | Some (after, _) =>
      VertexBuffer.array <$> ProgramConfiguration._buffers after
      = [StructArray.mk StructArray.StructArrayLayout1f4
           [[0%float]; [0%float]; [0%float]; [0%float]]]
  | None => False
  end.
Proof.
  destruct (ProgramConfiguration.updatePaintArrays _ _ _ _ _ _) as [[after dirty]|]
    eqn:Hupdate; [|vm_compute in Hupdate; discriminate].
  destruct (paint_array_changes_leave_buffers_stale Examples.pack
              (ProgramConfiguration.upload Examples.hover_populated Context.initial).1)
    as [_ Hstale].
  destruct (Hstale _ _ _ _ _ _ Hupdate) as [-> _]. reflexivity.
Defined.

Lemma defines_survive_population_update_and_upload_witness :
  match
    ProgramConfiguration.updatePaintArrays Examples.pack [("7", [("hover", VNumber 1)])]
      Examples.vtLayer Examples.hover_layer (Some Examples.atlas) Examples.hover_populated
  with
  | Some (after, _) =>
      ProgramConfiguration.defines after = ["#define HAS_UNIFORM_u_color"]
  | None => False
  end.
Proof.
  destruct (ProgramConfiguration.updatePaintArrays _ _ _ _ _ _) as [[after dirty]|]
    eqn:Hupdate; [|vm_compute in Hupdate; discriminate].
  destruct (defines_survive_population_update_and_upload Examples.pack
              Examples.hover_populated) as (_ & Hupdated & _).
  rewrite (Hupdated _ _ _ _ _ _ Hupdate). reflexivity.
Defined.

(** ** Expressions after an update *)

Lemma update_step_expression pack layer imagePositions pos feature featureState property
    binder binder' touched :
  ProgramConfiguration.update_binder pack layer pos feature featureState imagePositions
    property binder = Some (binder', touched) →
  (binder' = binder ∨
   (state_dependent binder = true ∧
    Binder.expression binder' = Layer.paint_expression property layer)) ∧
  (state_dependent binder = true →
   Binder.expression binder' = Layer.paint_expression property layer).
Proof.
  unfold ProgramConfiguration.update_binder, state_dependent.
  destruct (Binder.expression binder) as [expression|] eqn:Hexpression;
    [|intros [= <- <-]; split; [by left|done]].
  destruct (Expression.isStateDependent expression) eqn:Hsd;
    [|intros [= <- <-]; split; [by left|done]].
  destruct (Layer.paint_expression property layer) as [value|]; simpl; [|done].
  destruct (Binder.updatePaintArray _ _ _ _ _ _ _) as [updated|] eqn:Hupdate;
    simpl; [|done].
  intros [= <- <-].
  destruct (update_binder_keeps _ _ _ _ _ _ _ _ Hupdate) as (_ & _ & ->).
  assert (Binder.expression (Binder.set_expression value binder) = Some value) as ->
    by (by destruct binder).
  split; [by right|done].
Qed.

Lemma updatePaintArrays_expressions pack featureStates vtLayer layer imagePositions this
    after dirty :
  ProgramConfiguration.updatePaintArrays pack featureStates vtLayer layer imagePositions this
  = Some (after, dirty) →
  Forall2
    (λ entry entry',
       entry.1 = entry'.1 ∧
       (entry'.2 = entry.2 ∨
        (state_dependent entry.2 = true ∧
         Binder.expression entry'.2 = Layer.paint_expression entry.1 layer)) ∧
       (some_id_recorded (ProgramConfiguration._idMap this) featureStates = true →
        state_dependent entry.2 = true →
        Binder.expression entry'.2 = Layer.paint_expression entry.1 layer))
    (ProgramConfiguration.binders this) (ProgramConfiguration.binders after).
Proof.
  unfold ProgramConfiguration.updatePaintArrays.
  destruct (ProgramConfiguration.update_states _ _ _ _ _ _ _ _)
    as [[binders' dirty']|] eqn:Hstates; simpl; [|done].
  intros [= <- <-]. simpl.
  apply (update_states_related pack layer imagePositions
           (λ h p b b',
              (b' = b ∨
               (state_dependent b = true ∧
                Binder.expression b' = Layer.paint_expression p layer)) ∧
              (h = true → state_dependent b = true →
               Binder.expression b' = Layer.paint_expression p layer)))
    in Hstates; [done| | |].
  - intros p b. split; [by left|done].
  - intros h1 h2 p b1 b2 b3 [H12 T12] [H23 T23]. split.
    + destruct H12 as [->|[Hsd H12]]; [done|].
      destruct H23 as [->|[_ H23]]; right; by split.
    + intros Hhit Hsd.
      destruct H23 as [->|[_ H23]]; [|done].
      destruct H12 as [->|[_ H12]]; [|done].
      destruct h1; [by apply T12|]. destruct h2; [by apply T23|done].
  - intros pos feature featureState p b b' touched Hstep.
    apply update_step_expression in Hstep as [Hfirst Hsecond]. by split.
Qed.

(** X15. An [updatePaintArrays] call that returns and finds a record for some
    id of [featureStates] leaves every state-dependent binder with the
    expression the live layer has for the binder's property, and every other
    binder as it was. *)
Theorem updatePaintArrays_adopts_the_layer_expressions
    (pack : Encoder) (featureStates : list (string * FeatureState))
    (vtLayer : nat → Feature.t) (layer : Layer.t) (imagePositions : ImagePositions)
    (this after : ProgramConfiguration.t) (dirty : bool) :
  ProgramConfiguration.updatePaintArrays pack featureStates vtLayer layer imagePositions this
  = Some (after, dirty) →
  some_id_recorded (ProgramConfiguration._idMap this) featureStates = true →
  Forall2
    (λ entry entry',
       entry.1 = entry'.1 ∧
       (state_dependent entry.2 = true →
        Binder.expression entry'.2 = Layer.paint_expression entry.1 layer) ∧
       (state_dependent entry.2 = false → entry'.2 = entry.2))
    (ProgramConfiguration.binders this) (ProgramConfiguration.binders after).
Proof.
  intros Hupdate Hrecorded. apply updatePaintArrays_expressions in Hupdate.
  eapply Forall2_impl; [exact Hupdate|].
  intros entry entry' (Hproperty & Hsame & Hhit). split; [done|]. split; [by apply Hhit|].
  intros Hsd. destruct Hsame as [->|[Hsd' _]]; [done|]. by rewrite Hsd in Hsd'.
Qed.

Lemma updatePaintArrays_adopts_the_layer_expressions_witness :
  match
    ProgramConfiguration.updatePaintArrays Examples.pack [("7", [("hover", VNumber 1)])]
      Examples.vtLayer Examples.hover_layer (Some Examples.atlas) Examples.hover_populated
  with
  | Some (after, _) =>
      Forall2
        (λ entry entry',
           entry.1 = entry'.1 ∧
           (state_dependent entry.2 = true →
            Binder.expression entry'.2
            = Layer.paint_expression entry.1 Examples.hover_layer) ∧
           (state_dependent entry.2 = false → entry'.2 = entry.2))
        (ProgramConfiguration.binders Examples.hover_populated)
        (ProgramConfiguration.binders after)
  | None => False
  end.
Proof.
  destruct (ProgramConfiguration.updatePaintArrays _ _ _ _ _ _) as [[after dirty]|]
    eqn:Hupdate; [|vm_compute in Hupdate; discriminate].
  apply (updatePaintArrays_adopts_the_layer_expressions _ _ _ _ _ _ _ _ Hupdate).
  reflexivity.
Defined.

(** ** Before the first upload *)

Lemma createDynamic_loop_no_buffers layer_type zoom filterProperties values binders keys
    binders' keys' :
  ProgramConfiguration.createDynamic_loop layer_type zoom filterProperties values binders
    keys = Some (binders', keys') →
  Forall (λ entry, held_buffers entry.2 = []) binders →
  Forall (λ entry, held_buffers entry.2 = []) binders'.
Proof.
  revert binders keys.
  induction values as [|[property value] values IH]; intros binders keys; simpl.
  - by intros [= <- <-].
  - destruct (filterProperties property); simpl; [|by apply IH].
    destruct value as [v|prop value]; [by apply IH|].
    destruct (Property.supportsPropertyExpression prop); simpl; [|by apply IH].
    destruct (String.eqb (Property.binder prop) "cross-faded"), value;
      try (destruct (layoutType _ _ _); simpl; [|done]);
      intros Hloop Hbinders; eapply IH; try exact Hloop;
      by apply (object_set_Forall (λ entry, held_buffers entry.2 = [])).
Qed.

Lemma destroy_without_buffers (binders : list (string * Binder.t)) (ctx : Context.t) :
  Forall (λ entry, held_buffers entry.2 = []) binders →
  foldl (λ ctx '(_, binder), Binder.destroy binder ctx) ctx binders = ctx.
Proof.
  induction 1 as [|[property binder] binders Hnone _ IH]; [done|].
  cbn [foldl]. simpl in Hnone.
  assert (Binder.destroy binder ctx = ctx) as ->; [|exact IH].
  destruct binder as [b|b|b|b|b]; simpl in *; try done.
  - unfold SourceExpressionBinder.destroy.
    by destruct (SourceExpressionBinder.paintVertexBuffer b).
  - unfold CompositeExpressionBinder.destroy.
    by destruct (CompositeExpressionBinder.paintVertexBuffer b).
  - unfold CrossFadedCompositeBinder.destroy.
    by destruct (CrossFadedCompositeBinder.zoomOutPaintVertexBuffer b),
         (CrossFadedCompositeBinder.zoomInPaintVertexBuffer b).
Qed.

Lemma drawn_without_buffers crossfade (binders : list (string * Binder.t)) :
  Forall (λ entry, held_buffers entry.2 = []) binders →
  omap (λ '(_, binder),
          match binder with
          | Binder.CrossFadedComposite b =>
              CrossFadedCompositeBinder.getVertexBuffer crossfade b
          | Binder.SourceExpression b => SourceExpressionBinder.paintVertexBuffer b
          | Binder.CompositeExpression b => CompositeExpressionBinder.paintVertexBuffer b
          | _ => None
          end) binders = [].
Proof.
  induction 1 as [|[property binder] binders Hnone _ IH]; [done|].
  cbn [omap list_omap]. simpl in Hnone.
  destruct binder as [b|b|b|b|b]; simpl in *; try done.
  - by destruct (SourceExpressionBinder.paintVertexBuffer b).
  - by destruct (CompositeExpressionBinder.paintVertexBuffer b).
  - unfold CrossFadedCompositeBinder.getVertexBuffer.
    by destruct (CrossFadedCompositeBinder.zoomOutPaintVertexBuffer b),
         (CrossFadedCompositeBinder.zoomInPaintVertexBuffer b).
Qed.

(** X16. A configuration that [createDynamic] built and that was populated but
    never uploaded holds no buffer: [destroy] leaves the graphics context as
    it is, and [updatePatternPaintBuffers] makes the buffer list empty. *)
Theorem never_uploaded_configuration_has_no_buffers
    (pack : Encoder) (layer : Layer.t) (zoom : float) (filterProperties : string → bool)
    (this : ProgramConfiguration.t) (calls : list PopulateCall) :
  ProgramConfiguration.createDynamic layer zoom filterProperties = Some this →
  let populated := populate_all pack calls this in
  (∀ ctx, ProgramConfiguration.destroy populated ctx = ctx) ∧
  (∀ crossfade,
     ProgramConfiguration.getPaintVertexBuffers
       (ProgramConfiguration.updatePatternPaintBuffers crossfade populated) = []).
Proof.
  intros Hcreate populated.
  assert (Forall (λ entry, held_buffers entry.2 = [])
            (ProgramConfiguration.binders populated)) as Hnone.
  { destruct (populate_all_keeps pack calls this) as [_ Hkeeps].
    eapply Forall2_Forall_r; [exact Hkeeps|].
    unfold ProgramConfiguration.createDynamic in Hcreate.
    destruct (ProgramConfiguration.createDynamic_loop _ _ _ _ _ _)
      as [[binders keys]|] eqn:Hloop; simpl in Hcreate; [|done].
    injection Hcreate as <-. simpl.
    apply createDynamic_loop_no_buffers in Hloop; [|constructor].
    eapply Forall_impl; [exact Hloop|].
    intros entry Hentry entry' (_ & Hheld & _). congruence. }
  split.
  - intros ctx. by apply destroy_without_buffers.
  - intros crossfade. by apply drawn_without_buffers.
Qed.

Lemma never_uploaded_configuration_has_no_buffers_witness :
  ProgramConfiguration.destroy Examples.hover_populated Context.initial = Context.initial.
Proof.
  apply (never_uploaded_configuration_has_no_buffers Examples.pack Examples.hover_layer
           5%float (λ _, true) _
           [ Examples.call 2 (Some (IdNumber 7)) 0 (Some Examples.atlas);
             Examples.call 4 (Some (IdString "b")) 1 (Some Examples.atlas) ]).
  reflexivity.
Defined.

(** ** Sets of configurations *)

Lemma object_get_set {A} (key key' : string) (v : A) (object : list (string * A)) :
  object_get key' (object_set key v object)
  = if String.eqb key key' then Some v else object_get key' object.
Proof.
  induction object as [|[k w] object IH]; simpl.
  - by destruct (String.eqb key key').
  - destruct (String.eqb_spec k key) as [->|Hne]; simpl.
    + by destruct (String.eqb key key').
    + rewrite IH. destruct (String.eqb_spec k key') as [->|Hne'];
        destruct (String.eqb_spec key key') as [->|Hne'']; done.
Qed.

Lemma object_get_fmap {A B} (f : A → B) (key : string) (object : list (string * A)) :
  object_get key ((λ '(k, x), (k, f x)) <$> object) = f <$> object_get key object.
Proof.
  induction object as [|[k w] object IH]; [done|].
  rewrite fmap_cons. cbn [object_get]. rewrite IH. by destruct (String.eqb k key).
Qed.

Lemma object_set_same {A} (key : string) (v : A) (object : list (string * A)) :
  object_get key object = Some v → object_set key v object = object.
Proof.
  induction object as [|[k w] object IH]; simpl; [done|].
  destruct (String.eqb k key); [by intros [= ->]|]. intros Hget. by rewrite IH.
Qed.

Lemma object_set_keys {A} (key : string) (v : A) (object : list (string * A)) :
  is_Some (object_get key object) → (object_set key v object).*1 = object.*1.
Proof.
  induction object as [|[k w] object IH]; simpl; [by intros [? ?]|].
  destruct (String.eqb k key); [done|]. intros Hget.
  rewrite fmap_cons. f_equal. by apply IH.
Qed.

Lemma new_loop_get layers zoom filterProperties programConfigurations result layerId :
  ProgramConfigurationSet.new_loop layers zoom filterProperties programConfigurations
  = Some result →
  object_get layerId result
  = match last (filter (λ layer, StyleLayer.id layer = layerId) layers) with
    | Some layer =>
        ProgramConfiguration.createDynamic (StyleLayer.layer layer) zoom filterProperties
    | None => object_get layerId programConfigurations
    end.
Proof.
  revert programConfigurations.
  induction layers as [|layer layers IH]; intros programConfigurations; simpl.
  - by intros [= <-].
  - destruct (ProgramConfiguration.createDynamic (StyleLayer.layer layer) zoom
                filterProperties) as [configuration|] eqn:Hcreate; simpl; [|done].
    intros Hloop. rewrite (IH _ Hloop), filter_cons, object_get_set.
    destruct (decide (StyleLayer.id layer = layerId)) as [->|Hne].
    + rewrite last_cons, String.eqb_refl.
      by destruct (last (filter _ layers)).
    + destruct (String.eqb_spec (StyleLayer.id layer) layerId); done.
Qed.

Lemma new_loop_None layers zoom filterProperties programConfigurations :
  ProgramConfigurationSet.new_loop layers zoom filterProperties programConfigurations = None
  ↔ Exists (λ layer,
              ProgramConfiguration.createDynamic (StyleLayer.layer layer) zoom
                filterProperties = None) layers.
Proof.
  revert programConfigurations.
  induction layers as [|layer layers IH]; intros programConfigurations; simpl.
  - split; [done|by intros ?%Exists_nil].
  - rewrite Exists_cons.
    destruct (ProgramConfiguration.createDynamic (StyleLayer.layer layer) zoom
                filterProperties) as [configuration|]; simpl.
    + rewrite IH. split; [by right|by intros [?|?]].
    + split; [by left|done].
Qed.

(** X17. For layers whose ids are not names every object inherits, the
    constructor of [ProgramConfigurationSet] throws exactly when
    [createDynamic] throws for one of the layers. Otherwise the set needs no
    upload yet, and for a [layerId] that is not such a name either,
    [get(layerId)] is the configuration [createDynamic] builds for the last
    layer with that id, and [undefined] when no layer has it. (For an
    inherited name without layer, [get] returns the inherited member.) *)
Theorem ProgramConfigurationSet_new_get
    (layoutAttributes : list StructArrayMember) (layers : list StyleLayer.t)
    (zoom : float) (filterProperties : string → bool) :
  Forall (λ layer, inherited (StyleLayer.id layer) = false) layers →
  (ProgramConfigurationSet.new layoutAttributes layers zoom filterProperties = None ↔
   Exists (λ layer,
             ProgramConfiguration.createDynamic (StyleLayer.layer layer) zoom
               filterProperties = None) layers) ∧
  ∀ this,
    ProgramConfigurationSet.new layoutAttributes layers zoom filterProperties = Some this →
    ProgramConfigurationSet.needsUpload this = false ∧
    ProgramConfigurationSet.layoutAttributes this = layoutAttributes ∧
    ∀ layerId,
      inherited layerId = false →
      ProgramConfigurationSet.get layerId this
      = last (filter (λ layer, StyleLayer.id layer = layerId) layers) ≫=
          λ layer,
            ProgramConfiguration.createDynamic (StyleLayer.layer layer) zoom
              filterProperties.
Proof.
  intros _. unfold ProgramConfigurationSet.new. split.
  - rewrite <- (new_loop_None layers zoom filterProperties []).
    by destruct (ProgramConfigurationSet.new_loop _ _ _ _).
  - intros this.
    destruct (ProgramConfigurationSet.new_loop _ _ _ _) as [result|] eqn:Hloop;
      simpl; [|done].
    intros [= <-]. simpl. repeat (split; [done|]).
    intros layerId _. unfold ProgramConfigurationSet.get. simpl.
    rewrite (new_loop_get _ _ _ _ _ layerId Hloop).
    by destruct (last (filter _ layers)).
Qed.

Lemma ProgramConfigurationSet_new_get_witness :
  ProgramConfigurationSet.get "fill" SetExamples.created
  = ProgramConfiguration.createDynamic Examples.fill_layer 5%float (λ _, true) ∧
  ProgramConfigurationSet.get "line" SetExamples.created = None.
Proof.
  destruct (proj2 (ProgramConfigurationSet_new_get []
                     [SetExamples.hover_style; SetExamples.fill_style] 5%float (λ _, true)
                     ltac:(repeat constructor))
              SetExamples.created eq_refl) as (_ & _ & Hget).
  split; [exact (Hget "fill" eq_refl)|exact (Hget "line" eq_refl)].
Defined.

(** X18. [populatePaintArrays] of a set marks the set for upload, and what
    [get(layerId)] returns afterwards is what it returned before with
    [populatePaintArrays] applied to it. *)
Theorem ProgramConfigurationSet_populate_get
    (pack : Encoder) (length index : nat) (feature : Feature.t)
    (imagePositions : ImagePositions) (this : ProgramConfigurationSet.t)
    (layerId : string) :
  let after :=
    ProgramConfigurationSet.populatePaintArrays pack length feature index imagePositions
      this in
  ProgramConfigurationSet.needsUpload after = true ∧
  ProgramConfigurationSet.get layerId after
  = ProgramConfiguration.populatePaintArrays pack length feature index imagePositions
      <$> ProgramConfigurationSet.get layerId this.
Proof.
  split; [done|]. unfold ProgramConfigurationSet.get. simpl.
  apply (object_get_fmap
           (ProgramConfiguration.populatePaintArrays pack length feature index
              imagePositions)).
Qed.

Lemma upload_all_buffers programConfigurations ctx :
  let ctx' := (ProgramConfigurationSet.upload_all programConfigurations ctx).2 in
  Context.created ctx'
  = Context.created ctx
    + sum_list ((λ entry, buffers_demand (ProgramConfiguration.binders entry.2))
                  <$> programConfigurations) ∧
  Context.destroyed ctx' = Context.destroyed ctx.
Proof.
  revert ctx.
  induction programConfigurations as [|[layerId configuration] rest IH]; intros ctx.
  - simpl. split; [lia|done].
  - cbn [ProgramConfigurationSet.upload_all].
    destruct (upload_buffers configuration ctx) as (Hcreated & Hdestroyed & _).
    destruct (ProgramConfiguration.upload configuration ctx) as [configuration' ctx1].
    specialize (IH ctx1).
    destruct (ProgramConfigurationSet.upload_all rest ctx1) as [rest' ctx'].
    rewrite fmap_cons.
    remember ((λ entry : string * ProgramConfiguration.t,
                 buffers_demand (ProgramConfiguration.binders entry.2)) <$> rest)
      as demands.
    simpl in *. destruct IH as [IHcreated IHdestroyed]. split; [lia|congruence].
Qed.

(** X19. [upload] of a set that needs no upload does nothing: the set and the
    graphics context are unchanged. An upload of a set that needs one realizes
    the buffers of every member configuration, destroys none, and clears the
    flag, so an upload that follows it directly realizes no buffer. *)
Theorem ProgramConfigurationSet_upload_once
    (this : ProgramConfigurationSet.t) (ctx : Context.t) :
  (ProgramConfigurationSet.needsUpload this = false →
   ProgramConfigurationSet.upload this ctx = (this, ctx)) ∧
  (ProgramConfigurationSet.needsUpload this = true →
   Context.created (ProgramConfigurationSet.upload this ctx).2
   = Context.created ctx
     + sum_list ((λ entry, buffers_demand (ProgramConfiguration.binders entry.2))
                   <$> ProgramConfigurationSet.programConfigurations this) ∧
   Context.destroyed (ProgramConfigurationSet.upload this ctx).2
   = Context.destroyed ctx) ∧
  ProgramConfigurationSet.needsUpload (ProgramConfigurationSet.upload this ctx).1 = false ∧
  ∀ ctx',
    ProgramConfigurationSet.upload (ProgramConfigurationSet.upload this ctx).1 ctx'
    = ((ProgramConfigurationSet.upload this ctx).1, ctx').
Proof.
  unfold ProgramConfigurationSet.upload.
  pose proof (upload_all_buffers (ProgramConfigurationSet.programConfigurations this) ctx)
    as Hall.
  destruct (ProgramConfigurationSet.needsUpload this) eqn:Hneeds; simpl.
  - destruct (ProgramConfigurationSet.upload_all _ ctx) as [uploaded ctx1]. simpl in *.
    repeat split; try done; by apply Hall.
  - rewrite Hneeds. by repeat split.
Qed.

Lemma ProgramConfigurationSet_upload_once_witness :
  ProgramConfigurationSet.upload SetExamples.created Context.initial
  = (SetExamples.created, Context.initial) ∧
  Context.created
    (ProgramConfigurationSet.upload SetExamples.populated Context.initial).2 = 4.
Proof.
  split.
  - exact (proj1 (ProgramConfigurationSet_upload_once SetExamples.created Context.initial)
             eq_refl).
  - exact (proj1 (proj1 (proj2 (ProgramConfigurationSet_upload_once SetExamples.populated
                                  Context.initial)) eq_refl)).
Defined.

Lemma object_set_related {A} (R : string * A → string * A → Prop) (key : string)
    (v w : A) (object : list (string * A)) :
  (∀ entry, R entry entry) →
  object_get key object = Some v →
  R (key, v) (key, w) →
  Forall2 R object (object_set key w object).
Proof.
  intros Hrefl Hget Hstep.
  induction object as [|[k u] object IH]; simpl in *; [done|].
  destruct (String.eqb_spec k key) as [->|Hne].
  - injection Hget as ->. constructor; [done|]. by apply Forall_Forall2_diag, Forall_forall.
  - constructor; [done|]. by apply IH.
Qed.

Lemma set_update_loop_shell pack featureStates vtLayer layers imagePositions
    programConfigurations needsUpload programConfigurations' needsUpload' :
  ProgramConfigurationSet.updatePaintArrays_loop pack featureStates vtLayer layers
    imagePositions programConfigurations needsUpload
  = Some (programConfigurations', needsUpload') →
  (needsUpload = true → needsUpload' = true) ∧
  Forall2 same_shell programConfigurations programConfigurations'.
Proof.
  revert programConfigurations needsUpload.
  induction layers as [|layer layers IH]; intros programConfigurations needsUpload; simpl.
  - intros [= <- <-]. split; [done|].
    by apply Forall_Forall2_diag, Forall_forall.
  - destruct (object_get (StyleLayer.id layer) programConfigurations)
      as [configuration|] eqn:Hget; simpl; [|done].
    destruct (ProgramConfiguration.updatePaintArrays pack featureStates vtLayer
                (StyleLayer.layer layer) imagePositions configuration)
      as [[configuration' dirty]|] eqn:Hupdate; simpl; [|done].
    intros Hloop. destruct (IH _ _ Hloop) as [Hneeds Hshell]. split.
    + intros ->. apply Hneeds. by destruct dirty.
    + assert (Forall2 same_shell programConfigurations
                (object_set (StyleLayer.id layer) configuration' programConfigurations))
        as Hstep.
      { apply (object_set_related same_shell _ configuration configuration');
          [by intros entry|exact Hget|].
        unfold same_shell. simpl.
        unfold ProgramConfiguration.updatePaintArrays in Hupdate.
        destruct (ProgramConfiguration.update_states _ _ _ _ _ _ _ _) as [[? ?]|];
          simpl in Hupdate; [|done].
        by injection Hupdate as <- <-. }
      eapply Forall2_trans; cycle 1; [exact Hstep|exact Hshell|].
      intros entry1 entry2 entry3 (? & ? & ? & ? & ?) (? & ? & ? & ? & ?).
      unfold same_shell. repeat split; congruence.
Qed.

Lemma set_update_loop_throws pack featureStates vtLayer layers imagePositions
    programConfigurations needsUpload :
  Exists (λ layer, object_get (StyleLayer.id layer) programConfigurations = None) layers →
  ProgramConfigurationSet.updatePaintArrays_loop pack featureStates vtLayer layers
    imagePositions programConfigurations needsUpload = None.
Proof.
  revert programConfigurations needsUpload.
  induction layers as [|layer layers IH]; intros programConfigurations needsUpload;
    [by intros ?%Exists_nil|].
  rewrite Exists_cons. simpl. intros Hmissing.
  destruct (object_get (StyleLayer.id layer) programConfigurations)
    as [configuration|] eqn:Hget; simpl; [|done].
  destruct (ProgramConfiguration.updatePaintArrays pack featureStates vtLayer
              (StyleLayer.layer layer) imagePositions configuration)
    as [[configuration' dirty]|]; simpl; [|done].
  apply IH. destruct Hmissing as [Hmissing|Hmissing]; [congruence|].
  eapply Exists_impl; [exact Hmissing|]. intros layer' Hnone. simpl in Hnone.
  rewrite object_get_set.
  destruct (String.eqb_spec (StyleLayer.id layer) (StyleLayer.id layer')) as [Heq|];
    [congruence|done].
Qed.

(** X20. [updatePaintArrays] of a set throws when one of the layers has no
    configuration in the set. When it returns, the set has the same layer ids
    in the same order and the same layout attributes, each configuration has
    kept its cache key, feature-id map, buffer offset and buffer list, and a
    set that needed an upload still needs it. *)
Theorem ProgramConfigurationSet_update_keeps_the_shell
    (pack : Encoder) (featureStates : list (string * FeatureState))
    (vtLayer : nat → Feature.t) (layers : list StyleLayer.t)
    (imagePositions : ImagePositions) (this : ProgramConfigurationSet.t) :
  (Exists (λ layer, ProgramConfigurationSet.get (StyleLayer.id layer) this = None) layers →
   ProgramConfigurationSet.updatePaintArrays pack featureStates vtLayer layers
     imagePositions this = None) ∧
  ∀ after,
    ProgramConfigurationSet.updatePaintArrays pack featureStates vtLayer layers
      imagePositions this = Some after →
    ProgramConfigurationSet.layoutAttributes after
    = ProgramConfigurationSet.layoutAttributes this ∧
    (ProgramConfigurationSet.needsUpload this = true →
     ProgramConfigurationSet.needsUpload after = true) ∧
    Forall2 same_shell
      (ProgramConfigurationSet.programConfigurations this)
      (ProgramConfigurationSet.programConfigurations after).
Proof.
  unfold ProgramConfigurationSet.updatePaintArrays, ProgramConfigurationSet.get. split.
  - intros Hmissing.
    by rewrite (set_update_loop_throws _ _ _ _ _ _ _ Hmissing).
  - intros after.
    destruct (ProgramConfigurationSet.updatePaintArrays_loop _ _ _ _ _ _ _)
      as [[programConfigurations' needsUpload']|] eqn:Hloop; simpl; [|done].
    intros [= <-]. simpl.
    destruct (set_update_loop_shell _ _ _ _ _ _ _ _ _ Hloop) as [Hneeds Hshell].
    done.
Qed.

Lemma ProgramConfigurationSet_update_keeps_the_shell_witness :
  ProgramConfigurationSet.updatePaintArrays Examples.pack [("7", [("hover", VNumber 1)])]
    Examples.vtLayer [SetExamples.fill_style; StyleLayer.mk "line" Examples.fill_layer]
    (Some Examples.atlas) SetExamples.populated = None ∧
  ∃ after,
    ProgramConfigurationSet.updatePaintArrays Examples.pack
      [("7", [("hover", VNumber 1)])] Examples.vtLayer [SetExamples.hover_style]
      (Some Examples.atlas) SetExamples.populated = Some after ∧
    ProgramConfigurationSet.needsUpload after = true ∧
    (ProgramConfigurationSet.programConfigurations after).*1 = ["hover"; "fill"].
Proof.
  split.
  - apply (ProgramConfigurationSet_update_keeps_the_shell Examples.pack
             [("7", [("hover", VNumber 1)])] Examples.vtLayer
             [SetExamples.fill_style; StyleLayer.mk "line" Examples.fill_layer]
             (Some Examples.atlas) SetExamples.populated).
    apply Exists_cons_tl, Exists_cons_hd. reflexivity.
  - destruct (ProgramConfigurationSet.updatePaintArrays Examples.pack
                [("7", [("hover", VNumber 1)])] Examples.vtLayer [SetExamples.hover_style]
                (Some Examples.atlas) SetExamples.populated) as [after|] eqn:Hupdate;
      [|vm_compute in Hupdate; discriminate].
    exists after. split; [reflexivity|].
    destruct (proj2 (ProgramConfigurationSet_update_keeps_the_shell Examples.pack
                       [("7", [("hover", VNumber 1)])] Examples.vtLayer
                       [SetExamples.hover_style] (Some Examples.atlas)
                       SetExamples.populated) after Hupdate) as (_ & Hneeds & Hshell).
    split; [by apply Hneeds|].
    transitivity (ProgramConfigurationSet.programConfigurations SetExamples.populated).*1;
      [|reflexivity].
    clear Hupdate Hneeds. induction Hshell as [|[? ?] [? ?] ? ? (Hkey & _) _ IH]; [done|].
    rewrite !fmap_cons. simpl in Hkey. by rewrite Hkey, IH.
Defined.

Lemma set_update_loop_absent pack featureStates vtLayer layers imagePositions
    programConfigurations needsUpload :
  Forall (λ layer,
            ∃ configuration,
              object_get (StyleLayer.id layer) programConfigurations = Some configuration ∧
              ∀ id featureState,
                (id, featureState) ∈ featureStates →
                member id (ProgramConfiguration._idMap configuration) = Undefined) layers →
  ProgramConfigurationSet.updatePaintArrays_loop pack featureStates vtLayer layers
    imagePositions programConfigurations needsUpload
  = Some (programConfigurations, needsUpload).
Proof.
  induction 1 as [|layer layers (configuration & Hget & Habsent) _ IH]; simpl; [done|].
  rewrite Hget. simpl.
  rewrite (updatePaintArrays_absent _ _ _ _ _ _ Habsent). simpl.
  by rewrite (object_set_same _ _ _ Hget).
Qed.

(** X21. When every layer has a configuration in the set and
    [this._idMap[id]] is [undefined] in each of them for every id of
    [featureStates] (the id has no entry in the feature-id map, and is not a
    name every object inherits), [updatePaintArrays] of the set returns the
    set as it was, the upload flag included; a set that needed no upload
    before is then passed through [upload] without touching the graphics
    context. *)
Theorem ProgramConfigurationSet_update_without_recorded_id
    (pack : Encoder) (featureStates : list (string * FeatureState))
    (vtLayer : nat → Feature.t) (layers : list StyleLayer.t)
    (imagePositions : ImagePositions) (this : ProgramConfigurationSet.t) :
  Forall (λ layer,
            ∃ configuration,
              ProgramConfigurationSet.get (StyleLayer.id layer) this = Some configuration ∧
              ∀ id featureState,
                (id, featureState) ∈ featureStates →
                member id (ProgramConfiguration._idMap configuration) = Undefined) layers →
  ProgramConfigurationSet.updatePaintArrays pack featureStates vtLayer layers
    imagePositions this = Some this ∧
  (ProgramConfigurationSet.needsUpload this = false →
   ∀ ctx,
     (λ set, ProgramConfigurationSet.upload set ctx) <$>
       ProgramConfigurationSet.updatePaintArrays pack featureStates vtLayer layers
         imagePositions this
     = Some (this, ctx)).
Proof.
  intros Habsent. unfold ProgramConfigurationSet.get in Habsent.
  assert (ProgramConfigurationSet.updatePaintArrays pack featureStates vtLayer layers
            imagePositions this = Some this) as Hupdate.
  { unfold ProgramConfigurationSet.updatePaintArrays.
    rewrite (set_update_loop_absent _ _ _ _ _ _ _ Habsent). simpl. by destruct this. }
  split; [done|]. intros Hneeds ctx. rewrite Hupdate. simpl.
  unfold ProgramConfigurationSet.upload. by rewrite Hneeds.
Qed.

Lemma ProgramConfigurationSet_update_without_recorded_id_witness :
  ProgramConfigurationSet.updatePaintArrays Examples.pack [("9", [("hover", VNumber 1)])]
    Examples.vtLayer [SetExamples.hover_style; SetExamples.fill_style]
    (Some Examples.atlas) SetExamples.populated
  = Some SetExamples.populated.
Proof.
  apply (ProgramConfigurationSet_update_without_recorded_id Examples.pack
           [("9", [("hover", VNumber 1)])] Examples.vtLayer
           [SetExamples.hover_style; SetExamples.fill_style] (Some Examples.atlas)
           SetExamples.populated).
  repeat constructor.
  - eexists. split; [reflexivity|].
    intros id featureState Hin. apply list_elem_of_singleton in Hin.
    inversion Hin. reflexivity.
  - eexists. split; [reflexivity|].
    intros id featureState Hin. apply list_elem_of_singleton in Hin.
    inversion Hin. reflexivity.
Defined.

Lemma set_update_loop_members pack featureStates vtLayer layers imagePositions
    programConfigurations needsUpload programConfigurations' needsUpload' :
  NoDup (StyleLayer.id <$> layers) →
  ProgramConfigurationSet.updatePaintArrays_loop pack featureStates vtLayer layers
    imagePositions programConfigurations needsUpload
  = Some (programConfigurations', needsUpload') →
  (needsUpload = true → needsUpload' = true) ∧
  (∀ layerId,
     layerId ∉ StyleLayer.id <$> layers →
     object_get layerId programConfigurations' = object_get layerId programConfigurations) ∧
  ∀ layer,
    layer ∈ layers →
    ∃ configuration configuration' dirty,
      object_get (StyleLayer.id layer) programConfigurations = Some configuration ∧
      ProgramConfiguration.updatePaintArrays pack featureStates vtLayer
        (StyleLayer.layer layer) imagePositions configuration
      = Some (configuration', dirty) ∧
      object_get (StyleLayer.id layer) programConfigurations' = Some configuration' ∧
      (dirty = true → needsUpload' = true).
Proof.
  revert programConfigurations needsUpload.
  induction layers as [|layer layers IH]; intros programConfigurations needsUpload.
  - simpl. intros _ [= <- <-]. repeat split; [done|]. by intros layer ?%elem_of_nil.
  - rewrite fmap_cons, NoDup_cons. intros [Hfresh Hnodup]. simpl.
    destruct (object_get (StyleLayer.id layer) programConfigurations)
      as [configuration|] eqn:Hget; simpl; [|done].
    destruct (ProgramConfiguration.updatePaintArrays pack featureStates vtLayer
                (StyleLayer.layer layer) imagePositions configuration)
      as [[configuration' dirty]|] eqn:Hupdate; simpl; [|done].
    intros Hloop. destruct (IH _ _ Hnodup Hloop) as (Hneeds & Hothers & Hmembers).
    split; [|split].
    + intros ->. apply Hneeds. by destruct dirty.
    + intros layerId Hnotin. apply not_elem_of_cons in Hnotin as [Hne Hnotin].
      rewrite (Hothers _ Hnotin), object_get_set.
      destruct (String.eqb_spec (StyleLayer.id layer) layerId); done.
    + intros layer' Hin. apply elem_of_cons in Hin as [->|Hin].
      * exists configuration, configuration', dirty. repeat split; [done..| |].
        -- by rewrite (Hothers _ Hfresh), object_get_set, String.eqb_refl.
        -- intros ->. by apply Hneeds.
      * destruct (Hmembers _ Hin) as (c & c' & d & Hc & Hstep & Hc' & Hd).
        exists c, c', d. repeat split; [|done..].
        rewrite object_get_set in Hc.
        destruct (String.eqb_spec (StyleLayer.id layer) (StyleLayer.id layer'))
          as [Heq|]; [|done].
        exfalso. apply Hfresh. rewrite Heq. by apply list_elem_of_fmap_2.
Qed.

(** X22. For layers with pairwise different ids, a returning
    [updatePaintArrays] of a set replaces the configuration of each layer by
    the one [ProgramConfiguration.updatePaintArrays] leaves for that layer,
    marks the set for upload when one of these calls returns true, keeps an
    earlier mark, and leaves the configuration of every other layer id as it
    was. *)
Theorem ProgramConfigurationSet_update_members
    (pack : Encoder) (featureStates : list (string * FeatureState))
    (vtLayer : nat → Feature.t) (layers : list StyleLayer.t)
    (imagePositions : ImagePositions) (this after : ProgramConfigurationSet.t) :
  NoDup (StyleLayer.id <$> layers) →
  ProgramConfigurationSet.updatePaintArrays pack featureStates vtLayer layers
    imagePositions this = Some after →
  (ProgramConfigurationSet.needsUpload this = true →
   ProgramConfigurationSet.needsUpload after = true) ∧
  (∀ layerId,
     layerId ∉ StyleLayer.id <$> layers →
     ProgramConfigurationSet.get layerId after = ProgramConfigurationSet.get layerId this) ∧
  ∀ layer,
    layer ∈ layers →
    ∃ configuration configuration' dirty,
      ProgramConfigurationSet.get (StyleLayer.id layer) this = Some configuration ∧
      ProgramConfiguration.updatePaintArrays pack featureStates vtLayer
        (StyleLayer.layer layer) imagePositions configuration
      = Some (configuration', dirty) ∧
      ProgramConfigurationSet.get (StyleLayer.id layer) after = Some configuration' ∧
      (dirty = true → ProgramConfigurationSet.needsUpload after = true).
Proof.
  intros Hnodup. unfold ProgramConfigurationSet.updatePaintArrays, ProgramConfigurationSet.get.
  destruct (ProgramConfigurationSet.updatePaintArrays_loop _ _ _ _ _ _ _)
    as [[programConfigurations' needsUpload']|] eqn:Hloop; simpl; [|done].
  intros [= <-]. simpl.
  exact (set_update_loop_members _ _ _ _ _ _ _ _ _ Hnodup Hloop).
Qed.

Lemma ProgramConfigurationSet_update_members_witness :
  ∃ after,
    ProgramConfigurationSet.updatePaintArrays Examples.pack [("7", [("hover", VNumber 1)])]
      Examples.vtLayer [SetExamples.hover_style] (Some Examples.atlas)
      (ProgramConfigurationSet.upload SetExamples.populated Context.initial).1
    = Some after ∧
    ProgramConfigurationSet.needsUpload after = true ∧
    ProgramConfigurationSet.get "fill" after
    = ProgramConfigurationSet.get "fill"
        (ProgramConfigurationSet.upload SetExamples.populated Context.initial).1.
Proof.
  destruct (ProgramConfigurationSet.updatePaintArrays Examples.pack
              [("7", [("hover", VNumber 1)])] Examples.vtLayer [SetExamples.hover_style]
              (Some Examples.atlas)
              (ProgramConfigurationSet.upload SetExamples.populated Context.initial).1)
    as [after|] eqn:Hupdate; [|vm_compute in Hupdate; discriminate].
  exists after. split; [reflexivity|].
  destruct (ProgramConfigurationSet_update_members Examples.pack
              [("7", [("hover", VNumber 1)])] Examples.vtLayer [SetExamples.hover_style]
              (Some Examples.atlas)
              (ProgramConfigurationSet.upload SetExamples.populated Context.initial).1
              after) as (_ & Hothers & Hmembers).
  - apply NoDup_singleton.
  - exact Hupdate.
  - split.
    + destruct (Hmembers SetExamples.hover_style) as (c & c' & d & Hc & Hstep & _ & Hd);
        [by left|].
      apply Hd. vm_compute in Hc. injection Hc as <-.
      destruct d; [reflexivity|]. vm_compute in Hstep. discriminate.
    + apply Hothers. intros Hin. apply list_elem_of_singleton in Hin. discriminate Hin.
Defined.

Lemma upload_all_handles programConfigurations ctx :
  concat ((λ entry, held_handles (ProgramConfiguration.binders entry.2))
            <$> (ProgramConfigurationSet.upload_all programConfigurations ctx).1)
  ≡ₚ seq (Context.created ctx)
       (sum_list ((λ entry, buffers_demand (ProgramConfiguration.binders entry.2))
                    <$> programConfigurations)).
Proof.
  revert ctx.
  induction programConfigurations as [|[layerId configuration] rest IH]; intros ctx;
    [done|].
  cbn [ProgramConfigurationSet.upload_all].
  destruct (upload_buffers configuration ctx) as (Hcreated & _ & Hhandles).
  destruct (ProgramConfiguration.upload configuration ctx) as [configuration' ctx1].
  specialize (IH ctx1).
  destruct (ProgramConfigurationSet.upload_all rest ctx1) as [rest' ctx'].
  cbn [fst snd] in *. rewrite !fmap_cons. cbn [concat fst snd].
  change (sum_list (?x :: ?l)) with (x + sum_list l).
  by rewrite seq_app, Hhandles, IH, Hcreated.
Qed.

Lemma destroy_count_set (h : nat)
    (programConfigurations : list (string * ProgramConfiguration.t)) (ctx : Context.t) :
  Context.destroy_count h
    (foldl (λ ctx '(_, configuration), ProgramConfiguration.destroy configuration ctx) ctx
       programConfigurations)
  = Context.destroy_count h ctx
    + length (filter (λ x, x = h)
                (concat ((λ entry, held_handles (ProgramConfiguration.binders entry.2))
                           <$> programConfigurations))).
Proof.
  revert ctx.
  induction programConfigurations as [|[layerId configuration] rest IH]; intros ctx;
    [simpl; lia|].
  rewrite fmap_cons. cbn [foldl concat fst snd].
  rewrite IH, destroy_count_configuration, filter_app, length_app. lia.
Qed.

(** X23. Uploading a set that needs it and then destroying the set invokes the
    destroy operation exactly once on each buffer the upload realized, whatever
    the number of layers, and on no other buffer. *)
Theorem ProgramConfigurationSet_upload_then_destroy
    (this : ProgramConfigurationSet.t) (ctx : Context.t) (h : nat) :
  ProgramConfigurationSet.needsUpload this = true →
  let after := (ProgramConfigurationSet.upload this ctx).1 in
  let ctx' := (ProgramConfigurationSet.upload this ctx).2 in
  Context.destroy_count h (ProgramConfigurationSet.destroy after ctx')
  = Context.destroy_count h ctx
    + if decide (Context.created ctx ≤ h < Context.created ctx') then 1 else 0.
Proof.
  intros Hneeds. unfold ProgramConfigurationSet.upload, ProgramConfigurationSet.destroy.
  rewrite Hneeds. simpl.
  pose proof (upload_all_buffers (ProgramConfigurationSet.programConfigurations this) ctx)
    as [Hcreated Hdestroyed].
  pose proof (upload_all_handles (ProgramConfigurationSet.programConfigurations this) ctx)
    as Hhandles.
  destruct (ProgramConfigurationSet.upload_all _ ctx) as [uploaded ctx1]. simpl in *.
  rewrite destroy_count_set, Hhandles, filter_seq_length, Hcreated.
  unfold Context.destroy_count. by rewrite Hdestroyed.
Qed.

Lemma ProgramConfigurationSet_upload_then_destroy_witness :
  Context.destroy_count 1
    (ProgramConfigurationSet.destroy
       (ProgramConfigurationSet.upload SetExamples.populated Context.initial).1
       (ProgramConfigurationSet.upload SetExamples.populated Context.initial).2)
  = 1.
Proof.
  exact (ProgramConfigurationSet_upload_then_destroy SetExamples.populated Context.initial 1
           eq_refl).
Defined.
